(** * WorkFlow Pro verification harness: embedding and properties

    The Python sources (part1_debug_solution.py, part3_integration_test.py)
    drive a REST API and a browser.  They are embedded here as programs over
    an effect signature: a program is a finite tree whose nodes are the
    external calls the Python code makes (requests.Session, Playwright),
    [time.sleep], and the mutations of the two shared Python objects
    (the [created_projects] list of the cleanup fixture and the
    [results_queue] of the concurrent test).  Programs are run against an
    arbitrary stateful world, which keeps a chronological trace of every
    effect performed.

    Conventions.
    - [logger] calls have no effect on control flow and are not modelled,
      except where the evaluation of their argument can raise: the log
      line of [create_project] reads [project_response.get('id')].
    - Only exceptions below Python's [Exception] are modelled (these are
      the ones [except Exception] catches); interpreter signals such as
      KeyboardInterrupt are outside the model.
    - Formatted messages of raised exceptions are kept as structured
      values (the status code and body, the assertion that failed) rather
      than as rendered strings; API URLs keep the base URL and a
      structured path. *)

From Stdlib Require Import ZArith Lia Ascii.
From Stdlib Require Import Floats.SpecFloat.
From stdpp Require Import base strings pretty list gmap.

Open Scope string_scope.
Open Scope list_scope.
Open Scope Z_scope.
#[local] Set Warnings "-register-all,-clear-no-such-hyp".

(** ** Values *)

(** Decoded JSON, which is also the shape of the Python values the code
    reads out of responses ([None], [bool], [int], [str], [list],
    [dict]). *)
Inductive json : Type :=
| JNull
| JBool (b : bool)
| JNum (n : Z)
| JStr (s : string)
| JArr (items : list json)
| JObj (fields : list (string * json)).

(** Python truth value, as used by [assert x] and [if not x]. *)
Definition truthy (v : json) : bool :=
  match v with
  | JNull => false
  | JBool b => b
  | JNum n => negb (n =? 0)
  | JStr s => negb (String.eqb s "")
  | JArr items => match items with [] => false | _ => true end
  | JObj fields => match fields with [] => false | _ => true end
  end.

(** Lookup in a decoded object; a repeated key keeps its last value. *)
Fixpoint fields_get (fields : list (string * json)) (key : string) : option json :=
  match fields with
  | [] => None
  | (k, v) :: rest =>
      match fields_get rest key with
      | Some w => Some w
      | None => if String.eqb k key then Some v else None
      end
  end.

(** [v == s] for a Python string [s]. *)
Definition json_eq_str (v : json) (s : string) : bool :=
  match v with
  | JStr t => String.eqb t s
  | _ => false
  end.

(** ** HTTP and browser interface *)

Inductive endpoint : Type :=
| AuthLogin                         (* {base_url}/auth/login *)
| Projects                          (* {base_url}/projects *)
| ProjectById (project_id : json).  (* {base_url}/projects/{project_id} *)

Record url : Type := Url { url_base : string; url_path : endpoint }.

Record response : Type := Response {
  status_code : Z;
  text : string;
  decoded : option json   (* [None]: [response.json()] raises *)
}.

Inductive device_type : Type := iphone | android.

(** A header value: a plain string or [f'Bearer {token}']. *)
Inductive header : Type :=
| HStr (s : string)
| HBearer (token : json).

(** The external calls of the sources. *)
Inductive call : Type :=
| SessionPost (u : url) (body : json) (headers : gmap string header) (timeout : Z)
| SessionGet (u : url) (headers : gmap string header) (timeout : Z)
| SessionDelete (u : url) (headers : gmap string header) (timeout : Z)
| PlaywrightStart                   (* entering [with sync_playwright() as p] *)
| PlaywrightStop                    (* leaving it *)
| ChromiumLaunch
| NewContext (device : device_type)
| NewPage
| BrowserClose
| PageGoto (target wait_until : string)
| PageFill (selector value : string)
| PageClick (selector : string)
| ExpectNavigation (wait_until : string)
| ExpectUrlPattern (pattern : string)
| WaitForSelector (selector : string) (timeout : Z)
| WaitForLoadState (load_state : string)
| PageUrl
| ExpectVisible (selector : string) (timeout : option Z)
| ExpectContainText (selector expected : string)
| LocatorClick (selector : string)
| LocatorTap (selector : string)
| LocatorCount (selector : string)
| LocatorSwipeLeft (selector : string).

(** What a call returns when it does not raise. *)
Definition ans (c : call) : Type :=
  match c with
  | SessionPost _ _ _ _ | SessionGet _ _ _ | SessionDelete _ _ _ => response
  | PageUrl => string
  | LocatorCount _ => Z
  | _ => unit
  end.

(** A call either returns or raises a library exception, named by its
    class (a [requests] transport error, a Playwright [TimeoutError]...). *)
Inductive reply (A : Type) : Type :=
| Answer (a : A)
| Fault (name : string).
Arguments Answer {A} a.
Arguments Fault {A} name.

(** ** Exceptions *)

(** The [assert] statements of the tests, by site. *)
Inductive assertion : Type :=
| AuthTokenMissing                         (* "Failed to authenticate with API" *)
| NoProjectId                              (* "No project ID returned from API" *)
| NameMismatch                             (* response name == test_project.name *)
| StatusNotActive                          (* response status == 'active' *)
| NotInWebDashboard (project_name : string)
| NotOnIphone
| NotOnAndroid
| IsolationFailed                          (* "Tenant isolation failed - SECURITY ISSUE!" *)
| CrossPlatformRateLow (rate : spec_float)
| ConcurrentRateLow (rate : spec_float).

Inductive exn : Type :=
| AssertionError (a : assertion)
| AuthenticationFailed (status : Z) (body : string)
| NoAccessToken
| ProjectCreationFailed (status : Z) (body : string)
| GetProjectFailed (status : Z) (body : string)
| AttributeError                           (* [.get] on a value that is no dict *)
| JSONDecodeError                          (* [response.json()] on a body that is no JSON *)
| ZeroDivisionError
| LibraryError (name : string).            (* raised inside requests or Playwright *)

Inductive result (A : Type) : Type :=
| Ok (a : A)
| Raise (e : exn).
Arguments Ok {A} a.
Arguments Raise {A} e.

(** ** Programs *)

(** One entry of [results_queue]: (worker_id, success, project_id). *)
Definition queue_item : Type := (nat * bool * json)%type.

Inductive prog (A : Type) : Type :=
| Return (a : A)
| Throw (e : exn)
| Perform (c : call) (k : reply (ans c) -> prog A)
| Sleep (seconds : Z) (k : prog A)                 (* time.sleep(seconds) *)
| Append (entry : json * string) (k : prog A)      (* cleanup_projects.append(entry) *)
| QueuePut (item : queue_item) (k : prog A).       (* results_queue.put(item) *)
Arguments Return {A} a.
Arguments Throw {A} e.
Arguments Perform {A} c k.
Arguments Sleep {A} seconds k.
Arguments Append {A} entry k.
Arguments QueuePut {A} item k.

Definition of_result {A} (r : result A) : prog A :=
  match r with
  | Ok a => Return a
  | Raise e => Throw e
  end.

(** Run [p], then continue with its outcome, normal or exceptional. *)
Fixpoint on_outcome {A B} (p : prog A) (f : result A -> prog B) : prog B :=
  match p with
  | Return a => f (Ok a)
  | Throw e => f (Raise e)
  | Perform c k => Perform c (fun r => on_outcome (k r) f)
  | Sleep s k => Sleep s (on_outcome k f)
  | Append entry k => Append entry (on_outcome k f)
  | QueuePut item k => QueuePut item (on_outcome k f)
  end.

Definition bind {A B} (p : prog A) (f : A -> prog B) : prog B :=
  on_outcome p (fun r => match r with Ok a => f a | Raise e => Throw e end).

(** [try: p except Exception as e: handler e] *)
Definition try_except {A} (p : prog A) (handler : exn -> prog A) : prog A :=
  on_outcome p (fun r => match r with Ok a => Return a | Raise e => handler e end).

(** [try: p finally: cleanup]; an exception of [cleanup] replaces the
    outcome of [p]. *)
Definition try_finally {A} (p : prog A) (cleanup : prog unit) : prog A :=
  on_outcome p (fun r => on_outcome cleanup (fun c =>
    match c with Ok _ => of_result r | Raise e => Throw e end)).

Notation "'let!' x ':=' p 'in' q" := (bind p (fun x => q))
  (at level 10, x name, p at level 100, q at level 200).

(** An external call, with the library's exception re-raised in Python. *)
Definition perform (c : call) : prog (ans c) :=
  Perform c (fun r =>
    match r with
    | Answer a => Return a
    | Fault name => Throw (LibraryError name)
    end).

Definition sleep (seconds : Z) : prog unit := Sleep seconds (Return tt).

Definition py_assert (cond : bool) (a : assertion) : prog unit :=
  if cond then Return tt else Throw (AssertionError a).

(** [response.json()] *)
Definition response_json (resp : response) : prog json :=
  match decoded resp with
  | Some v => Return v
  | None => Throw JSONDecodeError
  end.

(** [d.get(key)] *)
Definition dict_get (d : json) (key : string) : prog json :=
  match d with
  | JObj fields => Return (default JNull (fields_get fields key))
  | _ => Throw AttributeError
  end.

(** ** part3_integration_test.py: data and API client *)

Record TestProject : Type := mkTestProject {
  name : string;
  description : string;
  team_members : list string;
  id : json;           (* Optional[int] = None *)
  tenant_id : string
}.

Record APIClient : Type := mkAPIClient {
  base_url : string;
  session_headers : gmap string header
}.

(** [APIClient()] *)
Definition new_APIClient : APIClient :=
  {| base_url := "https://app.workflowpro.com/api/v1";
     session_headers :=
       <["Accept" := HStr "application/json"]>
       (<["Content-Type" := HStr "application/json"]> ∅) |}.

Section APIClient.
Variable self : APIClient.

Definition request_headers (headers : gmap string header) : gmap string header :=
  headers ∪ session_headers self.

Definition tenant_header (tenant : string) : gmap string header :=
  {[ "X-Tenant-ID" := HStr tenant ]}.

(** [authenticate]: returns the token and the client with its
    Authorization header set. *)
Definition authenticate (email password : string) : prog (json * APIClient) :=
  let auth_data := JObj [("email", JStr email); ("password", JStr password)] in
  let! resp := perform (SessionPost (Url (base_url self) AuthLogin) auth_data
                          (request_headers ∅) 30) in
  if negb (status_code resp =? 200) then
    Throw (AuthenticationFailed (status_code resp) (text resp))
  else
    let! token_data := response_json resp in
    let! token := dict_get token_data "access_token" in
    if negb (truthy token) then Throw NoAccessToken
    else
      Return (token,
              {| base_url := base_url self;
                 session_headers :=
                   <["Authorization" := HBearer token]> (session_headers self) |}).

Definition create_project (project : TestProject) (tenant : string) : prog json :=
  let project_data :=
    JObj [("name", JStr (name project));
          ("description", JStr (description project));
          ("team_members", JArr (JStr <$> team_members project))] in
  let! resp := perform (SessionPost (Url (base_url self) Projects) project_data
                          (request_headers (tenant_header tenant)) 30) in
  if negb ((status_code resp =? 200) || (status_code resp =? 201)) then
    Throw (ProjectCreationFailed (status_code resp) (text resp))
  else
    let! project_response := response_json resp in
    (* logger.info(f"Project created with ID: {project_response.get('id')}") *)
    let! _ := dict_get project_response "id" in
    Return project_response.

Definition get_project (project_id : json) (tenant : string) : prog json :=
  let! resp := perform (SessionGet (Url (base_url self) (ProjectById project_id))
                          (request_headers (tenant_header tenant)) 30) in
  if negb (status_code resp =? 200) then
    Throw (GetProjectFailed (status_code resp) (text resp))
  else response_json resp.

Definition delete_project (project_id : json) (tenant : string) : prog bool :=
  try_except
    (let! resp := perform (SessionDelete (Url (base_url self) (ProjectById project_id))
                             (request_headers (tenant_header tenant)) 30) in
     Return ((status_code resp =? 200) || (status_code resp =? 204)
             || (status_code resp =? 404)))
    (fun _ => Return false).
End APIClient.

(** ** TenantIsolationTester *)

Definition verify_tenant_isolation (api_client : APIClient) (project_id : json)
    (authorized_tenant unauthorized_tenant : string) : prog bool :=
  on_outcome (get_project api_client project_id authorized_tenant) (fun authorized =>
    match authorized with
    | Raise _ => Return false
    | Ok _ =>
        try_except
          (let! _ := get_project api_client project_id unauthorized_tenant in
           Return false)
          (fun _ => Return true)
    end).

(** ** Strings *)

(** [needle in hay] *)
Fixpoint contains (needle hay : string) : bool :=
  String.prefix needle hay ||
  match hay with
  | EmptyString => false
  | String _ rest => contains needle rest
  end.

Definition lower_ascii (c : ascii) : ascii :=
  let n := nat_of_ascii c in
  if ((65 <=? n) && (n <=? 90))%nat then ascii_of_nat (n + 32) else c.

(** [s.lower()], on ASCII text. *)
Fixpoint lower (s : string) : string :=
  match s with
  | EmptyString => EmptyString
  | String c rest => String (lower_ascii c) (lower rest)
  end.

(** ** WebUITester *)

Definition ui_base_url : string := "https://app.workflowpro.com".

(** [with sync_playwright() as p: body] *)
Definition with_playwright {A} (body : prog A) : prog A :=
  let! _ := perform PlaywrightStart in
  try_finally body (perform PlaywrightStop).

(** [WebUITester.login].  The block [with page.expect_navigation(...)]
    waits for the navigation when its body ends normally. *)
Definition login (email password : string) : prog unit :=
  let! _ := perform (PageGoto (ui_base_url +:+ "/login") "networkidle") in
  let! _ := perform (PageFill "#email" email) in
  let! _ := perform (PageFill "#password" password) in
  let! _ := perform (PageClick "#login-btn") in
  let! _ := perform (ExpectNavigation "networkidle") in
  let! _ := perform (ExpectUrlPattern ".*\/dashboard.*") in
  perform (WaitForSelector ".welcome-message" 30000).

Definition project_card (project_name : string) : string :=
  ".project-card:has-text('" +:+ project_name +:+ "')".

(** The statements of [verify_project_in_dashboard] before its [try]. *)
Definition open_project_list (timeout : Z) : prog unit :=
  let! page_url := perform PageUrl in
  let! _ :=
    if negb (contains "projects" page_url) then
      let! _ := perform (PageClick "a[href*='projects']") in
      perform (WaitForLoadState "networkidle")
    else Return tt in
  perform (WaitForSelector ".project-list" timeout).

Definition verify_project_in_dashboard (project_name : string) (timeout : Z) : prog bool :=
  let! _ := open_project_list timeout in
  try_except
    (let! _ := perform (ExpectVisible (project_card project_name) (Some timeout)) in
     Return true)
    (fun _ => Return false).

Fixpoint expect_team_members (members : list string) : prog unit :=
  match members with
  | [] => Return tt
  | member :: rest =>
      let! _ := perform (ExpectContainText ".team-members" member) in
      expect_team_members rest
  end.

Definition verify_project_details (project : TestProject) : prog bool :=
  let! _ := perform (LocatorClick (project_card (name project))) in
  let! _ := perform (WaitForSelector ".project-details" 30000) in
  let! _ := perform (ExpectContainText ".project-title" (name project)) in
  let! _ := perform (ExpectContainText ".project-description" (description project)) in
  let! _ := expect_team_members (team_members project) in
  Return true.

(** ** MobileTester *)

Definition create_mobile_browser (device : device_type) : prog unit :=
  with_playwright
    (let! _ := perform ChromiumLaunch in
     let! _ := perform (NewContext device) in
     perform NewPage).

Definition _test_mobile_interactions (project_name : string) : prog unit :=
  let! _ := perform (LocatorTap (project_card project_name)) in
  let! _ := perform (ExpectVisible ".mobile-nav" None) in
  let! swipeable := perform (LocatorCount ".swipeable") in
  if 0 <? swipeable then perform (LocatorSwipeLeft ".swipeable") else Return tt.

Definition test_mobile_accessibility (project_name email password : string)
    (device : device_type) : prog bool :=
  let! _ := create_mobile_browser device in
  try_finally
    (let! _ := login email password in
     let! found := verify_project_in_dashboard project_name 45000 in
     let! _ := if found then _test_mobile_interactions project_name else Return tt in
     Return found)
    (perform BrowserClose).

(** ** BrowserStackIntegration *)

Definition _test_desktop_platform (platform project_name email password : string) : prog bool :=
  with_playwright
    (let! _ := perform ChromiumLaunch in
     let! _ := perform NewPage in
     try_finally
       (let! _ := login email password in
        verify_project_in_dashboard project_name 30000)
       (perform BrowserClose)).

(** The body of the [try] for one platform. *)
Definition test_platform (platform project_name email password : string) : prog bool :=
  if contains "mobile" (lower platform) || contains "android" platform
     || contains "iphone" platform then
    let device := if contains "ios" platform then iphone else android in
    test_mobile_accessibility project_name email password device
  else
    _test_desktop_platform platform project_name email password.

(** The [for platform in platforms] loop, with the [results] dict. *)
Fixpoint test_cross_platform_over (platforms : list string)
    (project_name email password : string) (results : gmap string bool)
    : prog (gmap string bool) :=
  match platforms with
  | [] => Return results
  | platform :: rest =>
      let! results' :=
        try_except
          (let! success := test_platform platform project_name email password in
           Return (<[platform := success]> results))
          (fun _ => Return (<[platform := false]> results)) in
      test_cross_platform_over rest project_name email password results'
  end.

(** What the loop records for a platform whose check ended with [r]. *)
Definition recorded (r : result bool) : bool :=
  match r with
  | Ok success => success
  | Raise _ => false
  end.

(** [self.capabilities], the platform matrix declared in [__init__]. *)
Definition capabilities : list (string * list (string * string)) :=
  [("chrome_windows", [("browserName", "Chrome"); ("browserVersion", "latest");
                       ("os", "Windows"); ("osVersion", "10")]);
   ("safari_mac", [("browserName", "Safari"); ("browserVersion", "latest");
                   ("os", "OS X"); ("osVersion", "Big Sur")]);
   ("chrome_android", [("browserName", "chrome"); ("device", "Samsung Galaxy S21");
                       ("realMobile", "true")]);
   ("safari_ios", [("browserName", "iPhone"); ("device", "iPhone 13");
                   ("realMobile", "true")])].

(** The local list [platforms] of [test_cross_platform]. *)
Definition platforms : list string :=
  ["chrome_windows"; "safari_mac"; "chrome_android"; "safari_ios"].

Definition test_cross_platform (project_name email password : string)
    : prog (gmap string bool) :=
  test_cross_platform_over platforms project_name email password ∅.

(** ** Success rates (Python floats, IEEE 754 binary64) *)

Definition prec : Z := 53.
Definition emax : Z := 1024.

(** [float(n)] for an [int]. *)
Definition float_of_int (n : Z) : spec_float := binary_normalize prec emax n 0 false.

(** The literal [0.8]: 0x1.999999999999ap-1. *)
Definition threshold : spec_float := S754_finite false 7205759403792794 (-53).

(** [a >= b] on floats. *)
Definition float_ge (a b : spec_float) : bool := SFleb b a.

(** The float [x] is exactly the rational [a / b]. *)
Definition float_is_ratio (x : spec_float) (a b : Z) : Prop :=
  match x with
  | S754_zero _ => a = 0
  | S754_finite s m e =>
      let signed := if s then Z.neg m else Z.pos m in
      if e <? 0 then signed * b = a * 2 ^ (- e) else signed * 2 ^ e * b = a
  | _ => False
  end.

(** The comparison [passed / total >= 0.8] on floats agrees with the
    comparison of the exact ratio against 4/5. *)
Definition decision_agrees (passed total : Z) : bool :=
  Bool.eqb (float_ge (SFdiv prec emax (float_of_int passed) (float_of_int total)) threshold)
           (4 * total <=? 5 * passed).

Definition decisions_agree (bound : nat) : bool :=
  forallb (fun total =>
             forallb (fun passed => decision_agrees (Z.of_nat passed) (Z.of_nat total))
                     (seq 0 (S total)))
          (seq 1 bound).

(** The float [x] is the rational [a / b] rounded: zero when [a] is, and
    otherwise a normal double within half a unit in the last place of
    [a / b]. *)
Definition float_rounds_ratio (x : spec_float) (a b : Z) : bool :=
  match x with
  | S754_zero _ => a =? 0
  | S754_finite false m e =>
      (2 ^ 52 <=? Z.pos m) && (Z.pos m <? 2 ^ 53) && (e <? 0)
      && (2 * Z.abs (Z.pos m * b - a * 2 ^ (- e)) <=? b)
  | _ => false
  end.

Definition ratio_rounded (passed total : Z) : bool :=
  float_rounds_ratio (SFdiv prec emax (float_of_int passed) (float_of_int total)) passed total.

Definition ratios_rounded (bound : nat) : bool :=
  forallb (fun total =>
             forallb (fun passed => ratio_rounded (Z.of_nat passed) (Z.of_nat total))
                     (seq 0 (S total)))
          (seq 1 bound).

(** [a / b] on [int]s. *)
Definition true_div (a b : Z) : prog spec_float :=
  if b =? 0 then Throw ZeroDivisionError
  else Return (SFdiv prec emax (float_of_int a) (float_of_int b)).

(** [sum(results.values())] *)
Definition sum_values (results : gmap string bool) : Z :=
  map_fold (fun _ (b : bool) acc => Z.b2z b + acc) 0 results.

(** [len(results)] *)
Definition len (results : gmap string bool) : Z := Z.of_nat (size results).

(** ** The integration test and its cleanup fixture *)

Definition COMPANY1_ID : string := "company1".
Definition COMPANY2_ID : string := "company2".
Definition ADMIN_EMAIL : string := "admin@company1.com".
Definition USER_EMAIL : string := "user@company2.com".
Definition PASSWORD : string := "password123".

(** STEP 1 up to the assignment of [created_project_id]. *)
Definition flow_create (test_project : TestProject) (api_client : APIClient)
    : prog (APIClient * json * json) :=
  let! auth := authenticate api_client ADMIN_EMAIL PASSWORD in
  let! _ := py_assert (truthy (fst auth)) AuthTokenMissing in
  let! project_response := create_project (snd auth) test_project COMPANY1_ID in
  let! created_project_id := dict_get project_response "id" in
  Return (snd auth, project_response, created_project_id).

(** STEP 2: Web UI verification.  [flow_web_ui_checks] is what follows the
    login inside the [try]. *)
Definition flow_web_ui_checks (test_project : TestProject) : prog unit :=
  let! _ := sleep 2 in
  let! project_found := verify_project_in_dashboard (name test_project) 30000 in
  let! _ := py_assert project_found (NotInWebDashboard (name test_project)) in
  let! _ := verify_project_details test_project in
  Return tt.

Definition flow_web_ui (test_project : TestProject) : prog unit :=
  with_playwright
    (let! _ := perform ChromiumLaunch in
     let! _ := perform NewPage in
     try_finally
       (let! _ := login ADMIN_EMAIL PASSWORD in
        flow_web_ui_checks test_project)
       (perform BrowserClose)).

(** The statements of STEP 2 up to and including the login. *)
Definition flow_web_ui_login : prog unit :=
  let! _ := perform PlaywrightStart in
  let! _ := perform ChromiumLaunch in
  let! _ := perform NewPage in
  login ADMIN_EMAIL PASSWORD.

(** STEP 3: mobile accessibility. *)
Definition flow_mobile (test_project : TestProject) : prog unit :=
  let! iphone_success :=
    test_mobile_accessibility (name test_project) ADMIN_EMAIL PASSWORD iphone in
  let! _ := py_assert iphone_success NotOnIphone in
  let! android_success :=
    test_mobile_accessibility (name test_project) ADMIN_EMAIL PASSWORD android in
  py_assert android_success NotOnAndroid.

(** STEP 4: tenant isolation. *)
Definition flow_isolation (api_client : APIClient) (created_project_id : json) : prog unit :=
  let! isolation_verified :=
    verify_tenant_isolation api_client created_project_id COMPANY1_ID COMPANY2_ID in
  py_assert isolation_verified IsolationFailed.

(** STEP 5: cross-platform testing. *)
Definition flow_cross_platform (test_project : TestProject) : prog unit :=
  let! platform_results := test_cross_platform (name test_project) ADMIN_EMAIL PASSWORD in
  let! success_rate := true_div (sum_values platform_results) (len platform_results) in
  py_assert (float_ge success_rate threshold) (CrossPlatformRateLow success_rate).

(** The [try] body from the registration of the project on. *)
Definition flow_after_create (test_project : TestProject) (api_client : APIClient)
    (project_response created_project_id : json) : prog unit :=
  let test_project :=
    {| name := name test_project; description := description test_project;
       team_members := team_members test_project; id := created_project_id;
       tenant_id := tenant_id test_project |} in
  Append (created_project_id, COMPANY1_ID)
    (let! _ := py_assert (truthy created_project_id) NoProjectId in
     let! response_name := dict_get project_response "name" in
     let! _ := py_assert (json_eq_str response_name (name test_project)) NameMismatch in
     let! response_status := dict_get project_response "status" in
     let! _ := py_assert (json_eq_str response_status "active") StatusNotActive in
     let! _ := flow_web_ui test_project in
     let! _ := flow_mobile test_project in
     let! _ := flow_isolation api_client created_project_id in
     flow_cross_platform test_project).

(** The [finally] block. *)
Definition flow_finally (api_client : APIClient) (created_project_id : json) : prog unit :=
  if truthy created_project_id then
    try_except
      (let! _ := get_project api_client created_project_id COMPANY1_ID in Return tt)
      (fun _ => Return tt)
  else Return tt.

(** [test_project_creation_flow].  When the [try] body raises before
    [created_project_id] is assigned, the variable is still [None] and the
    [finally] block does nothing; [except Exception: raise] re-raises. *)
Definition test_project_creation_flow (test_project : TestProject)
    (api_client : APIClient) : prog unit :=
  on_outcome (flow_create test_project api_client) (fun created =>
    match created with
    | Raise e => Throw e
    | Ok (api_client', project_response, created_project_id) =>
        try_finally
          (flow_after_create test_project api_client' project_response created_project_id)
          (flow_finally api_client' created_project_id)
    end).

Fixpoint delete_projects (api_client : APIClient) (created_projects : list (json * string))
    : prog unit :=
  match created_projects with
  | [] => Return tt
  | (project_id, tenant) :: rest =>
      let! _ := delete_project api_client project_id tenant in
      delete_projects api_client rest
  end.

(** The part of the [cleanup_projects] fixture after its [yield]. *)
Definition cleanup_projects (created_projects : list (json * string)) : prog unit :=
  try_except
    (let! auth := authenticate new_APIClient "admin@company1.com" "password123" in
     delete_projects (snd auth) created_projects)
    (fun _ => Return tt).

(** ** Concurrent creation *)

Definition num_threads : nat := 5.

Definition create_project_worker (worker_id : nat) : prog unit :=
  try_except
    (let! auth := authenticate new_APIClient "admin@company1.com" "password123" in
     let project :=
       {| name := "Concurrent Test Project " +:+ pretty worker_id;
          description := "Created by worker " +:+ pretty worker_id;
          team_members := ["user" +:+ pretty worker_id +:+ "@company1.com"];
          id := JNull; tenant_id := "" |} in
     let! project_response := create_project (snd auth) project "company1" in
     let! project_id := dict_get project_response "id" in
     QueuePut (worker_id, true, project_id) (Return tt))
    (fun _ => QueuePut (worker_id, false, JNull) (Return tt)).

(** The [while not results_queue.empty()] loop over the queued items. *)
Fixpoint collect (queued : list queue_item) (successful_creations : Z)
    (created_project_ids : list json) : Z * list json :=
  match queued with
  | [] => (successful_creations, created_project_ids)
  | (_, success, project_id) :: rest =>
      if success then collect rest (successful_creations + 1) (created_project_ids ++ [project_id])
      else collect rest successful_creations created_project_ids
  end.

(** The project ids of the queued items whose worker reported success. *)
Definition successful_ids (queued : list queue_item) : list json :=
  omap (fun item : queue_item => if item.1.2 then Some item.2 else None) queued.

(** The part of [test_concurrent_project_creation] after the results are
    collected. *)
Definition concurrent_verdict (successful_creations : Z) (created_project_ids : list json)
    : prog unit :=
  let! success_rate := true_div successful_creations (Z.of_nat num_threads) in
  let! _ := py_assert (float_ge success_rate threshold) (ConcurrentRateLow success_rate) in
  try_except
    (let! auth := authenticate new_APIClient "admin@company1.com" "password123" in
     delete_projects (snd auth) ((fun project_id => (project_id, "company1")) <$> created_project_ids))
    (fun _ => Return tt).

(** ** part1_debug_solution.py: LoginPage *)

Module LoginPage.
Definition BASE_URL : string := "https://app.workflowpro.com".

(** The body of the [try] in [navigate_to_login]. *)
Definition navigate_once : prog unit :=
  let! _ := perform (PageGoto (BASE_URL +:+ "/login") "networkidle") in
  let! _ := perform (WaitForLoadState "domcontentloaded") in
  perform (ExpectUrlPattern ".*\/login.*").

(** [for attempt in range(max_retries)], with [remaining] iterations
    left. *)
Fixpoint navigate_attempts (max_retries remaining : nat) : prog unit :=
  match remaining with
  | O => Return tt
  | S rest =>
      let attempt := (max_retries - remaining)%nat in
      try_except navigate_once (fun e =>
        if (attempt =? max_retries - 1)%nat then Throw e
        else let! _ := sleep 2 in navigate_attempts max_retries rest)
  end.

Definition navigate_to_login : prog unit := navigate_attempts 3 3.
End LoginPage.

(** ** Running programs *)

(** Every effect a run performs, in order. *)
Inductive event : Type :=
| Called (c : call)
| Slept (seconds : Z)
| Appended (entry : json * string)
| Enqueued (item : queue_item).

Record state (W : Type) : Type := mkState {
  world : W;
  trace : list event;
  created_projects : list (json * string);   (* the list the fixture yields *)
  results_queue : list queue_item
}.
Arguments mkState {W} world trace created_projects results_queue.
Arguments world {W} s.
Arguments trace {W} s.
Arguments created_projects {W} s.
Arguments results_queue {W} s.

(** ** Observations on traces *)

Definition tenant_of (headers : gmap string header) : option header :=
  headers !! "X-Tenant-ID".

(** The deletions attempted: project id and tenant header of every DELETE
    request sent for a project. *)
Definition deletion_of (e : event) : option (json * option header) :=
  match e with
  | Called (SessionDelete (Url _ (ProjectById project_id)) headers _) =>
      Some (project_id, tenant_of headers)
  | _ => None
  end.
Definition deletions (tr : list event) : list (json * option header) :=
  omap deletion_of tr.

(** The entries appended to the cleanup list. *)
Definition registration_of (e : event) : option (json * string) :=
  match e with
  | Appended entry => Some entry
  | _ => None
  end.
Definition registrations (tr : list event) : list (json * string) :=
  omap registration_of tr.

(** The fixed pauses. *)
Definition sleep_of (e : event) : option Z :=
  match e with
  | Slept seconds => Some seconds
  | _ => None
  end.
Definition sleeps (tr : list event) : list Z := omap sleep_of tr.

Definition goto_of (e : event) : option unit :=
  match e with
  | Called (PageGoto _ _) => Some tt
  | _ => None
  end.
(** How many times [page.goto] was called. *)
Definition gotos (tr : list event) : nat := length (omap goto_of tr).

Definition playwright_start_of (e : event) : option unit :=
  match e with
  | Called PlaywrightStart => Some tt
  | _ => None
  end.
(** How many times [sync_playwright()] was entered. *)
Definition playwright_starts (tr : list event) : nat :=
  length (omap playwright_start_of tr).

(** Effects by kind. *)
Inductive kind : Type :=
| KPost | KGet | KDelete | KStart | KStop | KBrowser | KGoto | KPage
| KSleep | KAppend | KPut.

Definition kind_of (e : event) : kind :=
  match e with
  | Called (SessionPost _ _ _ _) => KPost
  | Called (SessionGet _ _ _) => KGet
  | Called (SessionDelete _ _ _) => KDelete
  | Called PlaywrightStart => KStart
  | Called PlaywrightStop => KStop
  | Called ChromiumLaunch | Called (NewContext _) | Called NewPage | Called BrowserClose =>
      KBrowser
  | Called (PageGoto _ _) => KGoto
  | Called _ => KPage
  | Slept _ => KSleep
  | Appended _ => KAppend
  | Enqueued _ => KPut
  end.

Definition kind_eqb (k1 k2 : kind) : bool :=
  match k1, k2 with
  | KPost, KPost | KGet, KGet | KDelete, KDelete | KStart, KStart | KStop, KStop
  | KBrowser, KBrowser | KGoto, KGoto | KPage, KPage | KSleep, KSleep
  | KAppend, KAppend | KPut, KPut => true
  | _, _ => false
  end.

Definition kind_mem (k : kind) (ks : list kind) : bool := existsb (kind_eqb k) ks.

(** The effect [e] is of one of the kinds [ks]. *)
Definition of_kinds (ks : list kind) (e : event) : Prop := kind_mem (kind_of e) ks = true.

(** The kinds of effect of a browser session. *)
Definition ui_kinds : list kind := [KStart; KStop; KBrowser; KGoto; KPage].

(** [p] performs only effects that satisfy [P]. *)
Inductive emits {A : Type} (P : event -> Prop) : prog A -> Prop :=
| emits_Return a : emits P (Return a)
| emits_Throw e : emits P (Throw e)
| emits_Perform c k : P (Called c) -> (forall r, emits P (k r)) -> emits P (Perform c k)
| emits_Sleep seconds k : P (Slept seconds) -> emits P k -> emits P (Sleep seconds k)
| emits_Append entry k : P (Appended entry) -> emits P k -> emits P (Append entry k)
| emits_QueuePut item k : P (Enqueued item) -> emits P k -> emits P (QueuePut item k).

Section Semantics.
Context {W : Type}.
(** How the outside world answers a call, and how it evolves while the
    test sleeps. *)
Variable respond : forall c : call, W -> reply (ans c) * W.
Variable elapse : Z -> W -> W.

Definition do_call (c : call) (st : state W) : reply (ans c) * state W :=
  let (r, w) := respond c (world st) in
  (r, mkState w (trace st ++ [Called c]) (created_projects st) (results_queue st)).

Definition do_sleep (seconds : Z) (st : state W) : state W :=
  mkState (elapse seconds (world st)) (trace st ++ [Slept seconds])
          (created_projects st) (results_queue st).

Definition do_append (entry : json * string) (st : state W) : state W :=
  mkState (world st) (trace st ++ [Appended entry])
          (created_projects st ++ [entry]) (results_queue st).

Definition do_put (item : queue_item) (st : state W) : state W :=
  mkState (world st) (trace st ++ [Enqueued item])
          (created_projects st) (results_queue st ++ [item]).

Fixpoint run {A} (p : prog A) (st : state W) : result A * state W :=
  match p with
  | Return a => (Ok a, st)
  | Throw e => (Raise e, st)
  | Perform c k => let (r, st') := do_call c st in run (k r) st'
  | Sleep seconds k => run k (do_sleep seconds st)
  | Append entry k => run k (do_append entry st)
  | QueuePut item k => run k (do_put item st)
  end.

(** *** pytest: the test with its fixtures *)

(** [cleanup_projects] yields an empty list; pytest runs the test and
    then the rest of the fixture, whatever the outcome of the test. *)
Definition run_test_project_creation_flow (test_project : TestProject)
    (st : state W) : result unit * state W :=
  let st0 := mkState (world st) (trace st) [] (results_queue st) in
  let (outcome, st1) := run (test_project_creation_flow test_project new_APIClient) st0 in
  let (_, st2) := run (cleanup_projects (created_projects st1)) st1 in
  (outcome, st2).

(** *** Threads *)

(** One effect of a thread. *)
Definition step_thread (t : prog unit) (st : state W) : prog unit * state W :=
  match t with
  | Return _ | Throw _ => (t, st)
  | Perform c k => let (r, st') := do_call c st in (k r, st')
  | Sleep seconds k => (k, do_sleep seconds st)
  | Append entry k => (k, do_append entry st)
  | QueuePut item k => (k, do_put item st)
  end.

(** The threads advance in the order the schedule names them. *)
Fixpoint run_schedule (schedule : list nat) (threads : list (prog unit))
    (st : state W) : list (prog unit) * state W :=
  match schedule with
  | [] => (threads, st)
  | i :: rest =>
      match threads !! i with
      | Some t =>
          let (t', st') := step_thread t st in
          run_schedule rest (<[i := t']> threads) st'
      | None => run_schedule rest threads st
      end
  end.

(** [thread.join()] for every thread: each runs to its end. *)
Fixpoint join (threads : list (prog unit)) (st : state W) : state W :=
  match threads with
  | [] => st
  | t :: rest => join rest (snd (run t st))
  end.

(** The state when all workers have been started and joined. *)
Definition run_workers (schedule : list nat) (st : state W) : state W :=
  let st0 := mkState (world st) (trace st) (created_projects st) [] in
  let (threads, st1) :=
    run_schedule schedule (create_project_worker <$> seq 0 num_threads) st0 in
  join threads st1.

Definition test_concurrent_project_creation (schedule : list nat) (st : state W)
    : result unit * state W :=
  let st1 := run_workers schedule st in
  let (successful_creations, created_project_ids) := collect (results_queue st1) 0 [] in
  run (concurrent_verdict successful_creations created_project_ids)
      (mkState (world st1) (trace st1) (created_projects st1) []).
(** *** Reads of a project, as the isolation verifier sees them *)

Definition read_succeeds (api_client : APIClient) (project_id : json) (tenant : string)
    (st : state W) : Prop :=
  exists v, (run (get_project api_client project_id tenant) st).1 = Ok v.

Definition read_raises (api_client : APIClient) (project_id : json) (tenant : string)
    (st : state W) : Prop :=
  exists e, (run (get_project api_client project_id tenant) st).1 = Raise e.

(** The server answers the read with 403 Forbidden or 404 Not Found. *)
Definition read_denied (api_client : APIClient) (project_id : json) (tenant : string)
    (st : state W) : Prop :=
  exists status body,
    (run (get_project api_client project_id tenant) st).1 = Raise (GetProjectFailed status body)
    /\ (status = 403 \/ status = 404).

Definition after_read (api_client : APIClient) (project_id : json) (tenant : string)
    (st : state W) : state W :=
  (run (get_project api_client project_id tenant) st).2.

(** The verdict is true exactly when the owner reads the project and the
    other tenant is denied. *)
Definition verdict_iff_denied (api_client : APIClient) (project_id : json)
    (authorized_tenant unauthorized_tenant : string) (st : state W) : Prop :=
  (run (verify_tenant_isolation api_client project_id authorized_tenant unauthorized_tenant) st).1
    = Ok true
  <-> read_succeeds api_client project_id authorized_tenant st
      /\ read_denied api_client project_id unauthorized_tenant
           (after_read api_client project_id authorized_tenant st).
(** *** Cleanup of the created project *)

(** A run that reaches the creation of the project attempts the deletion
    of that project, under its tenant, exactly once. *)
Definition deletes_created_project (test_project : TestProject) (st : state W) : Prop :=
  forall api_client project_response created_project_id st_c,
    run (flow_create test_project new_APIClient)
        (mkState (world st) (trace st) [] (results_queue st))
      = (Ok (api_client, project_response, created_project_id), st_c) ->
    deletions (trace (run_test_project_creation_flow test_project st).2)
      = deletions (trace st) ++ [(created_project_id, Some (HStr COMPANY1_ID))].

(** A deletion is attempted for every project whose worker reported
    success. *)
Definition deletes_every_success (schedule : list nat) (st : state W) : Prop :=
  deletions (trace (test_concurrent_project_creation schedule st).2)
  = deletions (trace st)
    ++ ((fun project_id => (project_id, Some (HStr "company1")))
        <$> successful_ids (results_queue (run_workers schedule st))).

(** *** The dashboard check *)

(** [expect(page)] has no method [to_have_url_pattern] in Playwright: the
    call raises wherever it is made. *)
Definition no_url_pattern_assertion : Prop :=
  forall pattern w, exists name, (respond (ExpectUrlPattern pattern) w).1 = Fault name.

(** The run of [p] from [st] adds only effects that satisfy [P]. *)
Definition stays {A} (P : event -> Prop) (p : prog A) (st : state W) : Prop :=
  exists evs, trace (run p st).2 = trace st ++ evs /\ Forall P evs.

(** The run of [p] from [st] ends with an exception. *)
Definition raises {A} (p : prog A) (st : state W) : Prop :=
  exists e, (run p st).1 = Raise e.

(** The project card does not become visible within the deadline, whenever
    it is waited for. *)
Definition card_never_visible (project_name : string) (timeout : Z) : Prop :=
  forall w, exists name,
    (respond (ExpectVisible (project_card project_name) (Some timeout)) w).1 = Fault name.

(** Non-visibility is reported as [False], never raised. *)
Definition invisible_is_false (project_name : string) (timeout : Z) (st : state W) : Prop :=
  card_never_visible project_name timeout ->
  (run (verify_project_in_dashboard project_name timeout) st).1 = Ok false.

(** The run performs no fixed-duration pause. *)
Definition no_fixed_pause (test_project : TestProject) (st : state W) : Prop :=
  sleeps (trace (run_test_project_creation_flow test_project st).2) = sleeps (trace st).

(** The first effect of [p] is the call [c]. *)
Definition begins_with {A} (c : call) (p : prog A) : Prop :=
  forall st, exists evs, trace (run p st).2 = trace st ++ Called c :: evs.

(** [p] pauses at most once, for two seconds. *)
Definition pauses_at_most_once {A} (p : prog A) : Prop :=
  forall st, sleeps (trace (run p st).2) = sleeps (trace st)
             \/ sleeps (trace (run p st).2) = sleeps (trace st) ++ [2].

Definition never_pauses {A} (p : prog A) : Prop :=
  forall st, sleeps (trace (run p st).2) = sleeps (trace st).

(** *** Outcomes of successive navigation attempts *)

(** The attempt fails [k] times in a row, each failure followed by the
    two-second pause, and then succeeds. *)
Fixpoint fails_then_succeeds (k : nat) (st : state W) : Prop :=
  match k with
  | O => (run LoginPage.navigate_once st).1 = Ok tt
  | S k' =>
      (exists e, (run LoginPage.navigate_once st).1 = Raise e)
      /\ fails_then_succeeds k' (do_sleep 2 (run LoginPage.navigate_once st).2)
  end.

(** [n] attempts in a row fail, the last of them with [last]. *)
Fixpoint fails_every_time (n : nat) (st : state W) (last : exn) : Prop :=
  match n with
  | O => False
  | S O => (run LoginPage.navigate_once st).1 = Raise last
  | S n' =>
      (exists e, (run LoginPage.navigate_once st).1 = Raise e)
      /\ fails_every_time n' (do_sleep 2 (run LoginPage.navigate_once st).2) last
  end.
End Semantics.

(** With [n] results put in the queue so far, [p] ends normally with a
    number of results that satisfies [Qok], or raises with a number that
    satisfies [Qraise]. *)
Inductive counts {A : Type} (Qok Qraise : nat -> Prop) : nat -> prog A -> Prop :=
| counts_Return n a : Qok n -> counts Qok Qraise n (Return a)
| counts_Throw n e : Qraise n -> counts Qok Qraise n (Throw e)
| counts_Perform n c k :
    (forall r, counts Qok Qraise n (k r)) -> counts Qok Qraise n (Perform c k)
| counts_Sleep n seconds k : counts Qok Qraise n k -> counts Qok Qraise n (Sleep seconds k)
| counts_Append n entry k : counts Qok Qraise n k -> counts Qok Qraise n (Append entry k)
| counts_QueuePut n item k :
    counts Qok Qraise (S n) k -> counts Qok Qraise n (QueuePut item k).

(** The calls of [WebUITester.login], in order. *)
Definition login_calls (email password : string) : list call :=
  [PageGoto (ui_base_url +:+ "/login") "networkidle";
   PageFill "#email" email;
   PageFill "#password" password;
   PageClick "#login-btn";
   ExpectNavigation "networkidle";
   ExpectUrlPattern ".*\/dashboard.*";
   WaitForSelector ".welcome-message" 30000].

(** The calls of [verify_project_details], in order. *)
Definition details_calls (project : TestProject) : list call :=
  [LocatorClick (project_card (name project));
   WaitForSelector ".project-details" 30000;
   ExpectContainText ".project-title" (name project);
   ExpectContainText ".project-description" (description project)]
  ++ (ExpectContainText ".team-members" <$> team_members project).

Definition close_of (e : event) : option unit :=
  match e with
  | Called BrowserClose => Some tt
  | _ => None
  end.
(** How many times [browser.close()] was called. *)
Definition browser_closes (tr : list event) : nat := length (omap close_of tr).

(** The effect is a call on the page or on one of its locators. *)
Definition uses_page (e : event) : Prop := kind_of e = KGoto \/ kind_of e = KPage.

(** The DELETE request [delete_project] sends for an entry of the cleanup
    list. *)
Definition delete_request (api_client : APIClient) (entry : json * string) : call :=
  SessionDelete (Url (base_url api_client) (ProjectById entry.1))
    (request_headers api_client (tenant_header entry.2)) 30.

(** The project a worker of the concurrent test creates. *)
Definition worker_project (worker_id : nat) : TestProject :=
  {| name := "Concurrent Test Project " +:+ pretty worker_id;
     description := "Created by worker " +:+ pretty worker_id;
     team_members := ["user" +:+ pretty worker_id +:+ "@company1.com"];
     id := JNull; tenant_id := "" |}.

(** The worker ids of the queued items, in queue order. *)
Definition worker_ids (queue : list queue_item) : list nat :=
  (fun item : queue_item => item.1.1) <$> queue.

(** Every item the effect puts on the queue carries the worker id [w]. *)
Definition own_items (w : nat) (e : event) : Prop :=
  match e with
  | Enqueued item => item.1.1 = w
  | _ => True
  end.

(** The thread [t] of worker [wn.1] has put [wn.2] items so far, puts
    items under its own id only, and will have put one when it ends. *)
Definition reporting (wn : nat * nat) (t : prog unit) : Prop :=
  counts (eq 1%nat) (eq 1%nat) wn.2 t /\ emits (own_items wn.1) t.

(** The ids put so far, and those still to come. *)
Definition tally (wns : list (nat * nat)) : list nat :=
  wns ≫= (fun wn => replicate wn.2 wn.1).
Definition missing (wns : list (nat * nat)) : list nat :=
  wns ≫= (fun wn => replicate (1 - wn.2) wn.1).

(** The call reads the state of the page. *)
Definition observes (c : call) : bool :=
  match c with
  | ExpectNavigation _ | ExpectUrlPattern _ | WaitForSelector _ _ | WaitForLoadState _
  | PageUrl | ExpectVisible _ _ | ExpectContainText _ _ | LocatorCount _ => true
  | _ => false
  end.

(** The call waits, up to its timeout, until what it looks for holds. *)
Definition polls (c : call) : bool :=
  match c with
  | ExpectNavigation _ | ExpectUrlPattern _ | WaitForSelector _ _ | WaitForLoadState _
  | ExpectVisible _ _ | ExpectContainText _ _ => true
  | _ => false
  end.

(** The effect is neither a fixed pause nor a read of the page taken
    without waiting. *)
Definition paced (e : event) : bool :=
  match e with
  | Slept _ => false
  | Called c => implb (observes c) (polls c)
  | _ => true
  end.

(** The effect asks for a browser context that emulates an iPhone. *)
Definition requests_iphone (e : event) : bool :=
  match e with
  | Called (NewContext iphone) => true
  | _ => false
  end.

(** [p] performs the calls [cs] one after the other and raises what a call
    raises. *)
Inductive script {A : Type} : list call -> prog A -> Prop :=
| script_Return a : script [] (Return a)
| script_Perform c cs k :
    (forall a, script cs (k (Answer a))) ->
    (forall name, k (Fault name) = Throw (LibraryError name)) ->
    script (c :: cs) (Perform c k).

(** ** Scripted worlds

    A world that counts the calls made so far; [fails] says which calls
    raise, [http] what the server answers, the page is on the projects
    page and shows no swipeable element. *)

Definition scripted (fails : nat -> call -> option string) (http : nat -> call -> response)
    (c : call) (n : nat) : reply (ans c) * nat :=
  match fails n c with
  | Some name => (Fault name, S n)
  | None =>
      (match c return reply (ans c) with
       | SessionPost _ _ _ _ | SessionGet _ _ _ | SessionDelete _ _ _ => Answer (http n c)
       | PageUrl => Answer "https://app.workflowpro.com/projects"
       | LocatorCount _ => Answer 0
       | _ => Answer tt
       end, S n)
  end.

Definition no_elapse (seconds : Z) (n : nat) : nat := n.

Definition init_state (n : nat) : state nat := mkState n [] [] [].

(** A server that accepts every request and returns project 7. *)
Definition project_7 : json :=
  JObj [("id", JNum 7); ("name", JStr "P1"); ("status", JStr "active");
        ("access_token", JStr "t0k3n")].
Definition accepting (n : nat) (c : call) : response := Response 200 "" (Some project_7).

Definition P1 : TestProject :=
  {| name := "P1"; description := "first"; team_members := ["john.doe@company1.com"];
     id := JNull; tenant_id := "" |}.

Definition has_tenant (c : call) (tenant : string) : bool :=
  match c with
  | SessionGet _ headers _ =>
      match tenant_of headers with
      | Some (HStr t) => String.eqb t tenant
      | _ => false
      end
  | _ => false
  end.

(** Reads for company2 time out in transit. *)
Definition unauthorized_read_times_out (n : nat) (c : call) : option string :=
  if has_tenant c "company2" then Some "ReadTimeout" else None.

(** The server of a run in which everything passes: reads for company2
    are forbidden. *)
Definition isolating (n : nat) (c : call) : response :=
  if has_tenant c "company2" then Response 403 "Forbidden" None else accepting n c.

Definition nothing_fails (n : nat) (c : call) : option string := None.

(** The browser library as it is: [to_have_url_pattern] does not exist. *)
Definition no_url_pattern (n : nat) (c : call) : option string :=
  match c with
  | ExpectUrlPattern _ => Some "AttributeError"
  | _ => None
  end.

(** A server that accepts every request and numbers the projects it
    creates by the request that created them. *)
Definition numbering (n : nat) (c : call) : response :=
  Response 200 "" (Some (JObj [("id", JNum (Z.of_nat n)); ("access_token", JStr "t0k3n")])).

(** The client after the login of the admin on the accepting server. *)
Definition admin_client : APIClient :=
  {| base_url := base_url new_APIClient;
     session_headers :=
       <["Authorization" := HBearer (JStr "t0k3n")]> (session_headers new_APIClient) |}.

(** A server that issues a new token from the second request on. *)
Definition rotating_tokens (n : nat) (c : call) : response :=
  Response 200 ""
    (Some (JObj [("access_token", JStr (if (n =? 0)%nat then "first" else "second"))])).

(** A server whose answers carry no project id. *)
Definition no_id (n : nat) (c : call) : response :=
  Response 200 "" (Some (JObj [("access_token", JStr "t0k3n"); ("name", JStr "P1")])).

(** Every wait for an element times out. *)
Definition waits_time_out (n : nat) (c : call) : option string :=
  match c with
  | WaitForSelector _ _ | ExpectVisible _ _ => Some "TimeoutError"
  | _ => None
  end.

(** Logins fail in transit once [from] calls have been made. *)
Definition late_login_fails (from : nat) (n : nat) (c : call) : option string :=
  match c with
  | SessionPost (Url _ AuthLogin) _ _ _ =>
      if (from <=? n)%nat then Some "ConnectionError" else None
  | _ => None
  end.

(** The browser of the first platform does not launch. *)
Definition first_launch_fails (n : nat) (c : call) : option string :=
  match c with
  | ChromiumLaunch => if (n =? 1)%nat then Some "Error" else None
  | _ => None
  end.

(** Only the wait for the project card times out. *)
Definition card_wait_times_out (n : nat) (c : call) : option string :=
  match c with
  | ExpectVisible _ (Some _) => Some "TimeoutError"
  | _ => None
  end.

(** The first [failures] calls of [page.goto] time out. *)
Definition goto_times_out (failures : nat) (n : nat) (c : call) : option string :=
  match c with
  | PageGoto _ _ => if (n <? failures)%nat then Some "TimeoutError" else None
  | _ => None
  end.

(** ** Properties *)

(** *** Effects of composed programs *)

Lemma emits_on_outcome {A B} (P : event -> Prop) (p : prog A) (f : result A -> prog B) :
  emits P p -> (forall r, emits P (f r)) -> emits P (on_outcome p f).
Proof. intros Hp Hf. induction Hp; cbn; try constructor; auto. Qed.

Lemma emits_bind {A B} (P : event -> Prop) (p : prog A) (f : A -> prog B) :
  emits P p -> (forall a, emits P (f a)) -> emits P (bind p f).
Proof. intros Hp Hf. apply emits_on_outcome; [exact Hp|]. intros [a|e]; [apply Hf|constructor]. Qed.

Lemma emits_try_except {A} (P : event -> Prop) (p : prog A) (h : exn -> prog A) :
  emits P p -> (forall e, emits P (h e)) -> emits P (try_except p h).
Proof. intros Hp Hh. apply emits_on_outcome; [exact Hp|]. intros [a|e]; [constructor|apply Hh]. Qed.

Lemma emits_try_finally {A} (P : event -> Prop) (p : prog A) (cleanup : prog unit) :
  emits P p -> emits P cleanup -> emits P (try_finally p cleanup).
Proof.
  intros Hp Hc. apply emits_on_outcome; [exact Hp|]. intros r.
  apply emits_on_outcome; [exact Hc|]. intros [_|e]; [destruct r|]; constructor.
Qed.

Lemma emits_perform (P : event -> Prop) (c : call) : P (Called c) -> emits P (perform c).
Proof. intros Hc. constructor; [exact Hc|]. intros [a|name]; constructor. Qed.

Lemma emits_weaken {A} (P Q : event -> Prop) (p : prog A) :
  (forall e, P e -> Q e) -> emits P p -> emits Q p.
Proof. intros HPQ Hp. induction Hp; constructor; auto. Qed.

Lemma kind_eqb_eq (k1 k2 : kind) : kind_eqb k1 k2 = true -> k1 = k2.
Proof. destruct k1, k2; simpl; congruence. Qed.

Lemma kind_mem_incl (k : kind) (ks' ks : list kind) :
  forallb (fun k' => kind_mem k' ks) ks' = true -> kind_mem k ks' = true -> kind_mem k ks = true.
Proof.
  induction ks' as [|k' ks' IH]; simpl; [discriminate|].
  intros [Hk' Hrest]%andb_prop [Heq|Hin]%orb_prop.
  - apply kind_eqb_eq in Heq. subst. exact Hk'.
  - apply IH; assumption.
Qed.

(** A program that stays within the kinds [ks'] stays within any larger
    list of kinds. *)
Lemma emits_kinds {A} (ks' ks : list kind) (p : prog A) :
  emits (of_kinds ks') p -> forallb (fun k' => kind_mem k' ks) ks' = true ->
  emits (of_kinds ks) p.
Proof.
  intros Hp Hincl. apply (emits_weaken (of_kinds ks')); [|exact Hp].
  intros e. apply kind_mem_incl. exact Hincl.
Qed.

Create HintDb effects.

(** Decomposes an [emits] goal along the structure of the program; the
    named programs are looked up in the [effects] hints. *)
Ltac emits_step :=
  match goal with
  | |- emits _ (bind _ _) => apply emits_bind; [|intros ?; cbv beta]
  | |- emits _ (try_except _ _) => apply emits_try_except; [|intros ?; cbv beta]
  | |- emits _ (try_finally _ _) => apply emits_try_finally
  | |- emits _ (on_outcome _ _) => apply emits_on_outcome; [|intros ?; cbv beta]
  | |- emits ?P (perform ?c) => apply (emits_perform P c); reflexivity
  | |- emits _ (Return _) => constructor
  | |- emits _ (Throw _) => constructor
  | |- emits _ (sleep _) => constructor; [reflexivity|]
  | |- emits _ (Sleep _ _) => constructor; [reflexivity|]
  | |- emits _ (Append _ _) => constructor; [reflexivity|]
  | |- emits _ (QueuePut _ _) => constructor; [reflexivity|]
  | |- emits _ (py_assert ?b _) => unfold py_assert; destruct b
  | |- emits _ (response_json ?r) => unfold response_json; destruct (decoded r)
  | |- emits _ (dict_get ?d _) => unfold dict_get; destruct d
  | |- emits _ (true_div _ ?b) => unfold true_div; destruct (b =? 0)
  | |- emits _ (of_result ?r) => first [progress cbn [of_result]|destruct r]
  | |- emits _ (if ?b then _ else _) => first [progress cbv beta iota|destruct b]
  | |- emits _ (match ?x with _ => _ end) => first [progress cbv beta iota|destruct x]
  | |- emits _ (with_playwright _) => unfold with_playwright
  | |- emits (of_kinds _) _ => solve [eapply emits_kinds; [solve [eauto with effects]|reflexivity]]
  end.
Ltac emits_tac := repeat emits_step.

(** *** The kinds of effect of each function *)

Lemma authenticate_effects self email password :
  emits (of_kinds [KPost]) (authenticate self email password).
Proof. unfold authenticate. emits_tac. Qed.

Lemma create_project_effects self project tenant :
  emits (of_kinds [KPost]) (create_project self project tenant).
Proof. unfold create_project. emits_tac. Qed.

Lemma get_project_effects self project_id tenant :
  emits (of_kinds [KGet]) (get_project self project_id tenant).
Proof. unfold get_project. emits_tac. Qed.

Lemma delete_project_effects self project_id tenant :
  emits (of_kinds [KDelete]) (delete_project self project_id tenant).
Proof. unfold delete_project. emits_tac. Qed.

#[export] Hint Resolve authenticate_effects create_project_effects get_project_effects
  delete_project_effects : effects.

Lemma verify_tenant_isolation_effects api_client project_id authorized unauthorized :
  emits (of_kinds [KGet]) (verify_tenant_isolation api_client project_id authorized unauthorized).
Proof. unfold verify_tenant_isolation. emits_tac. Qed.

Lemma login_effects email password : emits (of_kinds [KGoto; KPage]) (login email password).
Proof. unfold login. emits_tac. Qed.

Lemma open_project_list_effects timeout : emits (of_kinds [KPage]) (open_project_list timeout).
Proof. unfold open_project_list. emits_tac. Qed.

#[export] Hint Resolve verify_tenant_isolation_effects login_effects
  open_project_list_effects : effects.

Lemma verify_project_in_dashboard_effects project_name timeout :
  emits (of_kinds [KPage]) (verify_project_in_dashboard project_name timeout).
Proof. unfold verify_project_in_dashboard. emits_tac. Qed.

Lemma expect_team_members_effects members :
  emits (of_kinds [KPage]) (expect_team_members members).
Proof. induction members as [|member rest IH]; cbn [expect_team_members]; emits_tac. Qed.

#[export] Hint Resolve verify_project_in_dashboard_effects expect_team_members_effects : effects.

Lemma verify_project_details_effects project :
  emits (of_kinds [KPage]) (verify_project_details project).
Proof. unfold verify_project_details. emits_tac. Qed.

Lemma create_mobile_browser_effects device :
  emits (of_kinds [KStart; KStop; KBrowser]) (create_mobile_browser device).
Proof. unfold create_mobile_browser. emits_tac. Qed.

Lemma _test_mobile_interactions_effects project_name :
  emits (of_kinds [KPage]) (_test_mobile_interactions project_name).
Proof. unfold _test_mobile_interactions. emits_tac. Qed.

#[export] Hint Resolve verify_project_details_effects create_mobile_browser_effects
  _test_mobile_interactions_effects : effects.

Lemma test_mobile_accessibility_effects project_name email password device :
  emits (of_kinds ui_kinds) (test_mobile_accessibility project_name email password device).
Proof. unfold test_mobile_accessibility. emits_tac. Qed.

Lemma _test_desktop_platform_effects platform project_name email password :
  emits (of_kinds ui_kinds) (_test_desktop_platform platform project_name email password).
Proof. unfold _test_desktop_platform. emits_tac. Qed.

#[export] Hint Resolve test_mobile_accessibility_effects _test_desktop_platform_effects : effects.

Lemma test_platform_effects platform project_name email password :
  emits (of_kinds ui_kinds) (test_platform platform project_name email password).
Proof. unfold test_platform. emits_tac. Qed.

#[export] Hint Resolve test_platform_effects : effects.

Lemma test_cross_platform_over_effects platforms project_name email password results :
  emits (of_kinds ui_kinds)
    (test_cross_platform_over platforms project_name email password results).
Proof.
  revert results. induction platforms as [|platform rest IH]; intros results;
    cbn [test_cross_platform_over]; emits_tac.
Qed.

#[export] Hint Resolve test_cross_platform_over_effects : effects.

Lemma test_cross_platform_effects project_name email password :
  emits (of_kinds ui_kinds) (test_cross_platform project_name email password).
Proof. unfold test_cross_platform. emits_tac. Qed.

Lemma delete_projects_effects api_client entries :
  emits (of_kinds [KDelete]) (delete_projects api_client entries).
Proof.
  induction entries as [|[project_id tenant] rest IH]; cbn [delete_projects]; emits_tac.
Qed.

#[export] Hint Resolve test_cross_platform_effects delete_projects_effects : effects.

Lemma cleanup_projects_effects entries :
  emits (of_kinds [KPost; KDelete]) (cleanup_projects entries).
Proof. unfold cleanup_projects. emits_tac. Qed.

Lemma flow_create_effects test_project api_client :
  emits (of_kinds [KPost]) (flow_create test_project api_client).
Proof. unfold flow_create. emits_tac. Qed.

Lemma flow_mobile_effects test_project : emits (of_kinds ui_kinds) (flow_mobile test_project).
Proof. unfold flow_mobile. emits_tac. Qed.

Lemma flow_isolation_effects api_client created_project_id :
  emits (of_kinds [KGet]) (flow_isolation api_client created_project_id).
Proof. unfold flow_isolation. emits_tac. Qed.

Lemma flow_cross_platform_effects test_project :
  emits (of_kinds ui_kinds) (flow_cross_platform test_project).
Proof. unfold flow_cross_platform. emits_tac. Qed.

Lemma flow_finally_effects api_client created_project_id :
  emits (of_kinds [KGet]) (flow_finally api_client created_project_id).
Proof. unfold flow_finally. emits_tac. Qed.

Lemma flow_web_ui_effects test_project :
  emits (of_kinds (KSleep :: ui_kinds)) (flow_web_ui test_project).
Proof. unfold flow_web_ui, flow_web_ui_checks. emits_tac. Qed.

#[export] Hint Resolve cleanup_projects_effects flow_create_effects flow_mobile_effects
  flow_isolation_effects flow_cross_platform_effects flow_finally_effects
  flow_web_ui_effects : effects.

Lemma navigate_once_effects : emits (of_kinds [KGoto; KPage]) LoginPage.navigate_once.
Proof. unfold LoginPage.navigate_once. emits_tac. Qed.

Section Properties.
Context {W : Type}.
Variable respond : forall c : call, W -> reply (ans c) * W.
Variable elapse : Z -> W -> W.

#[local] Abbreviation run := (run respond elapse).

Lemma run_on_outcome {A B} (p : prog A) (f : result A -> prog B) (st : state W) :
  run (on_outcome p f) st = run (f (run p st).1) (run p st).2.
Proof.
  revert st. induction p as [a|e|c k IH|s k IH|entry k IH|item k IH]; intros st; simpl; trivial.
  destruct (do_call respond c st) as [r st']. apply IH.
Qed.

Lemma run_bind {A B} (p : prog A) (f : A -> prog B) (st : state W) :
  run (bind p f) st =
  match (run p st).1 with
  | Ok a => run (f a) (run p st).2
  | Raise e => (Raise e, (run p st).2)
  end.
Proof. unfold bind. rewrite run_on_outcome. destruct (run p st).1; reflexivity. Qed.

Lemma run_try_except {A} (p : prog A) (h : exn -> prog A) (st : state W) :
  run (try_except p h) st =
  match (run p st).1 with
  | Ok a => (Ok a, (run p st).2)
  | Raise e => run (h e) (run p st).2
  end.
Proof. unfold try_except. rewrite run_on_outcome. destruct (run p st).1; reflexivity. Qed.

Lemma run_perform (c : call) (st : state W) :
  run (perform c) st =
  (match (do_call respond c st).1 with
   | Answer a => Ok a
   | Fault name => Raise (LibraryError name)
   end, (do_call respond c st).2).
Proof. simpl. destruct (do_call respond c st) as [[a|name] st']; reflexivity. Qed.

Lemma run_Return {A} (a : A) (st : state W) : run (Return a) st = (Ok a, st).
Proof. reflexivity. Qed.

Lemma run_sleep (seconds : Z) (st : state W) :
  run (sleep seconds) st = (Ok tt, do_sleep elapse seconds st).
Proof. reflexivity. Qed.

Lemma run_try_finally {A} (p : prog A) (cleanup : prog unit) (st : state W) :
  run (try_finally p cleanup) st =
  (match (run cleanup (run p st).2).1 with
   | Ok _ => (run p st).1
   | Raise e => Raise e
   end, (run cleanup (run p st).2).2).
Proof.
  unfold try_finally. rewrite !run_on_outcome.
  destruct (run cleanup (run p st).2).1; [|reflexivity].
  destruct (run p st).1; reflexivity.
Qed.

(** *** Effects of a run *)

Lemma emits_run {A} (P : event -> Prop) (p : prog A) (st : state W) :
  emits P p -> exists evs, trace (run p st).2 = trace st ++ evs /\ Forall P evs.
Proof.
  intros Hp. revert st. induction Hp as [a|e|c k HP Hk IH|s k HP Hk IH|x k HP Hk IH|x k HP Hk IH];
    intros st.
  - exists []. rewrite app_nil_r. simpl. auto.
  - exists []. rewrite app_nil_r. simpl. auto.
  - simpl. unfold do_call. destruct (respond c (world st)) as [r w].
    destruct (IH r (mkState w (trace st ++ [Called c]) (created_projects st) (results_queue st)))
      as (evs & Heq & Hall).
    exists (Called c :: evs). rewrite Heq. cbn [trace]. rewrite <- app_assoc. auto.
  - simpl. destruct (IH (do_sleep elapse s st)) as (evs & Heq & Hall).
    exists (Slept s :: evs). rewrite Heq. cbn [trace do_sleep]. rewrite <- app_assoc. auto.
  - simpl. destruct (IH (do_append x st)) as (evs & Heq & Hall).
    exists (Appended x :: evs). rewrite Heq. cbn [trace do_append]. rewrite <- app_assoc. auto.
  - simpl. destruct (IH (do_put x st)) as (evs & Heq & Hall).
    exists (Enqueued x :: evs). rewrite Heq. cbn [trace do_put]. rewrite <- app_assoc. auto.
Qed.

Lemma omap_silent {X} (f : event -> option X) (evs : list event) :
  Forall (fun e => f e = None) evs -> omap f evs = [].
Proof. induction 1 as [|e evs He _ IH]; [reflexivity|]. cbn. rewrite He. exact IH. Qed.

(** A program whose effects [f] does not observe leaves the observations
    of the trace as they were. *)
Lemma emits_silent {A X} (f : event -> option X) (p : prog A) (st : state W) :
  emits (fun e => f e = None) p -> omap f (trace (run p st).2) = omap f (trace st).
Proof.
  intros Hp. destruct (emits_run _ p st Hp) as (evs & -> & Hall).
  rewrite omap_app, (omap_silent f evs Hall), app_nil_r. reflexivity.
Qed.

(** A program that performs no effect of kind [k] leaves the observations
    made on effects of kind [k] as they were. *)
Lemma unobserved {A X} (k : kind) (ks : list kind) (f : event -> option X)
    (p : prog A) (st : state W) :
  (forall e, kind_of e <> k -> f e = None) ->
  kind_mem k ks = false ->
  emits (of_kinds ks) p ->
  omap f (trace (run p st).2) = omap f (trace st).
Proof.
  intros Hf Hk Hp. apply emits_silent. apply (emits_weaken (of_kinds ks)); [|exact Hp].
  intros e He. apply Hf. intros Heq. unfold of_kinds in He. rewrite Heq in He. congruence.
Qed.

(** *** APIClient.delete_project *)

Lemma delete_project_returns (api_client : APIClient) (project_id : json)
    (tenant : string) (st : state W) :
  exists b, (run (delete_project api_client project_id tenant) st).1 = Ok b.
Proof.
  unfold delete_project. rewrite run_try_except, run_bind, run_perform. unfold do_call.
  destruct (respond _ (world st)) as [[resp|name] w]; cbn; eauto.
Qed.

(** C9. [delete_project] never raises: it returns [True] exactly when the
    DELETE request completes with status 200, 204 or 404, and [False] for
    every other status and for every exception of the request. *)
Theorem delete_project_never_raises (api_client : APIClient) (project_id : json)
    (tenant : string) (st : state W) :
  let request := SessionDelete (Url (base_url api_client) (ProjectById project_id))
                   (request_headers api_client (tenant_header tenant)) 30 in
  let outcome := (run (delete_project api_client project_id tenant) st).1 in
  (exists b, outcome = Ok b)
  /\ (outcome = Ok true <->
      exists resp, (respond request (world st)).1 = Answer resp
        /\ (status_code resp = 200 \/ status_code resp = 204 \/ status_code resp = 404))
  /\ (outcome = Ok false <->
      (exists resp, (respond request (world st)).1 = Answer resp
         /\ status_code resp <> 200 /\ status_code resp <> 204 /\ status_code resp <> 404)
      \/ (exists name, (respond request (world st)).1 = Fault name)).
Proof.
  intros request outcome. subst outcome. unfold delete_project. fold request.
  rewrite run_try_except, run_bind, run_perform. unfold do_call.
  destruct (respond request (world st)) as [[resp|name] w]; simpl.
  - split; [eauto|]. split; split.
    + intros [= H]. exists resp. split; [reflexivity|]. lia.
    + intros (r & [= <-] & H). f_equal. lia.
    + intros [= H]. left. exists resp. split; [reflexivity|]. lia.
    + intros [(r & [= <-] & H)|(n & [=])]. f_equal. lia.
  - split; [eauto|]. split; split.
    + intros [=].
    + intros (r & [=] & _).
    + intros _. right. eauto.
    + reflexivity.
Qed.

(** *** TenantIsolationTester.verify_tenant_isolation *)

Lemma run_verify_tenant_isolation (api_client : APIClient) (project_id : json)
    (authorized_tenant unauthorized_tenant : string) (st : state W) :
  let st_a := after_read respond elapse api_client project_id authorized_tenant st in
  (run (verify_tenant_isolation api_client project_id authorized_tenant unauthorized_tenant) st).1 =
  match (run (get_project api_client project_id authorized_tenant) st).1 with
  | Raise _ => Ok false
  | Ok _ =>
      match (run (get_project api_client project_id unauthorized_tenant) st_a).1 with
      | Ok _ => Ok false
      | Raise _ => Ok true
      end
  end.
Proof.
  intros st_a. subst st_a. unfold verify_tenant_isolation, after_read.
  rewrite run_on_outcome.
  destruct (run (get_project api_client project_id authorized_tenant) st) as [[v|e] st1];
    cbn [fst snd]; [|reflexivity].
  rewrite run_try_except, run_bind.
  destruct (run (get_project api_client project_id unauthorized_tenant) st1) as [[v'|e'] st2];
    reflexivity.
Qed.

(** C1, as the code has it.  The verdict is true exactly when the read as
    the authorized tenant succeeds and the read as the unauthorized tenant
    raises an exception, of whatever kind; it is false exactly when the
    authorized read fails or the unauthorized read succeeds; the verifier
    itself never raises. *)
Theorem verify_tenant_isolation_verdict (api_client : APIClient) (project_id : json)
    (authorized_tenant unauthorized_tenant : string) (st : state W) :
  let verdict :=
    (run (verify_tenant_isolation api_client project_id authorized_tenant
            unauthorized_tenant) st).1 in
  let st_a := after_read respond elapse api_client project_id authorized_tenant st in
  (verdict = Ok true <->
     read_succeeds respond elapse api_client project_id authorized_tenant st
     /\ read_raises respond elapse api_client project_id unauthorized_tenant st_a)
  /\ (verdict = Ok false <->
       read_raises respond elapse api_client project_id authorized_tenant st
       \/ (read_succeeds respond elapse api_client project_id authorized_tenant st
           /\ read_succeeds respond elapse api_client project_id unauthorized_tenant st_a))
  /\ (exists b, verdict = Ok b).
Proof.
  intros verdict st_a. subst verdict. rewrite run_verify_tenant_isolation. fold st_a.
  unfold read_succeeds, read_raises.
  destruct (run (get_project api_client project_id authorized_tenant) st).1 as [v|e].
  - destruct (run (get_project api_client project_id unauthorized_tenant) st_a).1 as [v'|e'].
    + repeat split; eauto; try discriminate.
      * intros [_ [e [=]]].
    + repeat split; eauto; try discriminate.
      intros [[e [=]]|[_ [v' [=]]]].
  - repeat split; eauto; try discriminate.
    intros [[v [=]] _].
Qed.

(** Whenever the authorized read succeeds and the unauthorized read raises,
    whatever the exception, the verdict is true. *)
Lemma verdict_true_on_any_exception (api_client : APIClient) (project_id : json)
    (authorized_tenant unauthorized_tenant : string) (st : state W) (e : exn) :
  read_succeeds respond elapse api_client project_id authorized_tenant st ->
  (run (get_project api_client project_id unauthorized_tenant)
     (after_read respond elapse api_client project_id authorized_tenant st)).1 = Raise e ->
  (run (verify_tenant_isolation api_client project_id authorized_tenant
          unauthorized_tenant) st).1 = Ok true.
Proof.
  intros [v Hv] He. rewrite run_verify_tenant_isolation. cbv zeta.
  rewrite Hv, He. reflexivity.
Qed.

(** *** WebUITester.verify_project_in_dashboard *)

Lemma run_bind_Ok {A B} (p : prog A) (f : A -> prog B) (st : state W) (a : A) :
  (run p st).1 = Ok a -> run (bind p f) st = run (f a) (run p st).2.
Proof. intros H. rewrite run_bind, H. reflexivity. Qed.

Lemma run_bind_Raise {A B} (p : prog A) (f : A -> prog B) (st : state W) (e : exn) :
  (run p st).1 = Raise e -> run (bind p f) st = (Raise e, (run p st).2).
Proof. intros H. rewrite run_bind, H. reflexivity. Qed.

(** C7, as the code has it.  When the projects page and its list load,
    [verify_project_in_dashboard] returns [False] if the card is not
    visible by the deadline and [True] if it is; an exception raised while
    the page or the list loads reaches the caller. *)
Theorem verify_project_in_dashboard_verdict (project_name : string) (timeout : Z)
    (st : state W) :
  let opened := run (open_project_list timeout) st in
  let check := ExpectVisible (project_card project_name) (Some timeout) in
  let outcome := (run (verify_project_in_dashboard project_name timeout) st).1 in
  (forall e, opened.1 = Raise e -> outcome = Raise e)
  /\ (opened.1 = Ok tt ->
      (forall name, (respond check (world opened.2)).1 = Fault name -> outcome = Ok false)
      /\ (forall a, (respond check (world opened.2)).1 = Answer a -> outcome = Ok true)).
Proof.
  cbv zeta. unfold verify_project_in_dashboard. split.
  - intros e He. rewrite (run_bind_Raise _ _ _ _ He). reflexivity.
  - intros Hopen. rewrite (run_bind_Ok _ _ _ _ Hopen).
    rewrite run_try_except, run_bind, run_perform. unfold do_call.
    destruct (respond _ (world (run (open_project_list timeout) st).2)) as [[a|name] w];
      cbn [fst snd]; split; intros ? [=]; reflexivity.
Qed.

(** *** The fixed pause of the integration test *)

Lemma trace_grows {A} (p : prog A) (st : state W) :
  exists evs, trace (run p st).2 = trace st ++ evs.
Proof.
  assert (Hp : emits (fun _ => True) p) by (induction p; constructor; auto).
  destruct (emits_run _ p st Hp) as (evs & Heq & _). eauto.
Qed.

Lemma on_outcome_trace {A B} (p : prog A) (f : result A -> prog B) (st : state W) :
  exists evs, trace (run (on_outcome p f) st).2 = trace (run p st).2 ++ evs.
Proof. rewrite run_on_outcome. apply trace_grows. Qed.

Lemma run_bind_Ok_inv {A B} (p : prog A) (f : A -> prog B) (st : state W) (b : B) :
  (run (bind p f) st).1 = Ok b ->
  exists a, (run p st).1 = Ok a /\ run (bind p f) st = run (f a) (run p st).2.
Proof.
  rewrite run_bind. destruct (run p st).1 as [a|e]; [|discriminate]. eauto.
Qed.

Lemma never_pauses_emits {A} (ks : list kind) (p : prog A) :
  emits (of_kinds ks) p -> kind_mem KSleep ks = false -> never_pauses respond elapse p.
Proof.
  intros Hp Hks st. apply (unobserved KSleep ks); [|exact Hks|exact Hp].
  intros [c| | |]; simpl; congruence.
Qed.

Lemma pauses_never {A} (p : prog A) :
  never_pauses respond elapse p -> pauses_at_most_once respond elapse p.
Proof. intros Hp st. left. apply Hp. Qed.

Lemma pauses_after {A B} (p : prog A) (f : result A -> prog B) :
  never_pauses respond elapse p -> (forall r, pauses_at_most_once respond elapse (f r)) ->
  pauses_at_most_once respond elapse (on_outcome p f).
Proof.
  intros Hp Hf st. rewrite run_on_outcome, <- (Hp st). apply Hf.
Qed.

Lemma pauses_before {A B} (p : prog A) (f : result A -> prog B) :
  pauses_at_most_once respond elapse p -> (forall r, never_pauses respond elapse (f r)) ->
  pauses_at_most_once respond elapse (on_outcome p f).
Proof.
  intros Hp Hf st. rewrite run_on_outcome, Hf. apply Hp.
Qed.

Lemma never_pauses_result {A} (r : result A) : never_pauses respond elapse (of_result r).
Proof. intros st. destruct r; reflexivity. Qed.

(** Solves [never_pauses] goals of programs whose kinds of effect are known. *)
Ltac quiet :=
  apply (never_pauses_emits
           [KPost; KGet; KDelete; KStart; KStop; KBrowser; KGoto; KPage; KAppend; KPut]);
  [emits_tac|reflexivity].

Lemma flow_web_ui_checks_pauses (test_project : TestProject) :
  pauses_at_most_once respond elapse (flow_web_ui_checks test_project).
Proof.
  intros st. right. unfold flow_web_ui_checks. rewrite run_bind, run_sleep. cbn [fst snd].
  match goal with |- context [run ?q (do_sleep _ 2 st)] =>
    assert (Hq : never_pauses respond elapse q) by quiet; rewrite (Hq (do_sleep elapse 2 st)) end.
  unfold do_sleep, sleeps. cbn [trace]. rewrite omap_app. reflexivity.
Qed.

Lemma flow_web_ui_pauses (test_project : TestProject) :
  pauses_at_most_once respond elapse (flow_web_ui test_project).
Proof.
  unfold flow_web_ui, with_playwright, bind at 1.
  apply pauses_after; [quiet|]. intros [_|e]; [|apply pauses_never; quiet].
  unfold try_finally. apply pauses_before; [|intros r; quiet].
  unfold bind at 1. apply pauses_after; [quiet|]. intros [_|e]; [|apply pauses_never; quiet].
  unfold bind at 1. apply pauses_after; [quiet|]. intros [_|e]; [|apply pauses_never; quiet].
  unfold try_finally. apply pauses_before; [|intros r; quiet].
  unfold bind at 1. apply pauses_after; [quiet|]. intros [_|e]; [|apply pauses_never; quiet].
  apply flow_web_ui_checks_pauses.
Qed.

Lemma pauses_Append {A} (entry : json * string) (k : prog A) :
  pauses_at_most_once respond elapse k -> pauses_at_most_once respond elapse (Append entry k).
Proof.
  intros Hk st. cbn. specialize (Hk (do_append entry st)).
  unfold do_append, sleeps in Hk |- *. cbn [trace] in Hk. rewrite omap_app in Hk.
  cbn in Hk. rewrite app_nil_r in Hk. exact Hk.
Qed.

Ltac pauses_skip :=
  unfold bind at 1; apply pauses_after; [quiet|];
  intros [?|?]; [|apply pauses_never; quiet].

Lemma test_project_creation_flow_pauses (test_project : TestProject) (api_client : APIClient) :
  pauses_at_most_once respond elapse (test_project_creation_flow test_project api_client).
Proof.
  unfold test_project_creation_flow.
  apply pauses_after; [quiet|]. intros [[[api' resp] cid]|e]; [|apply pauses_never; quiet].
  unfold try_finally. apply pauses_before; [|intros r; quiet].
  unfold flow_after_create. apply pauses_Append.
  do 5 pauses_skip.
  unfold bind at 1. apply pauses_before; [apply flow_web_ui_pauses|].
  intros [?|?]; quiet.
Qed.

Lemma run_test_project_creation_flow_pauses (test_project : TestProject) (st : state W) :
  sleeps (trace (run_test_project_creation_flow respond elapse test_project st).2)
    = sleeps (trace st)
  \/ sleeps (trace (run_test_project_creation_flow respond elapse test_project st).2)
    = sleeps (trace st) ++ [2].
Proof.
  unfold run_test_project_creation_flow.
  set (st0 := mkState (world st) (trace st) [] (results_queue st)).
  pose proof (test_project_creation_flow_pauses test_project new_APIClient st0) as Hflow.
  destruct (run (test_project_creation_flow test_project new_APIClient) st0) as [outcome st1].
  assert (Hclean : never_pauses respond elapse (cleanup_projects (created_projects st1))) by quiet.
  specialize (Hclean st1).
  destruct (run (cleanup_projects (created_projects st1)) st1) as [u st2].
  cbn [fst snd] in *. rewrite Hclean. exact Hflow.
Qed.

Lemma begins_with_perform (c : call) : begins_with respond elapse c (perform c).
Proof.
  intros st. rewrite run_perform. unfold do_call. destruct (respond c (world st)) as [r w].
  exists []. reflexivity.
Qed.

Lemma begins_with_on_outcome {A B} (c : call) (p : prog A) (f : result A -> prog B) :
  begins_with respond elapse c p -> begins_with respond elapse c (on_outcome p f).
Proof.
  intros Hp st. destruct (on_outcome_trace p f st) as [evs' Heq]. destruct (Hp st) as [evs Hevs].
  exists (evs ++ evs'). rewrite Heq, Hevs, <- app_assoc. reflexivity.
Qed.

Lemma flow_web_ui_checks_trace (test_project : TestProject) (st : state W) :
  exists evs, trace (run (flow_web_ui_checks test_project) st).2
              = trace st ++ Slept 2 :: Called PageUrl :: evs.
Proof.
  unfold flow_web_ui_checks. rewrite run_bind, run_sleep. cbn [fst snd].
  assert (Hcheck : begins_with respond elapse PageUrl
            (let! project_found := verify_project_in_dashboard (name test_project) 30000 in
             let! _ := py_assert project_found (NotInWebDashboard (name test_project)) in
             let! _ := verify_project_details test_project in
             Return tt)).
  { unfold verify_project_in_dashboard, open_project_list, bind.
    do 3 apply begins_with_on_outcome. apply begins_with_perform. }
  destruct (Hcheck (do_sleep elapse 2 st)) as [evs Hevs].
  exists evs. rewrite Hevs. unfold do_sleep. cbn [trace]. rewrite <- app_assoc. reflexivity.
Qed.

Lemma flow_web_ui_trace (test_project : TestProject) (st : state W) :
  (run flow_web_ui_login st).1 = Ok tt ->
  exists evs, trace (run (flow_web_ui test_project) st).2
              = trace (run flow_web_ui_login st).2 ++ Slept 2 :: Called PageUrl :: evs.
Proof.
  unfold flow_web_ui_login, flow_web_ui, with_playwright. intros Hlogin.
  destruct (run_bind_Ok_inv _ _ _ _ Hlogin) as (a1 & Hstart & Heq1).
  rewrite Heq1, (run_bind_Ok _ _ _ _ Hstart). rewrite Heq1 in Hlogin. clear Heq1.
  set (st1 := (run (perform PlaywrightStart) st).2) in *.
  unfold try_finally at 1.
  match goal with |- context [run (on_outcome ?B ?F) st1] =>
    destruct (on_outcome_trace B F st1) as [evs_stop ->] end.
  destruct (run_bind_Ok_inv _ _ _ _ Hlogin) as (a2 & Hlaunch & Heq2).
  rewrite Heq2, (run_bind_Ok _ _ _ _ Hlaunch). rewrite Heq2 in Hlogin. clear Heq2.
  set (st2 := (run (perform ChromiumLaunch) st1).2) in *.
  destruct (run_bind_Ok_inv _ _ _ _ Hlogin) as (a3 & Hpage & Heq3).
  rewrite Heq3, (run_bind_Ok _ _ _ _ Hpage). rewrite Heq3 in Hlogin. clear Heq3.
  set (st3 := (run (perform NewPage) st2).2) in *.
  unfold try_finally at 1.
  match goal with |- context [run (on_outcome ?B ?F) st3] =>
    destruct (on_outcome_trace B F st3) as [evs_close ->] end.
  rewrite (run_bind_Ok _ _ _ _ Hlogin).
  destruct (flow_web_ui_checks_trace test_project (run (login ADMIN_EMAIL PASSWORD) st3).2)
    as [evs ->].
  exists (evs ++ evs_close ++ evs_stop). rewrite <- !app_assoc. reflexivity.
Qed.

(** The pause of STEP 2.  A run of the integration test pauses for a
    fixed time at most once, for two seconds; whenever the web UI login of
    STEP 2 succeeds, that pause is executed, and the dashboard check follows
    it directly. *)
Theorem fixed_pause_before_dashboard_check (test_project : TestProject) (st : state W) :
  (sleeps (trace (run_test_project_creation_flow respond elapse test_project st).2)
     = sleeps (trace st)
   \/ sleeps (trace (run_test_project_creation_flow respond elapse test_project st).2)
     = sleeps (trace st) ++ [2])
  /\ ((run flow_web_ui_login st).1 = Ok tt ->
      exists evs, trace (run (flow_web_ui test_project) st).2
                  = trace (run flow_web_ui_login st).2 ++ Slept 2 :: Called PageUrl :: evs).
Proof.
  split; [apply run_test_project_creation_flow_pauses|apply flow_web_ui_trace].
Qed.

(** *** BrowserStackIntegration.test_cross_platform *)

Lemma playwright_start_unobserved (e : event) :
  kind_of e <> KStart -> playwright_start_of e = None.
Proof. destruct e as [[]| | |]; simpl; congruence. Qed.

Lemma with_playwright_starts {A} (body : prog A) (st : state W) :
  emits (of_kinds [KBrowser; KGoto; KPage]) body ->
  playwright_starts (trace (run (with_playwright body) st).2)
  = S (playwright_starts (trace st)).
Proof.
  intros Hbody. unfold with_playwright, playwright_starts.
  rewrite run_bind, run_perform.
  set (st1 := (do_call respond _ st).2).
  assert (Hst1 : omap playwright_start_of (trace st1)
                 = omap playwright_start_of (trace st) ++ [tt]).
  { subst st1. unfold do_call. destruct (respond _ (world st)) as [r w]. cbn [snd trace].
    rewrite omap_app. reflexivity. }
  destruct (do_call respond _ st).1 as [a|name]; cbn [fst snd].
  - rewrite (unobserved KStart [KStop; KBrowser; KGoto; KPage]);
      [rewrite Hst1, length_app; cbn; lia|apply playwright_start_unobserved|reflexivity|].
    apply emits_try_finally; [|emits_tac].
    apply (emits_kinds [KBrowser; KGoto; KPage]); [exact Hbody|reflexivity].
  - rewrite Hst1, length_app. cbn. lia.
Qed.

Lemma test_platform_starts (platform project_name email password : string) (st : state W) :
  playwright_starts (trace (run (test_platform platform project_name email password) st).2)
  = S (playwright_starts (trace st)).
Proof.
  unfold test_platform.
  destruct (contains "mobile" (lower platform) || contains "android" platform
            || contains "iphone" platform).
  - unfold test_mobile_accessibility, create_mobile_browser.
    set (device := if contains "ios" platform then iphone else android).
    rewrite run_bind.
    match goal with |- context [(?r).1] =>
      match r with run (with_playwright ?b) st =>
        assert (Hstart : playwright_starts (trace r.2) = S (playwright_starts (trace st)))
          by (apply with_playwright_starts; emits_tac);
        destruct r as [[a|e] st1] end end; cbn [fst snd] in *;
      [|exact Hstart].
    rewrite <- Hstart. unfold playwright_starts. f_equal.
    apply (unobserved KStart [KBrowser; KGoto; KPage]);
      [apply playwright_start_unobserved|reflexivity|emits_tac].
  - unfold _test_desktop_platform. apply with_playwright_starts. emits_tac.
Qed.

Lemma run_test_cross_platform_over_cons (platform : string) (rest : list string)
    (project_name email password : string) (results : gmap string bool) (st : state W) :
  run (test_cross_platform_over (platform :: rest) project_name email password results) st
  = run (test_cross_platform_over rest project_name email password
           (<[platform := recorded (run (test_platform platform project_name email password) st).1]>
              results))
        (run (test_platform platform project_name email password) st).2.
Proof.
  cbn [test_cross_platform_over]. rewrite run_bind, run_try_except, run_bind.
  destruct (run (test_platform platform project_name email password) st) as [[b|e] st1];
    reflexivity.
Qed.

(** The loop never raises; it adds an entry for every platform, leaves the
    other entries alone and enters Playwright once per platform. *)
Lemma test_cross_platform_over_total (platform_list : list string)
    (project_name email password : string) (results : gmap string bool) (st : state W) :
  let final := run (test_cross_platform_over platform_list project_name email password results) st in
  exists results' : gmap string bool,
    final.1 = Ok results'
    /\ dom results' = list_to_set platform_list ∪ dom results
    /\ (forall k, k ∉ platform_list -> results' !! k = results !! k)
    /\ playwright_starts (trace final.2)
       = (playwright_starts (trace st) + length platform_list)%nat.
Proof.
  cbv zeta. revert results st.
  induction platform_list as [|platform rest IH]; intros results st.
  - exists results. cbn. repeat split; [set_solver|lia].
  - rewrite run_test_cross_platform_over_cons.
    set (b := recorded _). set (st1 := (run (test_platform _ _ _ _) st).2).
    destruct (IH (<[platform := b]> results) st1) as (m & Hm & Hdom & Hkeep & Hstarts).
    exists m. split; [exact Hm|]. split; [|split].
    + rewrite Hdom, dom_insert_L. set_solver.
    + intros k Hk. rewrite Hkeep by set_solver. apply lookup_insert_ne. set_solver.
    + rewrite Hstarts. subst st1. rewrite test_platform_starts. cbn [length]. lia.
Qed.

Lemma run_test_cross_platform_over_app (pre post : list string)
    (project_name email password : string) (results : gmap string bool) (st : state W) :
  exists results_pre : gmap string bool,
    (run (test_cross_platform_over pre project_name email password results) st).1
      = Ok results_pre
    /\ run (test_cross_platform_over (pre ++ post) project_name email password results) st
       = run (test_cross_platform_over post project_name email password results_pre)
           (run (test_cross_platform_over pre project_name email password results) st).2.
Proof.
  revert results st. induction pre as [|platform rest IH]; intros results st.
  - exists results. split; reflexivity.
  - cbn [app]. rewrite !run_test_cross_platform_over_cons. apply IH.
Qed.

Lemma run_test_cross_platform_over_state (platform_list : list string)
    (project_name email password : string) (results : gmap string bool) (st : state W) :
  (run (test_cross_platform_over platform_list project_name email password results) st).2
  = foldl (fun s platform => (run (test_platform platform project_name email password) s).2)
      st platform_list.
Proof.
  revert results st. induction platform_list as [|platform rest IH]; intros results st.
  - reflexivity.
  - rewrite run_test_cross_platform_over_cons, IH. reflexivity.
Qed.

Lemma test_cross_platform_over_recorded (pre : list string) (platform : string)
    (post : list string) (project_name email password : string) (st : state W) :
  platform ∉ post ->
  exists results : gmap string bool,
    (run (test_cross_platform_over (pre ++ platform :: post) project_name email password ∅)
       st).1 = Ok results
    /\ results !! platform
       = Some (recorded
                 (run (test_platform platform project_name email password)
                    (foldl (fun s platform =>
                              (run (test_platform platform project_name email password) s).2)
                       st pre)).1).
Proof.
  intros Hpost.
  destruct (run_test_cross_platform_over_app pre (platform :: post)
              project_name email password ∅ st) as (m_pre & _ & Happ).
  rewrite Happ, run_test_cross_platform_over_cons, run_test_cross_platform_over_state.
  set (st_p := foldl _ st pre). set (b := recorded _).
  destruct (test_cross_platform_over_total post project_name email password
              (<[platform := b]> m_pre)
              (run (test_platform platform project_name email password) st_p).2)
    as (m' & Hm' & _ & Hkeep & _).
  exists m'. split; [exact Hm'|]. rewrite Hkeep by exact Hpost. apply lookup_insert_eq.
Qed.

Lemma platforms_distinct : NoDup platforms.
Proof. unfold platforms. repeat (constructor; [set_solver|]). constructor. Qed.

(** C5. The loop of the runner, over any list of platforms, checks the
    platforms one after the other, each from the state its predecessor
    left, whether that one passed, failed or raised; it never raises,
    returns a map with a boolean for exactly the platforms of the list, and
    records for each platform the outcome of its own check, [False] when
    the check raised.  [test_cross_platform] is that loop over its four
    platforms: every run of it checks each of the four once, in order, and
    returns a map with an entry for every platform of the declared matrix
    [capabilities]. *)
Theorem test_cross_platform_isolates_failures (project_name email password : string)
    (st : state W) :
  let check := fun platform s => run (test_platform platform project_name email password) s in
  let after := foldl (fun s platform => (check platform s).2) st in
  (forall platform_list : list string,
     let final :=
       run (test_cross_platform_over platform_list project_name email password ∅) st in
     final.2 = after platform_list
     /\ exists results : gmap string bool,
          final.1 = Ok results
          /\ dom results = list_to_set platform_list
          /\ forall pre platform post,
               platform_list = pre ++ platform :: post -> platform ∉ post ->
               results !! platform = Some (recorded (check platform (after pre)).1))
  /\ (let final := run (test_cross_platform project_name email password) st in
      final.2 = after platforms
      /\ playwright_starts (trace final.2) = (playwright_starts (trace st) + 4)%nat
      /\ exists results : gmap string bool,
           final.1 = Ok results
           /\ dom results = list_to_set capabilities.*1
           /\ forall pre platform post,
                platforms = pre ++ platform :: post ->
                results !! platform = Some (recorded (check platform (after pre)).1)).
Proof.
  cbv zeta.
  assert (Hloop : forall platform_list : list string,
            (run (test_cross_platform_over platform_list project_name email password ∅) st).2
            = foldl (fun s platform =>
                       (run (test_platform platform project_name email password) s).2)
                st platform_list
            /\ exists results : gmap string bool,
                 (run (test_cross_platform_over platform_list project_name email password ∅)
                    st).1 = Ok results
                 /\ dom results = list_to_set platform_list
                 /\ forall pre platform post,
                      platform_list = pre ++ platform :: post -> platform ∉ post ->
                      results !! platform
                      = Some (recorded
                                (run (test_platform platform project_name email password)
                                   (foldl (fun s platform =>
                                             (run (test_platform platform project_name email
                                                     password) s).2) st pre)).1)).
  { intros platform_list. split; [apply run_test_cross_platform_over_state|].
    destruct (test_cross_platform_over_total platform_list project_name email password ∅ st)
      as (m & Hm & Hdom & _).
    exists m. split; [exact Hm|]. split; [rewrite Hdom; set_solver|].
    intros pre platform post -> Hpost.
    destruct (test_cross_platform_over_recorded pre platform post project_name email password
                st Hpost) as (m' & Hm' & Hrecorded).
    assert (m' = m) as -> by congruence. exact Hrecorded. }
  split; [exact Hloop|]. unfold test_cross_platform.
  destruct (Hloop platforms) as (Hstate & results & Hresults & Hdom & Hrecorded).
  split; [exact Hstate|]. split.
  - destruct (test_cross_platform_over_total platforms project_name email password ∅ st)
      as (_ & _ & _ & _ & Hstarts). exact Hstarts.
  - exists results. split; [exact Hresults|]. split; [rewrite Hdom; reflexivity|].
    intros pre platform post Heq. apply (Hrecorded pre platform post Heq).
    pose proof platforms_distinct as Hnodup. rewrite Heq in Hnodup.
    apply NoDup_app in Hnodup as (_ & _ & Hnodup). apply NoDup_cons in Hnodup as [Hnotin _].
    exact Hnotin.
Qed.

(** *** The cleanup fixture *)

Lemma run_effects {A} (ks : list kind) (p : prog A) (st : state W) :
  emits (of_kinds ks) p ->
  exists evs, trace (run p st).2 = trace st ++ evs
    /\ Forall (of_kinds ks) evs
    /\ created_projects (run p st).2 = created_projects st ++ registrations evs.
Proof.
  intros Hp. revert st.
  induction Hp as [a|e|c k HP Hk IH|s k HP Hk IH|x k HP Hk IH|x k HP Hk IH]; intros st.
  - exists []. cbn. rewrite !app_nil_r. auto.
  - exists []. cbn. rewrite !app_nil_r. auto.
  - cbn. unfold do_call. destruct (respond c (world st)) as [r w].
    destruct (IH r (mkState w (trace st ++ [Called c]) (created_projects st) (results_queue st)))
      as (evs & Heq & Hall & Hreg).
    exists (Called c :: evs). rewrite Heq, Hreg. cbn [trace created_projects].
    rewrite <- app_assoc. auto.
  - cbn. destruct (IH (do_sleep elapse s st)) as (evs & Heq & Hall & Hreg).
    exists (Slept s :: evs). rewrite Heq, Hreg. cbn [trace created_projects do_sleep].
    rewrite <- app_assoc. auto.
  - cbn. destruct (IH (do_append x st)) as (evs & Heq & Hall & Hreg).
    exists (Appended x :: evs). rewrite Heq, Hreg. cbn [trace created_projects do_append].
    rewrite <- !app_assoc. auto.
  - cbn. destruct (IH (do_put x st)) as (evs & Heq & Hall & Hreg).
    exists (Enqueued x :: evs). rewrite Heq, Hreg. cbn [trace created_projects do_put].
    rewrite <- app_assoc. auto.
Qed.

Lemma unobserved_events {X} (k : kind) (ks : list kind) (f : event -> option X)
    (evs : list event) :
  (forall e, kind_of e <> k -> f e = None) -> kind_mem k ks = false ->
  Forall (of_kinds ks) evs -> omap f evs = [].
Proof.
  intros Hf Hk Hall. apply omap_silent. eapply Forall_impl; [exact Hall|].
  intros e He. apply Hf. intros Heq. unfold of_kinds in He. rewrite Heq in He. congruence.
Qed.

Lemma registration_unobserved (e : event) : kind_of e <> KAppend -> registration_of e = None.
Proof. destruct e as [[]| | |]; simpl; congruence. Qed.

Lemma deletion_unobserved (e : event) : kind_of e <> KDelete -> deletion_of e = None.
Proof. destruct e as [[]| | |]; simpl; congruence. Qed.

Lemma no_registrations (ks : list kind) (evs : list event) :
  Forall (of_kinds ks) evs -> kind_mem KAppend ks = false -> registrations evs = [].
Proof.
  intros Hall Hk. exact (unobserved_events KAppend ks _ evs registration_unobserved Hk Hall).
Qed.

Lemma no_deletions (ks : list kind) (evs : list event) :
  Forall (of_kinds ks) evs -> kind_mem KDelete ks = false -> deletions evs = [].
Proof.
  intros Hall Hk. exact (unobserved_events KDelete ks _ evs deletion_unobserved Hk Hall).
Qed.

Lemma tenant_of_request (api_client : APIClient) (tenant : string) :
  tenant_of (request_headers api_client (tenant_header tenant)) = Some (HStr tenant).
Proof.
  unfold tenant_of, request_headers, tenant_header.
  apply lookup_union_Some_l, lookup_singleton_eq.
Qed.

Lemma delete_project_trace (api_client : APIClient) (project_id : json) (tenant : string)
    (st : state W) :
  trace (run (delete_project api_client project_id tenant) st).2
  = trace st ++ [Called (SessionDelete (Url (base_url api_client) (ProjectById project_id))
                           (request_headers api_client (tenant_header tenant)) 30)].
Proof.
  unfold delete_project. rewrite run_try_except, run_bind, run_perform. unfold do_call.
  destruct (respond _ (world st)) as [[resp|name] w]; reflexivity.
Qed.

Lemma deletions_app (tr1 tr2 : list event) :
  deletions (tr1 ++ tr2) = deletions tr1 ++ deletions tr2.
Proof. apply omap_app. Qed.

Lemma registrations_app (tr1 tr2 : list event) :
  registrations (tr1 ++ tr2) = registrations tr1 ++ registrations tr2.
Proof. apply omap_app. Qed.

Lemma deletions_snoc (tr : list event) (e : event) :
  deletions (tr ++ [e])
  = deletions tr ++ match deletion_of e with Some d => [d] | None => [] end.
Proof. unfold deletions. rewrite omap_app. cbn. destruct (deletion_of e); reflexivity. Qed.

(** [delete_projects] sends one DELETE per entry, in order, each under the
    tenant of its entry. *)
Lemma delete_projects_deletions (api_client : APIClient) (entries : list (json * string))
    (st : state W) :
  deletions (trace (run (delete_projects api_client entries) st).2)
  = deletions (trace st) ++ ((fun entry => (entry.1, Some (HStr entry.2))) <$> entries).
Proof.
  revert st. induction entries as [|[project_id tenant] rest IH]; intros st.
  - cbn. rewrite app_nil_r. reflexivity.
  - cbn [delete_projects]. rewrite run_bind.
    destruct (delete_project_returns api_client project_id tenant st) as [b Hb].
    rewrite Hb, IH, delete_project_trace, deletions_snoc.
    cbn [deletion_of]. rewrite tenant_of_request, <- app_assoc. reflexivity.
Qed.

Lemma cleanup_projects_deletions (entries : list (json * string)) (st : state W) :
  let login := (run (authenticate new_APIClient "admin@company1.com" "password123") st).1 in
  let final := (run (cleanup_projects entries) st).2 in
  ((exists auth, login = Ok auth) ->
     deletions (trace final)
     = deletions (trace st) ++ ((fun entry => (entry.1, Some (HStr entry.2))) <$> entries))
  /\ ((exists e, login = Raise e) -> deletions (trace final) = deletions (trace st)).
Proof.
  cbv zeta. unfold cleanup_projects. rewrite run_try_except, run_bind.
  assert (Hauth : deletions (trace (run (authenticate new_APIClient "admin@company1.com"
                                          "password123") st).2) = deletions (trace st)).
  { apply (unobserved KDelete [KPost]);
      [apply deletion_unobserved|reflexivity|apply authenticate_effects]. }
  destruct (run (authenticate new_APIClient "admin@company1.com" "password123") st)
    as [[auth|e] st_a]; cbn [fst snd] in *.
  - split; [|intros [e [=]]]. intros _.
    pose proof (delete_projects_deletions auth.2 entries st_a) as Hdel.
    destruct (run (delete_projects auth.2 entries) st_a).1 as [u|e];
      rewrite ?run_Return; cbn [fst snd]; rewrite Hdel, Hauth; reflexivity.
  - split; [intros [auth [=]]|]. intros _. exact Hauth.
Qed.

Lemma run_test_project_creation_flow_final (test_project : TestProject) (st : state W) :
  let tested := (run (test_project_creation_flow test_project new_APIClient)
                   (mkState (world st) (trace st) [] (results_queue st))).2 in
  (run_test_project_creation_flow respond elapse test_project st).2
  = (run (cleanup_projects (created_projects tested)) tested).2.
Proof.
  cbv zeta. unfold run_test_project_creation_flow.
  destruct (run (test_project_creation_flow test_project new_APIClient) _) as [outcome st1].
  cbn [snd]. destruct (run (cleanup_projects (created_projects st1)) st1). reflexivity.
Qed.

Lemma flow_after_create_shape (test_project : TestProject) (api_client : APIClient)
    (project_response created_project_id : json) :
  exists k, flow_after_create test_project api_client project_response created_project_id
            = Append (created_project_id, COMPANY1_ID) k
            /\ emits (of_kinds (KSleep :: KGet :: ui_kinds)) k.
Proof. unfold flow_after_create. eexists. split; [reflexivity|]. emits_tac. Qed.

(** The test after the creation of the project: the entry is appended
    first, and nothing after it appends or deletes. *)
Lemma run_after_creation (test_project : TestProject) (api_client : APIClient)
    (project_response created_project_id : json) (st_c : state W) :
  let tested :=
    (run (try_finally
            (flow_after_create test_project api_client project_response created_project_id)
            (flow_finally api_client created_project_id)) st_c).2 in
  exists evs,
    trace tested = trace st_c ++ Appended (created_project_id, COMPANY1_ID) :: evs
    /\ registrations evs = [] /\ deletions evs = []
    /\ created_projects tested
       = created_projects st_c ++ [(created_project_id, COMPANY1_ID)].
Proof.
  cbv zeta. rewrite run_try_finally. cbn [snd].
  destruct (flow_after_create_shape test_project api_client project_response created_project_id)
    as (k & -> & Hk).
  change (run (Append (created_project_id, COMPANY1_ID) k) st_c)
    with (run k (do_append (created_project_id, COMPANY1_ID) st_c)).
  destruct (run_effects _ k (do_append (created_project_id, COMPANY1_ID) st_c) Hk)
    as (evs1 & Htr1 & Hall1 & Hreg1).
  destruct (run_effects _ (flow_finally api_client created_project_id)
              (run k (do_append (created_project_id, COMPANY1_ID) st_c)).2
              (flow_finally_effects api_client created_project_id))
    as (evs2 & Htr2 & Hall2 & Hreg2).
  assert (Hr1 : registrations evs1 = [])
    by (apply (no_registrations _ _ Hall1); reflexivity).
  assert (Hr2 : registrations evs2 = [])
    by (apply (no_registrations _ _ Hall2); reflexivity).
  assert (Hd1 : deletions evs1 = [])
    by (apply (no_deletions _ _ Hall1); reflexivity).
  assert (Hd2 : deletions evs2 = [])
    by (apply (no_deletions _ _ Hall2); reflexivity).
  exists (evs1 ++ evs2). rewrite Htr2, Htr1, Hreg2, Hreg1, Hr1, Hr2.
  rewrite registrations_app, deletions_app, Hr1, Hr2, Hd1, Hd2.
  cbn [do_append trace created_projects]. rewrite !app_nil_r, <- !app_assoc.
  repeat split; reflexivity.
Qed.

(** C2, as the code has it.  In every run in which the project is created,
    its (id, tenant) pair is appended to the cleanup list exactly once, as
    the first effect after the creation; the test itself deletes nothing;
    and the fixture then attempts the deletion of that project under its
    tenant exactly once when its own login succeeds, and not at all when
    that login fails. *)
Theorem created_project_registered_and_deleted (test_project : TestProject) (st : state W)
    (api_client : APIClient) (project_response created_project_id : json)
    (st_c : state W) :
  let st0 := mkState (world st) (trace st) [] (results_queue st) in
  run (flow_create test_project new_APIClient) st0
    = (Ok (api_client, project_response, created_project_id), st_c) ->
  let tested := (run (test_project_creation_flow test_project new_APIClient) st0).2 in
  let final := (run_test_project_creation_flow respond elapse test_project st).2 in
  let login :=
    (run (authenticate new_APIClient "admin@company1.com" "password123") tested).1 in
  (exists evs,
     trace tested = trace st_c ++ Appended (created_project_id, COMPANY1_ID) :: evs
     /\ registrations evs = [] /\ deletions evs = [])
  /\ created_projects tested = [(created_project_id, COMPANY1_ID)]
  /\ registrations (trace final)
     = registrations (trace st) ++ [(created_project_id, COMPANY1_ID)]
  /\ ((exists auth, login = Ok auth) ->
      deletions (trace final)
      = deletions (trace st) ++ [(created_project_id, Some (HStr COMPANY1_ID))])
  /\ ((exists e, login = Raise e) -> deletions (trace final) = deletions (trace st)).
Proof.
  intros st0 Hcreate tested final login.
  destruct (run_effects _ _ st0 (flow_create_effects test_project new_APIClient))
    as (evs0 & Htr0 & Hall0 & Hreg0).
  rewrite Hcreate in Htr0, Hreg0. cbn [snd] in Htr0, Hreg0.
  assert (Hr0 : registrations evs0 = [])
    by (apply (no_registrations _ _ Hall0); reflexivity).
  assert (Hd0 : deletions evs0 = [])
    by (apply (no_deletions _ _ Hall0); reflexivity).
  assert (Htested : tested
    = (run (try_finally
              (flow_after_create test_project api_client project_response created_project_id)
              (flow_finally api_client created_project_id)) st_c).2).
  { subst tested. unfold test_project_creation_flow. rewrite run_on_outcome, Hcreate.
    reflexivity. }
  destruct (run_after_creation test_project api_client project_response created_project_id st_c)
    as (evs & Htr & Hr & Hd & Hcp).
  cbv zeta in Htr, Hcp. rewrite <- Htested in Htr, Hcp.
  rewrite Hreg0, Hr0 in Hcp. cbn in Hcp.
  assert (Hdt : deletions (trace tested) = deletions (trace st)).
  { rewrite Htr, Htr0, !deletions_app.
    change (deletions (Appended (created_project_id, COMPANY1_ID) :: evs))
      with (deletions evs).
    rewrite Hd0, Hd, !app_nil_r. reflexivity. }
  assert (Hfinal : final = (run (cleanup_projects (created_projects tested)) tested).2)
    by apply run_test_project_creation_flow_final.
  split; [eauto|]. split; [exact Hcp|]. split; [|split].
  - rewrite Hfinal.
    rewrite (unobserved KAppend [KPost; KDelete] registration_of _ _ registration_unobserved
               eq_refl (cleanup_projects_effects _)).
    rewrite Htr, Htr0, !registrations_app.
    change (registrations (Appended (created_project_id, COMPANY1_ID) :: evs))
      with ((created_project_id, COMPANY1_ID) :: registrations evs).
    rewrite Hr0, Hr, app_nil_r. reflexivity.
  - intros Hlogin. rewrite Hfinal, Hcp.
    rewrite (proj1 (cleanup_projects_deletions _ tested) Hlogin), Hdt. reflexivity.
  - intros Hlogin. rewrite Hfinal.
    rewrite (proj2 (cleanup_projects_deletions _ tested) Hlogin), Hdt. reflexivity.
Qed.

(** *** test_concurrent_project_creation *)

Lemma successful_ids_length (queued : list queue_item) :
  (length (successful_ids queued) <= length queued)%nat.
Proof.
  induction queued as [|[[worker_id success] project_id] rest IH]; [reflexivity|].
  destruct success.
  - change (successful_ids ((worker_id, true, project_id) :: rest))
      with (project_id :: successful_ids rest). cbn [length]. lia.
  - change (successful_ids ((worker_id, false, project_id) :: rest))
      with (successful_ids rest). cbn [length]. lia.
Qed.

Lemma collect_successful (queued : list queue_item) (n : Z) (ids : list json) :
  collect queued n ids
  = (n + Z.of_nat (length (successful_ids queued)), ids ++ successful_ids queued).
Proof.
  revert n ids. induction queued as [|[[worker_id success] project_id] rest IH]; intros n ids.
  - cbn. rewrite Z.add_0_r, app_nil_r. reflexivity.
  - cbn [collect]. destruct success.
    + rewrite IH. change (successful_ids ((worker_id, true, project_id) :: rest))
        with (project_id :: successful_ids rest).
      cbn [length]. rewrite <- app_assoc. f_equal. lia.
    + rewrite IH. reflexivity.
Qed.

Lemma create_project_worker_effects (worker_id : nat) :
  emits (of_kinds [KPost; KPut]) (create_project_worker worker_id).
Proof. unfold create_project_worker. emits_tac. Qed.

Lemma step_thread_effects (ks : list kind) (t : prog unit) (st : state W) :
  emits (of_kinds ks) t ->
  emits (of_kinds ks) (step_thread respond elapse t st).1
  /\ exists evs, trace (step_thread respond elapse t st).2 = trace st ++ evs
                 /\ Forall (of_kinds ks) evs.
Proof.
  intros Ht. destruct Ht as [a|e|c k HP Hk|s k HP Hk|x k HP Hk|x k HP Hk]; cbn.
  - split; [constructor|]. exists []. rewrite app_nil_r. auto.
  - split; [constructor|]. exists []. rewrite app_nil_r. auto.
  - unfold do_call. destruct (respond c (world st)) as [r w]. cbn. split; [apply Hk|].
    exists [Called c]. auto.
  - split; [exact Hk|]. exists [Slept s]. auto.
  - split; [exact Hk|]. exists [Appended x]. auto.
  - split; [exact Hk|]. exists [Enqueued x]. auto.
Qed.

Lemma run_schedule_effects (ks : list kind) (schedule : list nat) (threads : list (prog unit))
    (st : state W) :
  Forall (emits (of_kinds ks)) threads ->
  Forall (emits (of_kinds ks)) (run_schedule respond elapse schedule threads st).1
  /\ exists evs, trace (run_schedule respond elapse schedule threads st).2 = trace st ++ evs
                 /\ Forall (of_kinds ks) evs.
Proof.
  revert threads st. induction schedule as [|i rest IH]; intros threads st Hthreads.
  - cbn. split; [exact Hthreads|]. exists []. rewrite app_nil_r. auto.
  - cbn [run_schedule]. destruct (threads !! i) as [t|] eqn:Hi; [|apply IH; exact Hthreads].
    assert (Ht : emits (of_kinds ks) t)
      by (eapply Forall_lookup_1; [exact Hthreads|exact Hi]).
    destruct (step_thread_effects ks t st Ht) as (Ht' & evs1 & Htr1 & Hall1).
    destruct (step_thread respond elapse t st) as [t' st']. cbn [fst snd] in *.
    destruct (IH (<[i := t']> threads) st') as (Hfinal & evs2 & Htr2 & Hall2).
    { apply Forall_insert; assumption. }
    split; [exact Hfinal|]. exists (evs1 ++ evs2).
    rewrite Htr2, Htr1, <- app_assoc. split; [reflexivity|]. apply Forall_app; auto.
Qed.

Lemma join_effects (ks : list kind) (threads : list (prog unit)) (st : state W) :
  Forall (emits (of_kinds ks)) threads ->
  exists evs, trace (join respond elapse threads st) = trace st ++ evs
              /\ Forall (of_kinds ks) evs.
Proof.
  revert st. induction threads as [|t rest IH]; intros st Hthreads.
  - exists []. cbn. rewrite app_nil_r. auto.
  - apply Forall_cons in Hthreads as [Ht Hrest]. cbn [join].
    destruct (emits_run _ t st Ht) as (evs1 & Htr1 & Hall1).
    destruct (IH (run t st).2 Hrest) as (evs2 & Htr2 & Hall2).
    exists (evs1 ++ evs2). rewrite Htr2, Htr1, <- app_assoc. split; [reflexivity|].
    apply Forall_app; auto.
Qed.

(** Whatever the schedule, the workers only send POST requests and put
    their results in the queue. *)
Lemma run_workers_effects (schedule : list nat) (st : state W) :
  exists evs, trace (run_workers respond elapse schedule st) = trace st ++ evs
              /\ Forall (of_kinds [KPost; KPut]) evs.
Proof.
  unfold run_workers.
  set (st0 := mkState (world st) (trace st) (created_projects st) []).
  assert (Hworkers : Forall (emits (of_kinds [KPost; KPut]))
                       (create_project_worker <$> seq 0 num_threads)).
  { apply Forall_fmap, Forall_forall. intros worker_id _. apply create_project_worker_effects. }
  destruct (run_schedule_effects _ schedule _ st0 Hworkers) as (Hthreads & evs1 & Htr1 & Hall1).
  destruct (run_schedule respond elapse schedule _ st0) as [threads st1]. cbn [fst snd] in *.
  destruct (join_effects _ threads st1 Hthreads) as (evs2 & Htr2 & Hall2).
  exists (evs1 ++ evs2). rewrite Htr2, Htr1, <- app_assoc. split; [reflexivity|].
  apply Forall_app; auto.
Qed.

Lemma run_concurrent_verdict (successful_creations : Z) (ids : list json) (st : state W) :
  let rate := SFdiv prec emax (float_of_int successful_creations)
                (float_of_int (Z.of_nat num_threads)) in
  run (concurrent_verdict successful_creations ids) st
  = if float_ge rate threshold
    then (Ok tt, (run (cleanup_projects ((fun project_id => (project_id, "company1")) <$> ids))
                    st).2)
    else (Raise (AssertionError (ConcurrentRateLow rate)), st).
Proof.
  cbv zeta. unfold concurrent_verdict, true_div.
  change (Z.of_nat num_threads =? 0) with false. cbv iota.
  rewrite run_bind, run_Return. cbn [fst snd]. rewrite run_bind.
  destruct (float_ge _ threshold); cbn [py_assert]; [|reflexivity].
  rewrite run_Return. cbn [fst snd].
  change (try_except _ _) with
    (cleanup_projects ((fun project_id => (project_id, "company1")) <$> ids)).
  unfold cleanup_projects. rewrite run_try_except.
  destruct (run _ st) as [[[]|e] st']; reflexivity.
Qed.

(** Every worker reports exactly once. *)

Lemma counts_on_outcome {A B} (Qok Qraise : nat -> Prop) (n : nat) (p : prog A)
    (f : result A -> prog B) :
  counts (fun m => forall a, counts Qok Qraise m (f (Ok a)))
         (fun m => forall e, counts Qok Qraise m (f (Raise e))) n p ->
  counts Qok Qraise n (on_outcome p f).
Proof. intros Hp. induction Hp; cbn; try constructor; auto. Qed.

Lemma counts_weaken {A} (Qok Qraise Qok' Qraise' : nat -> Prop) (n : nat) (p : prog A) :
  (forall m, Qok m -> Qok' m) -> (forall m, Qraise m -> Qraise' m) ->
  counts Qok Qraise n p -> counts Qok' Qraise' n p.
Proof. intros Hok Hraise Hp. induction Hp; constructor; auto. Qed.

Lemma counts_silent {A} (ks : list kind) (p : prog A) (n : nat) :
  emits (of_kinds ks) p -> kind_mem KPut ks = false -> counts (eq n) (eq n) n p.
Proof.
  intros Hp Hks. induction Hp as [a|e|c k HP Hk IH|s k HP Hk IH|x k HP Hk IH|x k HP Hk IH];
    try (constructor; auto; fail).
  unfold of_kinds in HP. cbn in HP. congruence.
Qed.

(** A program that puts nothing, followed by [f] on success. *)
Lemma counts_then {A B} (ks : list kind) (Qok Qraise : nat -> Prop) (n : nat)
    (p : prog A) (f : A -> prog B) :
  emits (of_kinds ks) p -> kind_mem KPut ks = false ->
  Qraise n -> (forall a, counts Qok Qraise n (f a)) ->
  counts Qok Qraise n (bind p f).
Proof.
  intros Hp Hks Hraise Hf. apply counts_on_outcome.
  apply (counts_weaken (eq n) (eq n)); [| |apply (counts_silent ks); assumption].
  - intros m <- a. apply Hf.
  - intros m <- e. constructor. exact Hraise.
Qed.

Lemma create_project_worker_counts (worker_id : nat) :
  counts (eq 1%nat) (eq 1%nat) 0 (create_project_worker worker_id).
Proof.
  unfold create_project_worker, try_except. apply counts_on_outcome.
  apply (counts_then [KPost]); [apply authenticate_effects|reflexivity| |intros auth].
  { intros e. do 2 constructor. reflexivity. }
  apply (counts_then [KPost]); [apply create_project_effects|reflexivity| |intros resp].
  { intros e. do 2 constructor. reflexivity. }
  apply (counts_then []); [unfold dict_get; emits_tac|reflexivity| |intros project_id].
  { intros e. do 2 constructor. reflexivity. }
  do 2 constructor. intros a. constructor. reflexivity.
Qed.

Lemma create_project_workers_counts (first n : nat) :
  Forall2 (counts (eq 1%nat) (eq 1%nat)) (replicate n 0%nat)
    (create_project_worker <$> seq first n).
Proof.
  revert first. induction n as [|n IH]; intros first.
  - constructor.
  - cbn [replicate seq]. rewrite fmap_cons.
    constructor; [apply create_project_worker_counts|apply IH].
Qed.

Lemma counts_run {A} (Qok Qraise : nat -> Prop) (n : nat) (p : prog A) (st : state W) :
  counts Qok Qraise n p ->
  exists m, (n <= m)%nat
    /\ (length (results_queue (run p st).2) + n = length (results_queue st) + m)%nat
    /\ match (run p st).1 with Ok _ => Qok m | Raise _ => Qraise m end.
Proof.
  intros Hp. revert st. induction Hp as [n a|n e|n c k Hk IH|n s k Hk IH|n x k Hk IH|n x k Hk IH];
    intros st.
  - exists n. cbn. auto.
  - exists n. cbn. auto.
  - cbn. unfold do_call. destruct (respond c (world st)) as [r w].
    destruct (IH r (mkState w (trace st ++ [Called c]) (created_projects st) (results_queue st)))
      as (m & Hle & Hlen & Hq).
    exists m. auto.
  - cbn. destruct (IH (do_sleep elapse s st)) as (m & Hle & Hlen & Hq). exists m. auto.
  - cbn. destruct (IH (do_append x st)) as (m & Hle & Hlen & Hq). exists m. auto.
  - cbn. destruct (IH (do_put x st)) as (m & Hle & Hlen & Hq). exists m.
    cbn [do_put results_queue] in Hlen. rewrite length_app in Hlen. cbn in Hlen.
    repeat split; [lia|lia|exact Hq].
Qed.

Lemma counts_step (Qok Qraise : nat -> Prop) (n : nat) (t : prog unit) (st : state W) :
  counts Qok Qraise n t ->
  exists n', counts Qok Qraise n' (step_thread respond elapse t st).1
    /\ (n <= n')%nat
    /\ (length (results_queue (step_thread respond elapse t st).2) + n
        = length (results_queue st) + n')%nat.
Proof.
  intros Ht. destruct Ht as [n a|n e|n c k Hk|n s k Hk|n x k Hk|n x k Hk]; cbn.
  - exists n. repeat split; [constructor; assumption|lia].
  - exists n. repeat split; [constructor; assumption|lia].
  - unfold do_call. destruct (respond c (world st)) as [r w]. exists n. cbn. auto.
  - exists n. auto.
  - exists n. auto.
  - exists (S n). rewrite length_app. cbn. repeat split; [exact Hk|lia|lia].
Qed.

(** The threads that have reported [n] times so far in total. *)
Lemma run_schedule_counts (schedule : list nat) (threads : list (prog unit))
    (ns : list nat) (st : state W) :
  Forall2 (counts (eq 1%nat) (eq 1%nat)) ns threads ->
  exists ns', Forall2 (counts (eq 1%nat) (eq 1%nat)) ns'
                (run_schedule respond elapse schedule threads st).1
    /\ length (run_schedule respond elapse schedule threads st).1 = length threads
    /\ (length (results_queue (run_schedule respond elapse schedule threads st).2)
        + sum_list ns
        = length (results_queue st) + sum_list ns')%nat.
Proof.
  revert threads ns st. induction schedule as [|i rest IH]; intros threads ns st Hall.
  - exists ns. cbn. auto.
  - cbn [run_schedule]. destruct (threads !! i) as [t|] eqn:Hi; [|apply IH; exact Hall].
    destruct (Forall2_lookup_r _ _ _ _ _ Hall Hi) as (n & Hn & Ht).
    destruct (counts_step _ _ n t st Ht) as (n' & Ht' & Hle & Hlen).
    destruct (step_thread respond elapse t st) as [t' st']. cbn [fst snd] in *.
    destruct (IH (<[i := t']> threads) (<[i := n']> ns) st') as (ns' & Hall' & Hsame & Hlen').
    { apply Forall2_insert; assumption. }
    exists ns'. split; [exact Hall'|]. rewrite length_insert in Hsame. split; [exact Hsame|].
    assert (Hsum : (sum_list (<[i := n']> ns) + n = sum_list ns + n')%nat).
    { clear -Hn. revert i Hn. induction ns as [|x ns IHns]; intros [|i] Hn; try discriminate.
      - injection Hn as ->. simpl. lia.
      - simpl in Hn |- *. specialize (IHns i Hn). lia. }
    lia.
Qed.

Lemma join_counts (threads : list (prog unit)) (ns : list nat) (st : state W) :
  Forall2 (counts (eq 1%nat) (eq 1%nat)) ns threads ->
  (length (results_queue (join respond elapse threads st)) + sum_list ns
   = length (results_queue st) + length threads)%nat.
Proof.
  intros Hall. revert st. induction Hall as [|n t ns threads Ht Hall IH]; intros st.
  - cbn. lia.
  - cbn [join length]. change (sum_list (n :: ns)) with (n + sum_list ns)%nat.
    specialize (IH (run t st).2).
    destruct (counts_run _ _ n t st Ht) as (m & Hle & Hlen & Hq).
    assert (m = 1%nat) as -> by (destruct (run t st).1; congruence).
    lia.
Qed.

(** Whatever the schedule, the queue holds one item per worker when the
    workers have been joined. *)
Lemma run_workers_queue (schedule : list nat) (st : state W) :
  length (results_queue (run_workers respond elapse schedule st)) = num_threads.
Proof.
  unfold run_workers.
  set (st0 := mkState (world st) (trace st) (created_projects st) []).
  assert (Hworkers : Forall2 (counts (eq 1%nat) (eq 1%nat)) (replicate num_threads 0%nat)
                       (create_project_worker <$> seq 0 num_threads)).
  { apply create_project_workers_counts. }
  destruct (run_schedule_counts schedule _ _ st0 Hworkers) as (ns' & Hall & Hsame & Hlen).
  destruct (run_schedule respond elapse schedule _ st0) as [threads st1]. cbn [fst snd] in *.
  pose proof (join_counts threads ns' st1 Hall) as Hjoin.
  rewrite length_fmap, length_seq in Hsame. cbn in Hlen. lia.
Qed.

(** When the success-rate assertion fails, the test ends there: the
    cleanup that follows it in the source is not reached. *)
Lemma concurrent_cleanup_skipped_on_rejection (schedule : list nat) (st : state W) (e : exn) :
  (test_concurrent_project_creation respond elapse schedule st).1 = Raise e ->
  deletions (trace (test_concurrent_project_creation respond elapse schedule st).2)
  = deletions (trace st).
Proof.
  unfold test_concurrent_project_creation. rewrite collect_successful, run_concurrent_verdict.
  destruct (float_ge _ threshold); [discriminate|]. intros _. cbn [snd trace].
  destruct (run_workers_effects schedule st) as (evs & -> & Hall).
  rewrite deletions_app, (no_deletions _ _ Hall eq_refl), app_nil_r. reflexivity.
Qed.

(** The cleanup of an accepted batch.  In every run in which the
    success-rate assertion passes, the test then attempts, when its cleanup login
    succeeds, one deletion for every project id whose worker reported
    success, in the order of the queue and under tenant company1, and no
    deletion when that login fails; the workers themselves delete
    nothing. *)
Theorem concurrent_cleanup_after_acceptance (schedule : list nat) (st : state W) :
  let joined := run_workers respond elapse schedule st in
  let collected :=
    mkState (world joined) (trace joined) (created_projects joined) [] in
  let final := test_concurrent_project_creation respond elapse schedule st in
  let login :=
    (run (authenticate new_APIClient "admin@company1.com" "password123") collected).1 in
  final.1 = Ok tt ->
  deletions (trace joined) = deletions (trace st)
  /\ ((exists auth, login = Ok auth) ->
      deletions (trace final.2)
      = deletions (trace st)
        ++ ((fun project_id => (project_id, Some (HStr "company1")))
            <$> successful_ids (results_queue joined)))
  /\ ((exists e, login = Raise e) -> deletions (trace final.2) = deletions (trace st)).
Proof.
  intros joined collected final login Hpass.
  assert (Hjoined : deletions (trace joined) = deletions (trace st)).
  { destruct (run_workers_effects schedule st) as (evs & Htr & Hall). subst joined.
    rewrite Htr, deletions_app, (no_deletions _ _ Hall eq_refl), app_nil_r. reflexivity. }
  split; [exact Hjoined|].
  subst final. unfold test_concurrent_project_creation in *. fold joined in Hpass |- *.
  rewrite collect_successful in *. cbn [app] in *. fold collected in Hpass |- *.
  rewrite run_concurrent_verdict in *.
  destruct (float_ge _ threshold); [|discriminate]. cbn [fst snd].
  pose proof (cleanup_projects_deletions
                ((fun project_id => (project_id, "company1")) <$> successful_ids (results_queue joined))
                collected) as [Hok Hfail].
  cbv zeta in Hok, Hfail. fold login in Hok, Hfail.
  change (trace collected) with (trace joined) in Hok, Hfail.
  rewrite Hjoined in Hok, Hfail. split; [|exact Hfail].
  intros Hlogin. rewrite (Hok Hlogin), <- list_fmap_compose. reflexivity.
Qed.

(** *** Success rates *)

Lemma sum_values_bounds (results : gmap string bool) :
  0 <= sum_values results <= len results.
Proof.
  unfold sum_values, len.
  apply (map_fold_weak_ind (fun r (m : gmap string bool) => 0 <= r <= Z.of_nat (size m))).
  - rewrite map_size_empty. lia.
  - intros i x m r Hi Hr. rewrite (map_size_insert_None _ _ _ Hi). destruct x; cbn; lia.
Qed.

Lemma decisions_agree_100 : decisions_agree 100 = true.
Proof. vm_cast_no_check (eq_refl true). Qed.

Lemma decisions_agree_below (bound : nat) (passed total : Z) :
  decisions_agree bound = true ->
  0 <= passed <= total -> 1 <= total <= Z.of_nat bound ->
  decision_agrees passed total = true.
Proof.
  intros Hall Hp Ht. unfold decisions_agree in Hall.
  rewrite forallb_forall in Hall. specialize (Hall (Z.to_nat total)).
  rewrite forallb_forall in Hall.
  - specialize (Hall ltac:(apply in_seq; lia) (Z.to_nat passed) ltac:(apply in_seq; lia)).
    rewrite !Z2Nat.id in Hall by lia. exact Hall.
Qed.

Lemma decision_agrees_small (passed total : Z) :
  0 <= passed <= total -> 1 <= total <= 100 -> decision_agrees passed total = true.
Proof.
  intros Hp Ht. apply (decisions_agree_below 100); [exact decisions_agree_100|exact Hp|].
  change (Z.of_nat 100) with 100. exact Ht.
Qed.

Lemma threshold_decision (passed total : Z) :
  0 <= passed <= total -> 1 <= total <= 100 ->
  exists rate, true_div passed total = Return rate
    /\ (float_ge rate threshold = true <-> 4 * total <= 5 * passed).
Proof.
  intros Hp Ht. unfold true_div. destruct (Z.eqb_spec total 0) as [->|_]; [lia|].
  eexists. split; [reflexivity|].
  pose proof (decision_agrees_small passed total Hp Ht) as Hagree.
  unfold decision_agrees in Hagree. apply eqb_prop in Hagree. rewrite Hagree.
  apply Z.leb_le.
Qed.

Lemma quarters_exact (passed : Z) :
  0 <= passed <= 4 ->
  float_is_ratio (SFdiv prec emax (float_of_int passed) (float_of_int 4)) passed 4.
Proof.
  intros Hp.
  assert (Hcases : passed = 0 \/ passed = 1 \/ passed = 2 \/ passed = 3 \/ passed = 4) by lia.
  destruct Hcases as [->|[->|[->|[->| ->]]]]; vm_compute; reflexivity.
Qed.

Lemma test_cross_platform_results (project_name email password : string) (st : state W) :
  exists results : gmap string bool,
    (run (test_cross_platform project_name email password) st).1 = Ok results
    /\ len results = 4.
Proof.
  unfold test_cross_platform.
  destruct (test_cross_platform_over_total platforms project_name email password ∅ st)
    as (m & Hm & Hdom & _).
  exists m. split; [exact Hm|]. unfold len. rewrite <- size_dom, Hdom.
  vm_compute. reflexivity.
Qed.

Lemma run_flow_cross_platform (test_project : TestProject) (st : state W)
    (results : gmap string bool) (rate : spec_float) :
  (run (test_cross_platform (name test_project) ADMIN_EMAIL PASSWORD) st).1 = Ok results ->
  true_div (sum_values results) (len results) = Return rate ->
  (run (flow_cross_platform test_project) st).1
  = if float_ge rate threshold then Ok tt
    else Raise (AssertionError (CrossPlatformRateLow rate)).
Proof.
  intros Hresults Hrate. unfold flow_cross_platform.
  rewrite (run_bind_Ok _ _ _ _ Hresults), Hrate, run_bind, run_Return. cbn [fst snd].
  destruct (float_ge rate threshold); reflexivity.
Qed.

Lemma ratios_rounded_100 : ratios_rounded 100 = true.
Proof. vm_cast_no_check (eq_refl true). Qed.

Lemma ratios_rounded_below (bound : nat) (passed total : Z) :
  ratios_rounded bound = true ->
  0 <= passed <= total -> 1 <= total <= Z.of_nat bound ->
  ratio_rounded passed total = true.
Proof.
  intros Hall Hp Ht. unfold ratios_rounded in Hall.
  rewrite forallb_forall in Hall.
  specialize (Hall (Z.to_nat total)). rewrite Z2Nat.id in Hall by lia.
  assert (Hin : In (Z.to_nat total) (seq 1 bound)) by (apply in_seq; lia).
  specialize (Hall Hin). rewrite forallb_forall in Hall.
  specialize (Hall (Z.to_nat passed)). rewrite Z2Nat.id in Hall by lia.
  apply Hall. apply in_seq. lia.
Qed.

Lemma ratio_rounded_small (passed total : Z) :
  0 <= passed <= total -> 1 <= total <= 100 -> ratio_rounded passed total = true.
Proof.
  intros Hp Ht. apply (ratios_rounded_below 100); [exact ratios_rounded_100|exact Hp|].
  change (Z.of_nat 100) with 100. exact Ht.
Qed.

(** [sum(results.values())] counts the entries that are [True]. *)
Lemma sum_values_count (results : gmap string bool) :
  sum_values results
  = Z.of_nat (size (filter (fun entry : string * bool => entry.2 = true) results)).
Proof.
  unfold sum_values.
  apply (map_fold_weak_ind (fun r (m : gmap string bool) =>
           r = Z.of_nat (size (filter (fun entry : string * bool => entry.2 = true) m)))).
  - rewrite map_filter_empty, map_size_empty. reflexivity.
  - intros i x m r Hi ->. destruct x; cbn [Z.b2z].
    + rewrite map_filter_insert_True by reflexivity.
      rewrite map_size_insert_None by (apply map_lookup_filter_None_2; left; exact Hi). lia.
    + rewrite map_filter_insert_not'; [lia|cbn; discriminate|intros y Hy; congruence].
Qed.

(** The successes the collection loop counts are the queued items whose
    flag is [True]. *)
Lemma successful_ids_count (queued : list queue_item) :
  length (successful_ids queued)
  = length (filter (fun item : queue_item => item.1.2 = true) queued).
Proof.
  induction queued as [|[[worker_id success] project_id] rest IH]; [reflexivity|].
  destruct success.
  - change (successful_ids ((worker_id, true, project_id) :: rest))
      with (project_id :: successful_ids rest).
    rewrite filter_cons_True by reflexivity. cbn [length]. rewrite IH. reflexivity.
  - change (successful_ids ((worker_id, false, project_id) :: rest))
      with (successful_ids rest).
    rewrite filter_cons_False by (cbn; discriminate). exact IH.
Qed.

(** C4. In every run the fan-out returns N = 4 entries; with M the number
    of its entries that are [True], the code's sum is M, the computed rate
    is exactly M/N and STEP 5 accepts exactly when M/N >= 4/5.  For any
    result map of N <= 100 entries of which M are [True], the computed rate
    is M/N rounded to the nearest double and the comparison with [0.8]
    accepts exactly when M/N >= 4/5.  In every run of the concurrent batch,
    whatever the schedule, the queue holds N = 5 items; with M the number
    of items flagged [True], the test accepts exactly when M/N >= 4/5.
    4 of 5 is accepted and 3 of 4 is rejected. *)
Theorem success_rate_threshold (test_project : TestProject) (st : state W) :
  (exists (results : gmap string bool) (rate : spec_float),
     let N := Z.of_nat (size results) in
     let M := Z.of_nat (size (filter (fun entry : string * bool => entry.2 = true) results)) in
     (run (test_cross_platform (name test_project) ADMIN_EMAIL PASSWORD) st).1 = Ok results
     /\ N = 4
     /\ sum_values results = M /\ len results = N
     /\ true_div (sum_values results) (len results) = Return rate
     /\ float_is_ratio rate M N
     /\ ((run (flow_cross_platform test_project) st).1 = Ok tt <-> 4 * N <= 5 * M))
  /\ (forall results : gmap string bool,
        let N := Z.of_nat (size results) in
        let M := Z.of_nat (size (filter (fun entry : string * bool => entry.2 = true)
                                   results)) in
        1 <= N <= 100 ->
        exists rate, true_div (sum_values results) (len results) = Return rate
          /\ float_rounds_ratio rate M N = true
          /\ (float_ge rate threshold = true <-> 4 * N <= 5 * M))
  /\ (forall schedule : list nat,
        let queue := results_queue (run_workers respond elapse schedule st) in
        let N := Z.of_nat (length queue) in
        let M := Z.of_nat (length (filter (fun item : queue_item => item.1.2 = true) queue)) in
        N = 5 /\ 0 <= M <= N
        /\ ((test_concurrent_project_creation respond elapse schedule st).1 = Ok tt
            <-> 4 * N <= 5 * M))
  /\ (exists rate, true_div 4 5 = Return rate /\ float_ge rate threshold = true)
  /\ (exists rate, true_div 3 4 = Return rate /\ float_ge rate threshold = false).
Proof.
  split; [|split; [|split; [|split]]].
  - destruct (test_cross_platform_results (name test_project) ADMIN_EMAIL PASSWORD st)
      as (results & Hresults & Hlen).
    pose proof (sum_values_bounds results) as Hsum.
    destruct (threshold_decision (sum_values results) (len results) ltac:(lia) ltac:(lia))
      as (rate & Hrate & Hdecision).
    exists results, rate. cbv zeta. rewrite <- sum_values_count. fold (len results).
    repeat split; try assumption.
    + assert (rate = SFdiv prec emax (float_of_int (sum_values results)) (float_of_int 4)) as ->.
      { unfold true_div in Hrate. rewrite Hlen in Hrate.
        change (4 =? 0) with false in Hrate. cbv iota in Hrate. congruence. }
      rewrite Hlen. apply quarters_exact. lia.
    + rewrite (run_flow_cross_platform _ _ _ _ Hresults Hrate), <- Hdecision.
      destruct (float_ge rate threshold); [reflexivity|discriminate].
    + rewrite (run_flow_cross_platform _ _ _ _ Hresults Hrate), <- Hdecision.
      destruct (float_ge rate threshold); [reflexivity|discriminate].
  - intros results N M Hlen. subst N M. rewrite <- sum_values_count. fold (len results) in *.
    pose proof (sum_values_bounds results) as Hsum.
    destruct (threshold_decision (sum_values results) (len results) Hsum Hlen)
      as (rate & Hrate & Hdecision).
    exists rate. split; [exact Hrate|]. split; [|exact Hdecision].
    pose proof (ratio_rounded_small (sum_values results) (len results) Hsum Hlen) as Hrounded.
    unfold ratio_rounded in Hrounded. unfold true_div in Hrate.
    destruct (len results =? 0); [discriminate Hrate|]. congruence.
  - intros schedule queue N M.
    pose proof (run_workers_queue schedule st) as Hqueue. fold queue in Hqueue.
    pose proof (successful_ids_length queue) as Hle.
    pose proof (successful_ids_count queue) as Hcount.
    assert (HN : N = 5) by (subst N; rewrite Hqueue; reflexivity).
    assert (HM : M = Z.of_nat (length (successful_ids queue))) by (subst M; lia).
    assert (Hbound : 0 <= M <= Z.of_nat num_threads)
      by (rewrite HM; unfold num_threads in *; lia).
    split; [exact HN|]. split; [unfold num_threads in Hbound; lia|].
    unfold test_concurrent_project_creation. fold queue.
    rewrite collect_successful, run_concurrent_verdict. rewrite <- HM.
    replace (0 + M) with M by lia.
    pose proof (decision_agrees_small M (Z.of_nat num_threads) Hbound
                  ltac:(unfold num_threads; lia)) as Hagree.
    unfold decision_agrees in Hagree. apply eqb_prop in Hagree. rewrite Hagree, HN.
    destruct (Z.leb_spec (4 * Z.of_nat num_threads) (5 * M));
      cbn [fst]; unfold num_threads in *; split; intros; try reflexivity; try discriminate; lia.
  - eexists. split; [reflexivity|]. vm_compute. reflexivity.
  - eexists. split; [reflexivity|]. vm_compute. reflexivity.
Qed.

(** *** LoginPage.navigate_to_login *)

Lemma gotos_app (tr1 tr2 : list event) : gotos (tr1 ++ tr2) = (gotos tr1 + gotos tr2)%nat.
Proof. unfold gotos. rewrite omap_app, length_app. reflexivity. Qed.

Lemma navigate_once_gotos (st : state W) :
  gotos (trace (run LoginPage.navigate_once st).2) = S (gotos (trace st)).
Proof.
  unfold LoginPage.navigate_once, gotos.
  rewrite run_bind, run_perform.
  set (st1 := (do_call respond _ st).2).
  assert (Hst1 : omap goto_of (trace st1) = omap goto_of (trace st) ++ [tt]).
  { subst st1. unfold do_call. destruct (respond _ (world st)) as [r w]. cbn [snd trace].
    rewrite omap_app. reflexivity. }
  destruct (do_call respond _ st).1 as [a|name]; cbn [fst snd].
  - rewrite (unobserved KGoto [KPage]); [rewrite Hst1, length_app; cbn; lia|..].
    + intros [[]| | |]; simpl; congruence.
    + reflexivity.
    + emits_tac.
  - rewrite Hst1, length_app. cbn. lia.
Qed.

Lemma do_sleep_gotos (seconds : Z) (st : state W) :
  gotos (trace (do_sleep elapse seconds st)) = gotos (trace st).
Proof. unfold do_sleep. cbn [trace]. rewrite gotos_app. cbn. lia. Qed.

Lemma run_navigate_attempts (max_retries rest : nat) (st : state W) :
  run (LoginPage.navigate_attempts max_retries (S rest)) st =
  match (run LoginPage.navigate_once st).1 with
  | Ok a => (Ok a, (run LoginPage.navigate_once st).2)
  | Raise e =>
      if (max_retries - S rest =? max_retries - 1)%nat
      then (Raise e, (run LoginPage.navigate_once st).2)
      else run (LoginPage.navigate_attempts max_retries rest)
             (do_sleep elapse 2 (run LoginPage.navigate_once st).2)
  end.
Proof.
  cbn [LoginPage.navigate_attempts]. rewrite run_try_except.
  destruct (run LoginPage.navigate_once st).1 as [a|e]; [reflexivity|].
  destruct (max_retries - S rest =? max_retries - 1)%nat; [reflexivity|].
  rewrite run_bind. reflexivity.
Qed.

Lemma navigate_attempts_bound (max_retries remaining : nat) (st : state W) :
  (gotos (trace (run (LoginPage.navigate_attempts max_retries remaining) st).2)
   <= gotos (trace st) + remaining)%nat.
Proof.
  revert st. induction remaining as [|rest IH]; intros st.
  - simpl. lia.
  - rewrite run_navigate_attempts. pose proof (navigate_once_gotos st) as Hg.
    destruct (run LoginPage.navigate_once st).1 as [a|e]; cbn [snd]; [lia|].
    destruct (max_retries - S rest =? max_retries - 1)%nat; cbn [snd]; [lia|].
    etrans; [apply IH|]. rewrite do_sleep_gotos. lia.
Qed.

Lemma navigate_attempts_succeeds (max_retries remaining k : nat) (st : state W) :
  (remaining <= max_retries)%nat -> (k < remaining)%nat ->
  fails_then_succeeds respond elapse k st ->
  (run (LoginPage.navigate_attempts max_retries remaining) st).1 = Ok tt
  /\ gotos (trace (run (LoginPage.navigate_attempts max_retries remaining) st).2)
     = (gotos (trace st) + S k)%nat.
Proof.
  revert k st. induction remaining as [|rest IH]; intros k st Hle Hk Hfts; [lia|].
  rewrite run_navigate_attempts. pose proof (navigate_once_gotos st) as Hg.
  destruct k as [|k'].
  - cbn [fails_then_succeeds] in Hfts. rewrite Hfts. cbn [fst snd]. split; [reflexivity|lia].
  - cbn [fails_then_succeeds] in Hfts. destruct Hfts as [[e He] Hrest]. rewrite He.
    destruct (Nat.eqb_spec (max_retries - S rest) (max_retries - 1)) as [Heq|_]; [lia|].
    destruct (IH k' _ ltac:(lia) ltac:(lia) Hrest) as [Hok Hcount].
    split; [exact Hok|]. rewrite Hcount, do_sleep_gotos. lia.
Qed.

Lemma navigate_attempts_exhausted (max_retries remaining : nat) (st : state W) (last : exn) :
  (remaining <= max_retries)%nat ->
  fails_every_time respond elapse remaining st last ->
  (run (LoginPage.navigate_attempts max_retries remaining) st).1 = Raise last
  /\ gotos (trace (run (LoginPage.navigate_attempts max_retries remaining) st).2)
     = (gotos (trace st) + remaining)%nat.
Proof.
  revert st. induction remaining as [|rest IH]; intros st Hle Hall; [destruct Hall|].
  rewrite run_navigate_attempts. pose proof (navigate_once_gotos st) as Hg.
  destruct rest as [|rest'].
  - cbn [fails_every_time] in Hall. rewrite Hall.
    destruct (Nat.eqb_spec (max_retries - 1) (max_retries - 1)) as [_|Hne]; [|lia].
    cbn [fst snd]. split; [reflexivity|lia].
  - destruct Hall as [[e He] Hrest]. rewrite He.
    destruct (Nat.eqb_spec (max_retries - S (S rest')) (max_retries - 1)) as [Heq|_]; [lia|].
    destruct (IH _ ltac:(lia) Hrest) as [Hraise Hcount].
    split; [exact Hraise|]. rewrite Hcount, do_sleep_gotos. lia.
Qed.

(** C8. [navigate_to_login] (three attempts) calls [page.goto] at most
    three times; when the attempt fails [k < 3] times in a row and then
    succeeds, it returns normally after exactly [k + 1] attempts; when all
    three attempts fail, the error of the last one reaches the caller. *)
Theorem navigate_to_login_retries (st : state W) :
  let final := run LoginPage.navigate_to_login st in
  (gotos (trace final.2) <= gotos (trace st) + 3)%nat
  /\ (forall k, (k < 3)%nat -> fails_then_succeeds respond elapse k st ->
        final.1 = Ok tt /\ gotos (trace final.2) = (gotos (trace st) + (k + 1))%nat)
  /\ (forall last, fails_every_time respond elapse 3 st last ->
        final.1 = Raise last /\ gotos (trace final.2) = (gotos (trace st) + 3)%nat).
Proof.
  cbv zeta. unfold LoginPage.navigate_to_login. split; [|split].
  - apply navigate_attempts_bound.
  - intros k Hk Hfts. replace (k + 1)%nat with (S k) by lia.
    apply navigate_attempts_succeeds; [lia|exact Hk|exact Hfts].
  - intros last Hall. apply navigate_attempts_exhausted; [lia|exact Hall].
Qed.

(** *** Further properties of the API client *)

Ltac open_hyp H :=
  repeat match type of H with
         | ex _ => destruct H as [? H]
         | _ /\ _ => destruct H as [? H]
         end.

Lemma run_authenticate (self : APIClient) (email password : string) (st : state W) :
  let request := SessionPost (Url (base_url self) AuthLogin)
                   (JObj [("email", JStr email); ("password", JStr password)])
                   (request_headers self ∅) 30 in
  run (authenticate self email password) st
  = (match (respond request (world st)).1 with
     | Fault name => Raise (LibraryError name)
     | Answer resp =>
         if status_code resp =? 200 then
           match decoded resp with
           | None => Raise JSONDecodeError
           | Some (JObj fields) =>
               let token := default JNull (fields_get fields "access_token") in
               if truthy token then
                 Ok (token,
                     {| base_url := base_url self;
                        session_headers :=
                          <["Authorization" := HBearer token]> (session_headers self) |})
               else Raise NoAccessToken
           | Some _ => Raise AttributeError
           end
         else Raise (AuthenticationFailed (status_code resp) (text resp))
     end,
     mkState (respond request (world st)).2 (trace st ++ [Called request])
       (created_projects st) (results_queue st)).
Proof.
  cbv zeta. unfold authenticate. rewrite run_bind, run_perform. unfold do_call.
  destruct (respond _ (world st)) as [[resp|name] w]; cbn [fst snd]; [|reflexivity].
  destruct (status_code resp =? 200); cbn [negb]; [|reflexivity].
  rewrite run_bind. unfold response_json.
  destruct (decoded resp) as [[| | | | |fields]|]; try reflexivity.
  rewrite run_Return. cbn [fst snd]. rewrite run_bind. cbn [dict_get]. rewrite run_Return.
  cbn [fst snd]. destruct (truthy _); reflexivity.
Qed.

(** X1. [authenticate] sends exactly one POST to the login endpoint.  It
    succeeds exactly when the answer has status 200 and a JSON object with
    a truthy [access_token]; the client it leaves has that token as its
    Authorization header.  Any other status raises "Authentication failed"
    with that status and body, whatever the body holds; a 200 answer whose
    object has no token, or a falsy one, raises "No access token
    received". *)
Theorem authenticate_outcome (self : APIClient) (email password : string) (st : state W) :
  let request := SessionPost (Url (base_url self) AuthLogin)
                   (JObj [("email", JStr email); ("password", JStr password)])
                   (request_headers self ∅) 30 in
  let final := run (authenticate self email password) st in
  trace final.2 = trace st ++ [Called request]
  /\ (forall token api_client,
        final.1 = Ok (token, api_client) <->
        exists resp fields,
          (respond request (world st)).1 = Answer resp
          /\ status_code resp = 200
          /\ decoded resp = Some (JObj fields)
          /\ default JNull (fields_get fields "access_token") = token
          /\ truthy token = true
          /\ api_client
             = {| base_url := base_url self;
                  session_headers :=
                    <["Authorization" := HBearer token]> (session_headers self) |})
  /\ (final.1 = Raise NoAccessToken <->
      exists resp fields,
        (respond request (world st)).1 = Answer resp
        /\ status_code resp = 200
        /\ decoded resp = Some (JObj fields)
        /\ truthy (default JNull (fields_get fields "access_token")) = false)
  /\ (forall status body,
        final.1 = Raise (AuthenticationFailed status body) <->
        exists resp,
          (respond request (world st)).1 = Answer resp
          /\ status_code resp = status /\ text resp = body /\ status <> 200).
Proof.
  intros request final. subst final. rewrite run_authenticate. fold request.
  cbn [fst snd trace]. split; [reflexivity|].
  destruct (respond request (world st)).1 as [resp|name];
    [destruct (Z.eqb_spec (status_code resp) 200) as [Hstatus|Hstatus];
     [destruct (decoded resp) as [[| | | | |fields]|] eqn:Hdecoded;
      [.. |cbv zeta;
           destruct (truthy (default JNull (fields_get fields "access_token"))) eqn:Htoken|]|]|];
    (split; [intros token api_client; split|split; [split|intros status body; split]]);
    intros H; try discriminate H;
    try (open_hyp H; simplify_eq; first [reflexivity|congruence]);
    try (injection H as <- <-); eauto 12.
Qed.

Lemma run_create_project (self : APIClient) (project : TestProject) (tenant : string)
    (st : state W) :
  let request :=
    SessionPost (Url (base_url self) Projects)
      (JObj [("name", JStr (name project)); ("description", JStr (description project));
             ("team_members", JArr (JStr <$> team_members project))])
      (request_headers self (tenant_header tenant)) 30 in
  run (create_project self project tenant) st
  = (match (respond request (world st)).1 with
     | Fault name => Raise (LibraryError name)
     | Answer resp =>
         if (status_code resp =? 200) || (status_code resp =? 201) then
           match decoded resp with
           | Some (JObj fields) => Ok (JObj fields)
           | Some _ => Raise AttributeError
           | None => Raise JSONDecodeError
           end
         else Raise (ProjectCreationFailed (status_code resp) (text resp))
     end,
     mkState (respond request (world st)).2 (trace st ++ [Called request])
       (created_projects st) (results_queue st)).
Proof.
  cbv zeta. unfold create_project. rewrite run_bind, run_perform. unfold do_call.
  destruct (respond _ (world st)) as [[resp|name] w]; cbn [fst snd]; [|reflexivity].
  destruct ((status_code resp =? 200) || (status_code resp =? 201)); cbn [negb];
    [|reflexivity].
  unfold response_json, dict_get. destruct (decoded resp) as [[| | | | |fields]|]; reflexivity.
Qed.

Lemma run_get_project (self : APIClient) (project_id : json) (tenant : string)
    (st : state W) :
  let request := SessionGet (Url (base_url self) (ProjectById project_id))
                   (request_headers self (tenant_header tenant)) 30 in
  run (get_project self project_id tenant) st
  = (match (respond request (world st)).1 with
     | Fault name => Raise (LibraryError name)
     | Answer resp =>
         if status_code resp =? 200 then
           match decoded resp with
           | Some v => Ok v
           | None => Raise JSONDecodeError
           end
         else Raise (GetProjectFailed (status_code resp) (text resp))
     end,
     mkState (respond request (world st)).2 (trace st ++ [Called request])
       (created_projects st) (results_queue st)).
Proof.
  cbv zeta. unfold get_project. rewrite run_bind, run_perform. unfold do_call.
  destruct (respond _ (world st)) as [[resp|name] w]; cbn [fst snd]; [|reflexivity].
  destruct (status_code resp =? 200); cbn [negb]; [|reflexivity].
  unfold response_json. destruct (decoded resp); reflexivity.
Qed.

(** X2. After a successful [authenticate], every project request of the
    client (create, get, delete) is one call that carries both the bearer
    token of that login and the tenant named in the call. *)
Theorem authenticated_requests_carry_token (self : APIClient) (email password : string)
    (st : state W) (token : json) (api_client : APIClient) :
  (run (authenticate self email password) st).1 = Ok (token, api_client) ->
  forall (project : TestProject) (project_id : json) (tenant : string) (st' : state W),
    let headers := request_headers api_client (tenant_header tenant) in
    headers !! "Authorization" = Some (HBearer token)
    /\ headers !! "X-Tenant-ID" = Some (HStr tenant)
    /\ trace (run (create_project api_client project tenant) st').2
       = trace st'
         ++ [Called (SessionPost (Url (base_url self) Projects)
                       (JObj [("name", JStr (name project));
                              ("description", JStr (description project));
                              ("team_members", JArr (JStr <$> team_members project))])
                       headers 30)]
    /\ trace (run (get_project api_client project_id tenant) st').2
       = trace st' ++ [Called (SessionGet (Url (base_url self) (ProjectById project_id))
                                 headers 30)]
    /\ trace (run (delete_project api_client project_id tenant) st').2
       = trace st' ++ [Called (SessionDelete (Url (base_url self) (ProjectById project_id))
                                 headers 30)].
Proof.
  intros Hlogin project project_id tenant st' headers.
  rewrite run_authenticate in Hlogin. cbn [fst] in Hlogin.
  destruct (respond _ (world st)).1 as [resp|name]; [|discriminate Hlogin].
  destruct (status_code resp =? 200); [|discriminate Hlogin].
  destruct (decoded resp) as [[| | | | |fields]|]; try discriminate Hlogin.
  cbv zeta in Hlogin. destruct (truthy _); [|discriminate Hlogin].
  injection Hlogin as <- <-. subst headers.
  rewrite run_create_project, run_get_project, delete_project_trace. cbn [snd trace base_url].
  repeat split.
  - unfold request_headers, tenant_header. cbn [session_headers].
    rewrite lookup_union_r by (apply lookup_singleton_ne; discriminate).
    apply lookup_insert_eq.
  - apply tenant_of_request.
Qed.

(** X3. Logging in again with an authenticated client replaces its token:
    the client keeps the base URL and the other session headers, and its
    requests carry the new token only. *)
Theorem reauthentication_replaces_token (self : APIClient) (email password email' password' : string)
    (st st' : state W) (token token' : json) (api_client api_client' : APIClient) :
  (run (authenticate self email password) st).1 = Ok (token, api_client) ->
  (run (authenticate api_client email' password') st').1 = Ok (token', api_client') ->
  api_client'
  = {| base_url := base_url self;
       session_headers := <["Authorization" := HBearer token']> (session_headers self) |}
  /\ forall tenant,
       request_headers api_client' (tenant_header tenant) !! "Authorization"
       = Some (HBearer token').
Proof.
  intros Hfirst Hsecond.
  assert (Hstep : forall c e p s t c',
            (run (authenticate c e p) s).1 = Ok (t, c') ->
            c' = {| base_url := base_url c;
                    session_headers := <["Authorization" := HBearer t]> (session_headers c) |}).
  { intros c e p s t c' H. rewrite run_authenticate in H. cbn [fst] in H.
    destruct (respond _ (world s)).1 as [resp|name]; [|discriminate H].
    destruct (status_code resp =? 200); [|discriminate H].
    destruct (decoded resp) as [[| | | | |fields]|]; try discriminate H.
    cbv zeta in H. destruct (truthy _); [|discriminate H].
    injection H as <- <-. reflexivity. }
  apply Hstep in Hfirst, Hsecond. subst api_client api_client'. cbn [base_url session_headers].
  rewrite insert_insert_eq. split; [reflexivity|]. intros tenant.
  unfold request_headers, tenant_header. cbn [session_headers].
  rewrite lookup_union_r by (apply lookup_singleton_ne; discriminate).
  apply lookup_insert_eq.
Qed.

(** X4. [create_project] sends one POST for the tenant.  It returns the
    decoded body exactly when the answer has status 200 or 201 and its body
    decodes to a JSON object; a 200 or 201 answer whose body decodes to
    anything else raises [AttributeError] (the log line reads the body's
    [id] with [.get]), and every other status raises "Project creation
    failed" with that status and body. *)
Theorem create_project_outcome (self : APIClient) (project : TestProject) (tenant : string)
    (st : state W) :
  let request :=
    SessionPost (Url (base_url self) Projects)
      (JObj [("name", JStr (name project)); ("description", JStr (description project));
             ("team_members", JArr (JStr <$> team_members project))])
      (request_headers self (tenant_header tenant)) 30 in
  let final := run (create_project self project tenant) st in
  trace final.2 = trace st ++ [Called request]
  /\ (forall v, final.1 = Ok v <->
        exists resp fields, (respond request (world st)).1 = Answer resp
          /\ (status_code resp = 200 \/ status_code resp = 201)
          /\ decoded resp = Some (JObj fields) /\ v = JObj fields)
  /\ (final.1 = Raise AttributeError <->
        exists resp v, (respond request (world st)).1 = Answer resp
          /\ (status_code resp = 200 \/ status_code resp = 201)
          /\ decoded resp = Some v /\ forall fields, v <> JObj fields)
  /\ (forall status body,
        final.1 = Raise (ProjectCreationFailed status body) <->
        exists resp, (respond request (world st)).1 = Answer resp
          /\ status_code resp = status /\ text resp = body
          /\ status <> 200 /\ status <> 201).
Proof.
  intros request final. subst final. rewrite run_create_project. fold request.
  cbn [fst snd trace]. split; [reflexivity|].
  destruct (respond request (world st)).1 as [resp|name];
    [destruct (Z.eqb_spec (status_code resp) 200) as [H200|H200];
     destruct (Z.eqb_spec (status_code resp) 201) as [H201|H201]; cbn [orb];
     try (destruct (decoded resp) as [[| | | | |fields']|] eqn:Hdecoded)|];
    (split; [intros v; split|split; [split|intros status body; split]]);
    intros H; try discriminate H;
    try (open_hyp H; simplify_eq; first [reflexivity|congruence|lia]);
    try (injection H as <-); try (injection H as <- <-);
    try (do 2 eexists; repeat split; eauto; congruence); eauto 12.
Qed.

(** X5. [get_project] sends one GET for the tenant and accepts status 200
    only: it returns the decoded body exactly for a 200 answer with a
    decodable body, and every other status, also 201, 204 and 404, raises
    "Failed to get project" with that status and body. *)
Theorem get_project_outcome (self : APIClient) (project_id : json) (tenant : string)
    (st : state W) :
  let request := SessionGet (Url (base_url self) (ProjectById project_id))
                   (request_headers self (tenant_header tenant)) 30 in
  let final := run (get_project self project_id tenant) st in
  trace final.2 = trace st ++ [Called request]
  /\ (forall v, final.1 = Ok v <->
        exists resp, (respond request (world st)).1 = Answer resp
          /\ status_code resp = 200 /\ decoded resp = Some v)
  /\ (forall status body,
        final.1 = Raise (GetProjectFailed status body) <->
        exists resp, (respond request (world st)).1 = Answer resp
          /\ status_code resp = status /\ text resp = body /\ status <> 200).
Proof.
  intros request final. subst final. rewrite run_get_project. fold request.
  cbn [fst snd trace]. split; [reflexivity|].
  destruct (respond request (world st)).1 as [resp|name];
    [destruct (Z.eqb_spec (status_code resp) 200) as [H200|H200];
     try (destruct (decoded resp) as [v'|] eqn:Hdecoded)|];
    (split; [intros v; split|intros status body; split]);
    intros H; try discriminate H;
    try (open_hyp H; simplify_eq; first [reflexivity|congruence|lia]);
    try (injection H as <-); try (injection H as <- <-); eauto 12.
Qed.

(** *** Further properties of the UI testers *)

Lemma script_bind {A B} (cs1 cs2 : list call) (p : prog A) (f : A -> prog B) :
  script cs1 p -> (forall a, script cs2 (f a)) -> script (cs1 ++ cs2) (bind p f).
Proof.
  intros Hp Hf. induction Hp as [a|c cs k Hk IH Hfault]; [apply Hf|].
  cbn. constructor; [exact IH|]. intros name.
  change (bind (k (Fault name)) f = Throw (LibraryError name)). rewrite Hfault. reflexivity.
Qed.

Lemma script_perform (c : call) : script [c] (perform c).
Proof. constructor; [intros a; constructor|reflexivity]. Qed.

Lemma script_run {A} (cs : list call) (p : prog A) (st : state W) :
  script cs p ->
  exists n, (n <= length cs)%nat
    /\ trace (run p st).2 = trace st ++ (Called <$> take n cs)
    /\ match (run p st).1 with
       | Ok _ => n = length cs
       | Raise e => (1 <= n)%nat /\ exists name, e = LibraryError name
       end.
Proof.
  intros Hp. revert st. induction Hp as [a|c cs k Hk IH Hfault]; intros st.
  - exists 0%nat. cbn. rewrite app_nil_r. auto.
  - change (run (Perform c k) st)
      with (let (r, st') := do_call respond c st in run (k r) st').
    unfold do_call. destruct (respond c (world st)) as [[a|name] w].
    + destruct (IH a (mkState w (trace st ++ [Called c]) (created_projects st)
                        (results_queue st))) as (n & Hle & Htrace & Hout).
      exists (S n). cbn [length take fmap list_fmap]. rewrite Htrace. cbn [trace].
      rewrite <- app_assoc. split; [lia|]. split; [reflexivity|].
      destruct (run (k (Answer a)) _).1; [lia|]. destruct Hout as [_ Hname]. split; [lia|exact Hname].
    + rewrite Hfault. exists 1%nat. cbn. split; [lia|]. split; [reflexivity|]. eauto.
Qed.

Ltac script_call :=
  match goal with |- script _ (perform ?c) => exact (script_perform c) end.

Lemma login_script (email password : string) :
  script (login_calls email password) (login email password).
Proof.
  unfold login, login_calls.
  repeat (apply (script_bind [_]); [script_call|intros ?]).
  script_call.
Qed.

(** X6. [WebUITester.login] performs its seven page calls in order and
    stops at the first one that raises: the calls it makes are a prefix of
    the seven, all seven when it returns, and it raises only what one of
    these calls raised. *)
Theorem login_stops_at_first_failure (email password : string) (st : state W) :
  let final := run (login email password) st in
  exists n, (n <= 7)%nat
    /\ trace final.2 = trace st ++ (Called <$> take n (login_calls email password))
    /\ (final.1 = Ok tt -> n = 7%nat)
    /\ (forall e, final.1 = Raise e -> (1 <= n)%nat /\ exists name, e = LibraryError name).
Proof.
  cbv zeta. destruct (script_run _ _ st (login_script email password))
    as (n & Hle & Htrace & Hout).
  exists n. split; [exact Hle|]. split; [exact Htrace|].
  destruct (run (login email password) st).1 as [[]|e'].
  - split; [intros _; exact Hout|intros e [=]].
  - split; [intros [=]|intros e [= <-]; exact Hout].
Qed.

Lemma expect_team_members_script (members : list string) :
  script (ExpectContainText ".team-members" <$> members) (expect_team_members members).
Proof.
  induction members as [|member rest IH]; [constructor|].
  cbn [expect_team_members]. rewrite fmap_cons.
  apply (script_bind [_]); [script_call|intros _; exact IH].
Qed.

Lemma verify_project_details_script (project : TestProject) :
  script (details_calls project) (verify_project_details project).
Proof.
  unfold verify_project_details, details_calls.
  do 4 (apply (script_bind [_]); [script_call|intros ?]).
  rewrite <- (app_nil_r (_ <$> team_members project)).
  apply script_bind; [apply expect_team_members_script|intros _; constructor].
Qed.

(** X7. [verify_project_details] never returns [False]: it returns [True]
    after checking the card, the details page, the title, the description
    and then every team member once, in the order of the list, or it raises
    what the first failing check raised, leaving the later checks out.
    With no team members it makes the four other checks only. *)
Theorem verify_project_details_checks_in_order (project : TestProject) (st : state W) :
  let final := run (verify_project_details project) st in
  (forall b, final.1 = Ok b ->
     b = true /\ trace final.2 = trace st ++ (Called <$> details_calls project))
  /\ (forall e, final.1 = Raise e ->
        exists n name, (1 <= n <= 4 + length (team_members project))%nat
          /\ e = LibraryError name
          /\ trace final.2 = trace st ++ (Called <$> take n (details_calls project))).
Proof.
  cbv zeta. destruct (script_run _ _ st (verify_project_details_script project))
    as (n & Hle & Htrace & Hout).
  assert (Hlen : length (details_calls project) = (4 + length (team_members project))%nat).
  { unfold details_calls. rewrite length_app, length_fmap. reflexivity. }
  assert (Hbool : forall b, (run (verify_project_details project) st).1 = Ok b -> b = true).
  { clear. intros b. unfold verify_project_details.
    do 5 (rewrite run_bind; destruct (run _ _).1 as [?|?]; [cbv beta iota|intros [=]]).
    rewrite run_Return. intros [= <-]. reflexivity. }
  split.
  - intros b Hb. split; [exact (Hbool b Hb)|]. rewrite Hb in Hout. subst n.
    rewrite Htrace, firstn_all. reflexivity.
  - intros e He. rewrite He in Hout. destruct Hout as [Hn [name ->]].
    exists n, name. split; [lia|]. split; [reflexivity|exact Htrace].
Qed.

Lemma browser_closes_silent {A} (p : prog A) (st : state W) :
  emits (fun e => close_of e = None) p ->
  browser_closes (trace (run p st).2) = browser_closes (trace st).
Proof. intros Hp. unfold browser_closes. rewrite (emits_silent _ _ _ Hp). reflexivity. Qed.

Lemma run_close (st : state W) :
  browser_closes (trace (run (perform BrowserClose) st).2) = S (browser_closes (trace st)).
Proof.
  rewrite run_perform. unfold do_call. destruct (respond BrowserClose (world st)) as [r w].
  cbn [snd trace]. unfold browser_closes. rewrite omap_app, length_app. cbn. lia.
Qed.

(** X8. [test_mobile_accessibility] closes the browser exactly once
    whenever the mobile browser was created, whether the login, the
    dashboard check or the touch interactions pass, fail or raise; when the
    creation raises, that exception reaches the caller and nothing is
    closed. *)
Theorem test_mobile_accessibility_closes_browser (project_name email password : string)
    (device : device_type) (st : state W) :
  let created := run (create_mobile_browser device) st in
  let final := run (test_mobile_accessibility project_name email password device) st in
  (created.1 = Ok tt ->
   browser_closes (trace final.2) = S (browser_closes (trace st)))
  /\ (forall e, created.1 = Raise e ->
        final = (Raise e, created.2)
        /\ browser_closes (trace final.2) = browser_closes (trace st)).
Proof.
  cbv zeta. unfold test_mobile_accessibility. rewrite run_bind.
  assert (Hcreated : browser_closes (trace (run (create_mobile_browser device) st).2)
                     = browser_closes (trace st)).
  { apply browser_closes_silent. unfold create_mobile_browser. emits_tac. }
  destruct (run (create_mobile_browser device) st) as [[[]|e] st1]; cbn [fst snd] in *.
  - split; [intros _|intros e [=]].
    rewrite run_try_finally. cbn [snd]. rewrite run_close, browser_closes_silent, Hcreated;
      [reflexivity|].
    unfold login, verify_project_in_dashboard, open_project_list, _test_mobile_interactions.
    emits_tac.
  - split; [intros [=]|intros e' [= <-]]. split; [reflexivity|exact Hcreated].
Qed.

Lemma last_in_rest {X} (l pre post : list X) (x e : X) :
  l ++ [x] = pre ++ e :: post -> e <> x -> x ∈ post.
Proof.
  intros Heq Hne. destruct post as [|y post' _] using rev_ind.
  - apply app_inj_tail in Heq as [_ Hx]. congruence.
  - rewrite app_comm_cons, app_assoc in Heq. apply app_inj_tail in Heq as [_ ->].
    apply elem_of_app. right. apply list_elem_of_here.
Qed.

Lemma not_page_kinds (ks : list kind) (evs : list event) (e : event) :
  Forall (of_kinds ks) evs -> kind_mem KGoto ks = false -> kind_mem KPage ks = false ->
  uses_page e -> e ∉ evs.
Proof.
  intros Hall Hgoto Hpage Huse Hin. rewrite Forall_forall in Hall.
  specialize (Hall e Hin). unfold of_kinds in Hall. destruct Huse as [Hk|Hk];
    rewrite Hk in Hall; congruence.
Qed.

(** The effects of a [with sync_playwright()] block: the start, then those
    of the body, then the stop, unless the start raises. *)
Lemma with_playwright_events {A} (body : prog A) (st : state W) :
  let final := run (with_playwright body) st in
  match (respond PlaywrightStart (world st)).1 with
  | Fault name =>
      final.1 = Raise (LibraryError name) /\ trace final.2 = trace st ++ [Called PlaywrightStart]
  | Answer _ =>
      let st1 := (do_call respond PlaywrightStart st).2 in
      trace final.2 = trace (run body st1).2 ++ [Called PlaywrightStop]
      /\ trace st1 = trace st ++ [Called PlaywrightStart]
      /\ (forall a, final.1 = Ok a -> (run body st1).1 = Ok a)
  end.
Proof.
  cbv zeta. unfold with_playwright. rewrite run_bind, run_perform. unfold do_call.
  destruct (respond PlaywrightStart (world st)) as [[a|name] w]; cbn [fst snd trace];
    [|split; reflexivity].
  rewrite run_try_finally, (run_perform PlaywrightStop). unfold do_call.
  destruct (respond PlaywrightStop _) as [[a'|name'] w']; cbn [fst snd trace].
  - repeat split. auto.
  - repeat split. intros a0 [=].
Qed.

(** X9. In [test_mobile_accessibility] the Playwright session is already
    stopped when the page is first used: [create_mobile_browser] returns
    from inside its [with sync_playwright()] block, so every call on the
    page or its locators comes after [PlaywrightStop]. *)
Theorem mobile_page_used_after_playwright_stop (project_name email password : string)
    (device : device_type) (st : state W) :
  exists evs,
    trace (run (test_mobile_accessibility project_name email password device) st).2
      = trace st ++ evs
    /\ forall pre e post,
         evs = pre ++ e :: post -> uses_page e -> Called PlaywrightStop ∈ pre.
Proof.
  unfold test_mobile_accessibility. rewrite run_bind.
  pose proof (with_playwright_events
                (let! _ := perform ChromiumLaunch in
                 let! _ := perform (NewContext device) in perform NewPage) st) as Hwith.
  cbv zeta in Hwith. fold (create_mobile_browser device) in Hwith.
  destruct (run_effects _ _ st (create_mobile_browser_effects device))
    as (evs1 & Htr1 & Hall1 & _).
  destruct (run (create_mobile_browser device) st) as [[[]|e] st1] eqn:Hcreated;
    cbn [fst snd] in *.
  - match goal with |- context [run ?q st1] =>
      destruct (run_effects [KBrowser; KGoto; KPage] q st1 ltac:(emits_tac))
        as (evs2 & Htr2 & _) end.
    exists (evs1 ++ evs2). rewrite Htr2, Htr1, <- app_assoc. split; [reflexivity|].
    intros pre e post Heq Huse.
    assert (Hstop : Called PlaywrightStop ∈ evs1).
    { destruct (respond PlaywrightStart (world st)).1.
      2: { destruct Hwith as [Hraise _].
           pose proof (eq_trans (eq_sym (f_equal fst Hcreated)) Hraise) as Hbad.
           discriminate Hbad. }
      destruct Hwith as (Hstop' & _).
      pose proof (eq_trans (eq_sym (f_equal (fun r => trace r.2) Hcreated)) Hstop') as Hstop.
      cbn beta in Hstop. cbn [snd] in Hstop. clear Hstop'. rewrite Htr1 in Hstop.
      destruct (trace_grows (let! _ := perform ChromiumLaunch in
                             let! _ := perform (NewContext device) in perform NewPage)
                  (do_call respond PlaywrightStart st).2) as [evs_b Hb].
      rewrite Hb in Hstop. destruct (trace_grows (perform PlaywrightStart) st) as [evs_s Hs].
      assert (Hst : trace (do_call respond PlaywrightStart st).2 = trace st ++ [Called PlaywrightStart]).
      { unfold do_call. destruct (respond PlaywrightStart (world st)). reflexivity. }
      rewrite Hst, <- !app_assoc in Hstop. apply app_inv_head in Hstop. rewrite Hstop.
      set_solver. }
    apply app_eq_app in Heq as [l [[Hevs1 Hrest]|[Hpre _]]].
    + destruct l as [|e' l'].
      * rewrite app_nil_r in Hevs1. subst pre. exact Hstop.
      * injection Hrest as <- _. exfalso.
        apply (not_page_kinds _ evs1 e Hall1 eq_refl eq_refl Huse). rewrite Hevs1. set_solver.
    + rewrite Hpre. set_solver.
  - exists evs1. split; [exact Htr1|]. intros pre e' post Heq Huse. exfalso.
    apply (not_page_kinds _ evs1 e' Hall1 eq_refl eq_refl Huse). rewrite Heq. set_solver.
Qed.

Lemma close_is_no_page_use (e : event) : uses_page e -> e <> Called BrowserClose.
Proof. intros [Hk|Hk] ->; discriminate Hk. Qed.

(** What happens between the start and the stop of Playwright in
    [_test_desktop_platform]. *)
Lemma desktop_session_events (project_name email password : string) (st : state W) :
  exists body,
    trace (run (let! _ := perform ChromiumLaunch in
                let! _ := perform NewPage in
                try_finally
                  (let! _ := login email password in
                   verify_project_in_dashboard project_name 30000)
                  (perform BrowserClose)) st).2 = trace st ++ body
    /\ Forall (of_kinds [KBrowser; KGoto; KPage]) body
    /\ forall pre e post,
         body = pre ++ e :: post -> uses_page e -> Called BrowserClose ∈ post.
Proof.
  rewrite run_bind, (run_perform ChromiumLaunch). unfold do_call.
  destruct (respond ChromiumLaunch (world st)) as [[[]|name] w1]; cbn [fst snd trace].
  2: { exists [Called ChromiumLaunch]. split; [reflexivity|]. split; [repeat constructor|].
       intros pre e post Heq Huse. exfalso.
       apply (not_page_kinds [KBrowser] [Called ChromiumLaunch] e); [repeat constructor|reflexivity..|exact Huse|].
       rewrite Heq. set_solver. }
  rewrite run_bind, (run_perform NewPage). unfold do_call. cbn [world trace].
  destruct (respond NewPage w1) as [[[]|name] w2]; cbn [fst snd trace].
  2: { exists [Called ChromiumLaunch; Called NewPage]. rewrite <- app_assoc.
       split; [reflexivity|]. split; [repeat constructor|].
       intros pre e post Heq Huse. exfalso.
       apply (not_page_kinds [KBrowser] [Called ChromiumLaunch; Called NewPage] e);
         [repeat constructor|reflexivity..|exact Huse|].
       rewrite Heq. set_solver. }
  rewrite run_try_finally. cbn [snd]. rewrite (run_perform BrowserClose). unfold do_call.
  match goal with |- context [run ?q ?s] =>
    destruct (run_effects [KGoto; KPage] q s ltac:(emits_tac)) as (inner & Hinner & Hall & _);
    destruct (respond BrowserClose (world (run q s).2)) as [r w3] end.
  cbn [snd trace] in *. rewrite Hinner.
  exists (([Called ChromiumLaunch; Called NewPage] ++ inner) ++ [Called BrowserClose]).
  split; [rewrite <- !app_assoc; reflexivity|]. split.
  - rewrite !Forall_app. repeat split; [repeat constructor| |repeat constructor].
    eapply Forall_impl; [exact Hall|]. intros e. unfold of_kinds.
    destruct (kind_of e); intros H; first [reflexivity|discriminate H].
  - intros pre e post Heq Huse. eapply last_in_rest; [exact Heq|].
    apply close_is_no_page_use, Huse.
Qed.

(** X10. [_test_desktop_platform] releases what it opened: when Playwright
    starts, its stop is the last effect of the call, after everything done
    with the browser, and every use of the page is followed by
    [browser.close()], whether the login and the dashboard check pass, fail
    or raise; when Playwright does not start, nothing else is attempted. *)
Theorem desktop_platform_releases_resources (platform project_name email password : string)
    (st : state W) :
  let final := run (_test_desktop_platform platform project_name email password) st in
  match (respond PlaywrightStart (world st)).1 with
  | Fault name =>
      final.1 = Raise (LibraryError name)
      /\ trace final.2 = trace st ++ [Called PlaywrightStart]
  | Answer _ =>
      exists body,
        trace final.2 = trace st ++ Called PlaywrightStart :: body ++ [Called PlaywrightStop]
        /\ Forall (of_kinds [KBrowser; KGoto; KPage]) body
        /\ forall pre e post,
             body = pre ++ e :: post -> uses_page e -> Called BrowserClose ∈ post
  end.
Proof.
  cbv zeta. unfold _test_desktop_platform.
  match goal with |- context [run (with_playwright ?b) st] =>
    pose proof (with_playwright_events b st) as Hwith end.
  cbv zeta in Hwith. destruct (respond PlaywrightStart (world st)).1 as [a|name]; [|exact Hwith].
  destruct Hwith as (Hfinal & Hstart & _).
  destruct (desktop_session_events project_name email password
              (do_call respond PlaywrightStart st).2) as (body & Hbody & Hall & Hclose).
  exists body. split; [|split; assumption].
  rewrite Hfinal, Hbody, Hstart, <- !app_assoc. reflexivity.
Qed.

Lemma test_platform_desktop (platform project_name email password : string) :
  contains "mobile" (lower platform) || contains "android" platform
    || contains "iphone" platform = false ->
  test_platform platform project_name email password
  = _test_desktop_platform platform project_name email password.
Proof. unfold test_platform. intros ->. reflexivity. Qed.

Lemma test_mobile_accessibility_android_spares_iphone (project_name email password : string) :
  emits (fun e => requests_iphone e = false)
        (test_mobile_accessibility project_name email password android).
Proof.
  unfold test_mobile_accessibility, create_mobile_browser, login, verify_project_in_dashboard,
    open_project_list, _test_mobile_interactions.
  emits_tac.
Qed.

Lemma _test_desktop_platform_spares_iphone (platform project_name email password : string) :
  emits (fun e => requests_iphone e = false)
        (_test_desktop_platform platform project_name email password).
Proof.
  unfold _test_desktop_platform, login, verify_project_in_dashboard, open_project_list.
  emits_tac.
Qed.

(** X11. [test_cross_platform] never asks for the iPhone emulation: of its
    four platforms only [chrome_android] takes the mobile branch, and
    [safari_ios], whose name holds neither [mobile], [android] nor
    [iphone], is checked as a desktop browser.  So no run of it contains a
    [new_context] call for the iPhone device. *)
Theorem test_cross_platform_never_emulates_iphone (project_name email password : string)
    (st : state W) :
  test_platform "safari_ios" project_name email password
    = _test_desktop_platform "safari_ios" project_name email password
  /\ exists evs,
       trace (run (test_cross_platform project_name email password) st).2 = trace st ++ evs
       /\ Forall (fun e => requests_iphone e = false) evs.
Proof.
  split; [apply test_platform_desktop; reflexivity|].
  apply emits_run. unfold test_cross_platform, platforms. cbn [test_cross_platform_over].
  pose proof (test_mobile_accessibility_android_spares_iphone project_name email password).
  pose proof (fun platform =>
                _test_desktop_platform_spares_iphone platform project_name email password).
  repeat first
    [ assumption
    | match goal with
      | |- emits _ (bind _ _) => apply emits_bind; [|intros ?]
      | |- emits _ (try_except _ _) => apply emits_try_except; [|intros ?]
      | |- emits _ (Return _) => apply emits_Return
      | H : forall _, emits _ _ |- emits _ (_test_desktop_platform _ _ _ _) => apply H
      | |- emits _ (test_platform "chrome_android" _ _ _) =>
          change (test_platform "chrome_android" project_name email password)
            with (test_mobile_accessibility project_name email password android)
      | |- emits _ (test_platform ?platform _ _ _) =>
          rewrite (test_platform_desktop platform) by reflexivity
      end ].
Qed.

(** *** test_project_creation_flow: the edges of STEP 1 and the [finally] block *)

Lemma cleanup_of_nothing (st : state W) :
  registrations (trace (run (cleanup_projects []) st).2) = registrations (trace st)
  /\ deletions (trace (run (cleanup_projects []) st).2) = deletions (trace st).
Proof.
  split.
  - apply (unobserved KAppend [KPost; KDelete]);
      [apply registration_unobserved|reflexivity|apply cleanup_projects_effects].
  - destruct (cleanup_projects_deletions [] st) as [Hok Hraise]. cbv zeta in Hok, Hraise.
    destruct (run (authenticate new_APIClient "admin@company1.com" "password123") st).1
      as [auth|e].
    + rewrite Hok by eauto. cbn. apply app_nil_r.
    + apply Hraise. eauto.
Qed.

(** X12. When STEP 1 raises before the project id is read (the login, the
    token check, the creation request or the read of the response fails),
    the test ends with that exception right there: nothing is appended to
    the cleanup list, the [finally] block sends no request, and the cleanup
    fixture deletes nothing. *)
Theorem failed_creation_registers_nothing (test_project : TestProject) (st : state W)
    (e : exn) :
  let st0 := mkState (world st) (trace st) [] (results_queue st) in
  let created := run (flow_create test_project new_APIClient) st0 in
  let final := run_test_project_creation_flow respond elapse test_project st in
  created.1 = Raise e ->
  run (test_project_creation_flow test_project new_APIClient) st0 = (Raise e, created.2)
  /\ created_projects created.2 = []
  /\ final.1 = Raise e
  /\ registrations (trace final.2) = registrations (trace st)
  /\ deletions (trace final.2) = deletions (trace st).
Proof.
  intros st0 created final Hraise.
  destruct (run_effects _ _ st0 (flow_create_effects test_project new_APIClient))
    as (evs0 & Htr0 & Hall0 & Hreg0).
  fold created in Htr0, Hreg0.
  assert (Hr0 : registrations evs0 = []) by (apply (no_registrations _ _ Hall0); reflexivity).
  assert (Hd0 : deletions evs0 = []) by (apply (no_deletions _ _ Hall0); reflexivity).
  assert (Htest : run (test_project_creation_flow test_project new_APIClient) st0
                  = (Raise e, created.2)).
  { unfold test_project_creation_flow. rewrite run_on_outcome. fold created.
    rewrite Hraise. reflexivity. }
  assert (Hcp : created_projects created.2 = []) by (rewrite Hreg0, Hr0; reflexivity).
  split; [exact Htest|]. split; [exact Hcp|].
  subst final. unfold run_test_project_creation_flow. fold st0. rewrite Htest, Hcp.
  destruct (cleanup_of_nothing created.2) as [Hr Hd].
  destruct (run (cleanup_projects []) created.2) as [outcome st2]. cbn [fst snd] in *.
  split; [reflexivity|]. rewrite Hr, Hd, Htr0, registrations_app, deletions_app, Hr0, Hd0,
    !app_nil_r. auto.
Qed.

(** X13. When the creation response carries no usable id ([id] missing,
    [None], [0] or empty), the entry is still appended to the cleanup list
    and the test stops at once with the assertion error on the id: no UI
    step is run and the [finally] block skips its GET. *)
Theorem missing_id_fails_after_registration (test_project : TestProject)
    (api_client api_client' : APIClient) (project_response created_project_id : json)
    (st st_c : state W) :
  run (flow_create test_project api_client) st
    = (Ok (api_client', project_response, created_project_id), st_c) ->
  truthy created_project_id = false ->
  run (test_project_creation_flow test_project api_client) st
  = (Raise (AssertionError NoProjectId), do_append (created_project_id, COMPANY1_ID) st_c).
Proof.
  intros Hcreate Hid. unfold test_project_creation_flow.
  rewrite run_on_outcome, Hcreate. cbn [fst snd]. cbv beta iota. rewrite run_try_finally.
  unfold flow_after_create, flow_finally. rewrite Hid.
  change (run (Append ?entry ?k) ?s) with (run k (do_append entry s)).
  rewrite run_bind. reflexivity.
Qed.

(** X14. The [finally] block of [test_project_creation_flow] never changes
    the outcome of the test: once the id is read, the test passes or raises
    exactly as its [try] body does.  The block sends one GET for the
    created project under [company1] when the id is truthy, whatever the
    answer, and nothing otherwise. *)
Theorem finally_block_keeps_outcome (test_project : TestProject)
    (api_client api_client' : APIClient) (project_response created_project_id : json)
    (st st_c : state W) :
  run (flow_create test_project api_client) st
    = (Ok (api_client', project_response, created_project_id), st_c) ->
  let body :=
    run (flow_after_create test_project api_client' project_response created_project_id) st_c in
  let final := run (test_project_creation_flow test_project api_client) st in
  final.1 = body.1
  /\ trace final.2
     = trace body.2
       ++ (if truthy created_project_id
           then [Called (SessionGet (Url (base_url api_client') (ProjectById created_project_id))
                           (request_headers api_client' (tenant_header COMPANY1_ID)) 30)]
           else [])
  /\ created_projects final.2 = created_projects body.2.
Proof.
  intros Hcreate body final. subst final. unfold test_project_creation_flow.
  rewrite run_on_outcome, Hcreate. cbn [fst snd]. cbv beta iota. rewrite run_try_finally.
  fold body.
  unfold flow_finally. destruct (truthy created_project_id).
  - rewrite run_try_except, run_bind, run_get_project. cbv zeta. cbn [fst snd].
    destruct (respond _ (world body.2)) as [[resp|name] w]; cbn [fst snd].
    + destruct (status_code resp =? 200); [destruct (decoded resp)|];
        cbn [fst snd trace created_projects run]; destruct body.1; auto.
    + cbn [fst snd trace created_projects run]. destruct body.1; auto.
  - cbn [run fst snd]. rewrite app_nil_r. destruct body.1; auto.
Qed.

(** *** The cross-platform stage *)

Lemma sum_values_all (results : gmap string bool) :
  sum_values results = len results <-> map_Forall (fun _ passed => passed = true) results.
Proof.
  unfold sum_values, len.
  enough (H : 0 <= map_fold (fun _ (b : bool) acc => Z.b2z b + acc) 0 results
                  <= Z.of_nat (size results)
              /\ (map_fold (fun _ (b : bool) acc => Z.b2z b + acc) 0 results
                  = Z.of_nat (size results)
                  <-> map_Forall (fun _ passed => passed = true) results)) by apply H.
  apply (map_fold_weak_ind (fun r (m : gmap string bool) =>
           0 <= r <= Z.of_nat (size m)
           /\ (r = Z.of_nat (size m) <-> map_Forall (fun _ passed => passed = true) m))).
  - rewrite map_size_empty. split; [lia|]. split; [intros _; apply map_Forall_empty|reflexivity].
  - intros i x m r Hi [Hr Hiff]. rewrite (map_size_insert_None _ _ _ Hi).
    rewrite (map_Forall_insert _ _ _ _ Hi). destruct x; cbn [Z.b2z].
    + split; [lia|]. rewrite <- Hiff. split; [intros H; split; [reflexivity|lia]|intros [_ H]; lia].
    + split; [lia|]. split; [lia|intros [[=] _]].
Qed.

(** X15. With the four platforms of [test_cross_platform], the 80%
    threshold of STEP 5 tolerates no failure: the stage passes exactly when
    every one of the four platforms is recorded as [True].  One platform
    that fails or raises gives 0.75 and fails the stage. *)
Theorem cross_platform_stage_needs_every_platform (test_project : TestProject)
    (st : state W) :
  exists results : gmap string bool,
    (run (test_cross_platform (name test_project) ADMIN_EMAIL PASSWORD) st).1 = Ok results
    /\ dom results = list_to_set platforms
    /\ ((run (flow_cross_platform test_project) st).1 = Ok tt
        <-> forall platform, platform ∈ platforms -> results !! platform = Some true).
Proof.
  unfold test_cross_platform.
  destruct (test_cross_platform_over_total platforms (name test_project) ADMIN_EMAIL PASSWORD
              ∅ st) as (results & Hresults & Hdom & _).
  rewrite dom_empty_L, union_empty_r_L in Hdom.
  exists results. split; [exact Hresults|]. split; [exact Hdom|].
  assert (Hlen : len results = 4).
  { unfold len. rewrite <- size_dom, Hdom. vm_compute. reflexivity. }
  pose proof (sum_values_bounds results) as Hsum.
  destruct (threshold_decision (sum_values results) (len results) ltac:(lia) ltac:(lia))
    as (rate & Hrate & Hdecision).
  fold (test_cross_platform (name test_project) ADMIN_EMAIL PASSWORD) in Hresults.
  rewrite (run_flow_cross_platform _ _ _ _ Hresults Hrate).
  assert (Hall : float_ge rate threshold = true
                 <-> map_Forall (fun _ passed => passed = true) results).
  { rewrite Hdecision, <- sum_values_all. lia. }
  assert (Hkeys : map_Forall (fun _ passed => passed = true) results
                  <-> forall platform, platform ∈ platforms -> results !! platform = Some true).
  { split.
    - intros Hforall platform Hin.
      assert (Hd : platform ∈ dom results) by (rewrite Hdom; set_solver).
      apply elem_of_dom in Hd as [passed Hp]. rewrite Hp. f_equal. exact (Hforall _ _ Hp).
    - intros Hevery platform passed Hp.
      assert (Hin : platform ∈ platforms).
      { assert (Hd : platform ∈ dom results) by (apply elem_of_dom; eauto).
        rewrite Hdom in Hd. set_solver. }
      specialize (Hevery _ Hin). congruence. }
  rewrite <- Hkeys, <- Hall. destruct (float_ge rate threshold); split; congruence.
Qed.

(** *** The cleanup fixture *)

Lemma run_delete_projects (api_client : APIClient) (entries : list (json * string))
    (st : state W) :
  (run (delete_projects api_client entries) st).1 = Ok tt
  /\ trace (run (delete_projects api_client entries) st).2
     = trace st ++ ((fun entry => Called (delete_request api_client entry)) <$> entries).
Proof.
  revert st. induction entries as [|[project_id tenant] rest IH]; intros st.
  - cbn. rewrite app_nil_r. auto.
  - cbn [delete_projects]. rewrite run_bind.
    destruct (delete_project_returns api_client project_id tenant st) as [b Hb].
    rewrite Hb. destruct (IH (run (delete_project api_client project_id tenant) st).2)
      as [Hok Htr].
    split; [exact Hok|]. rewrite Htr, delete_project_trace, fmap_cons, <- app_assoc.
    reflexivity.
Qed.

(** X16. The cleanup after the test never raises.  When its login
    succeeds it sends exactly one DELETE per registered entry, in the order
    of registration and with the token of that login, and goes on to the
    next entry whatever a DELETE answers or raises; when the login fails it
    sends nothing more. *)
Theorem cleanup_projects_never_raises (entries : list (json * string)) (st : state W) :
  let login := run (authenticate new_APIClient "admin@company1.com" "password123") st in
  let final := run (cleanup_projects entries) st in
  final.1 = Ok tt
  /\ match login.1 with
     | Ok (token, api_client) =>
         trace final.2
         = trace login.2 ++ ((fun entry => Called (delete_request api_client entry)) <$> entries)
     | Raise _ => final.2 = login.2
     end.
Proof.
  cbv zeta. unfold cleanup_projects. rewrite run_try_except, run_bind.
  destruct (run (authenticate new_APIClient "admin@company1.com" "password123") st)
    as [[[token api_client]|e] st1]; cbn [fst snd].
  - destruct (run_delete_projects api_client entries st1) as [Hok Htr].
    rewrite Hok. auto.
  - rewrite run_Return. auto.
Qed.

(** *** The workers of the concurrent test *)

Lemma queue_untouched {A} (ks : list kind) (p : prog A) (st : state W) :
  emits (of_kinds ks) p -> kind_mem KPut ks = false ->
  results_queue (run p st).2 = results_queue st.
Proof.
  intros Hp Hks. revert st.
  induction Hp as [a|e|c k HP Hk IH|s k HP Hk IH|x k HP Hk IH|x k HP Hk IH]; intros st;
    try reflexivity.
  - cbn. unfold do_call. destruct (respond c (world st)) as [r w]. rewrite IH. reflexivity.
  - cbn. rewrite IH. reflexivity.
  - cbn. rewrite IH. reflexivity.
  - unfold of_kinds in HP. cbn in HP. congruence.
Qed.

(** X17. A worker of the concurrent test never raises and puts exactly one
    item on the results queue, under its own worker id.  The item reports
    success exactly when the login and the creation succeeded and the
    creation returned a JSON object; it then carries that object's [id],
    which is [None] when the object has none.  Every failure is reported as
    [(worker_id, False, None)]. *)
Theorem create_project_worker_reports_once (worker_id : nat) (st : state W) :
  let login := run (authenticate new_APIClient "admin@company1.com" "password123") st in
  let final := run (create_project_worker worker_id) st in
  final.1 = Ok tt
  /\ exists (success : bool) (project_id : json),
       results_queue final.2 = results_queue st ++ [(worker_id, success, project_id)]
       /\ (success = false -> project_id = JNull)
       /\ (success = true <->
           exists token api_client fields,
             login.1 = Ok (token, api_client)
             /\ (run (create_project api_client (worker_project worker_id) "company1")
                   login.2).1 = Ok (JObj fields)
             /\ project_id = default JNull (fields_get fields "id")).
Proof.
  cbv zeta. unfold create_project_worker. rewrite run_try_except, run_bind.
  pose proof (queue_untouched [KPost] _ st
                (authenticate_effects new_APIClient "admin@company1.com" "password123")
                eq_refl) as Hq1.
  destruct (run (authenticate new_APIClient "admin@company1.com" "password123") st)
    as [[[token api_client]|e] st1]; cbn [fst snd] in *.
  2: { split; [reflexivity|]. exists false, JNull. cbn [run fst snd do_put results_queue]. rewrite Hq1.
       split; [reflexivity|]. split; [reflexivity|].
       split; [intros [=]|intros (? & ? & ? & [=] & _)]. }
  fold (worker_project worker_id). rewrite run_bind.
  pose proof (queue_untouched [KPost] _ st1
                (create_project_effects api_client (worker_project worker_id) "company1")
                eq_refl) as Hq2.
  destruct (run (create_project api_client (worker_project worker_id) "company1") st1)
    as [[project_response|e] st2] eqn:Hcreate; cbn [fst snd] in *.
  2: { split; [reflexivity|]. exists false, JNull. cbn [run fst snd do_put results_queue]. rewrite Hq2, Hq1.
       split; [reflexivity|]. split; [reflexivity|].
       split; [intros [=]|intros (? & ? & ? & [= <- <-] & Hok & _)].
       rewrite Hcreate in Hok. discriminate Hok. }
  rewrite run_bind. unfold dict_get.
  destruct project_response as [| | | | |fields]; cbn [run fst snd do_put results_queue];
    try (split; [reflexivity|]; exists false, JNull; rewrite Hq2, Hq1;
         split; [reflexivity|]; split; [reflexivity|];
         split; [intros [=]|intros (? & ? & ? & [= <- <-] & Hok & _)];
         rewrite Hcreate in Hok; discriminate Hok).
  split; [reflexivity|]. exists true, (default JNull (fields_get fields "id")).
  rewrite Hq2, Hq1. split; [reflexivity|]. split; [intros [=]|].
  split; [intros _|reflexivity].
  exists token, api_client, fields. rewrite Hcreate. auto.
Qed.

(** *** The pauses of navigate_to_login *)

Lemma sleeps_app (tr1 tr2 : list event) : sleeps (tr1 ++ tr2) = sleeps tr1 ++ sleeps tr2.
Proof. apply omap_app. Qed.

Lemma navigate_once_events (st : state W) :
  sleeps (trace (run LoginPage.navigate_once st).2) = sleeps (trace st)
  /\ exists tr c, trace (run LoginPage.navigate_once st).2 = tr ++ [Called c].
Proof.
  split.
  - apply (unobserved KSleep [KGoto; KPage]); [|reflexivity|unfold LoginPage.navigate_once; emits_tac].
    intros [c| | |]; simpl; congruence.
  - unfold LoginPage.navigate_once. rewrite run_bind, run_perform. unfold do_call.
    destruct (respond _ (world st)) as [[[]|name] w1]; cbn [fst snd]; [|eauto].
    rewrite run_bind, (run_perform (WaitForLoadState "domcontentloaded")). unfold do_call.
    destruct (respond _ _) as [[[]|name] w2]; cbn [fst snd]; [|eauto].
    rewrite (run_perform (ExpectUrlPattern ".*\/login.*")). unfold do_call.
    destruct (respond _ _) as [r w3]; cbn [fst snd]. eauto.
Qed.

Lemma navigate_attempts_pauses (max_retries remaining : nat) (st : state W) :
  (1 <= remaining <= max_retries)%nat ->
  let final := run (LoginPage.navigate_attempts max_retries remaining) st in
  exists failed : nat,
    (failed < remaining)%nat
    /\ gotos (trace final.2) = (gotos (trace st) + S failed)%nat
    /\ sleeps (trace final.2) = sleeps (trace st) ++ replicate failed 2
    /\ exists tr c, trace final.2 = tr ++ [Called c].
Proof.
  cbv zeta. revert st. induction remaining as [|rest IH]; intros st Hle; [lia|].
  rewrite run_navigate_attempts. pose proof (navigate_once_gotos st) as Hg.
  destruct (navigate_once_events st) as [Hs Hlast].
  destruct (run LoginPage.navigate_once st).1 as [a|e]; cbn [snd].
  { exists 0%nat. rewrite Hg, Hs, app_nil_r. repeat split; [lia|lia|exact Hlast]. }
  destruct (Nat.eqb_spec (max_retries - S rest) (max_retries - 1)) as [Heq|Hne]; cbn [snd].
  { exists 0%nat. rewrite Hg, Hs, app_nil_r. repeat split; [lia|lia|exact Hlast]. }
  destruct (IH (do_sleep elapse 2 (run LoginPage.navigate_once st).2) ltac:(lia))
    as (failed & Hlt & Hgotos & Hsleeps & Hend).
  exists (S failed). rewrite Hgotos, Hsleeps, do_sleep_gotos, Hg.
  unfold do_sleep. cbn [trace]. rewrite sleeps_app, Hs, <- app_assoc.
  repeat split; [lia|lia|exact Hend].
Qed.

(** X18. [navigate_to_login] pauses two seconds after each failed attempt
    that is followed by another one, and never after the attempt that ends
    the call: in every run the pauses added are [failed] times 2 seconds,
    where [failed + 1 <= 3] is the number of [page.goto] calls made, and
    the last effect of the call is a call on the page, not a pause. *)
Theorem navigate_to_login_pauses_between_attempts (st : state W) :
  let final := run LoginPage.navigate_to_login st in
  exists failed : nat,
    (failed < 3)%nat
    /\ gotos (trace final.2) = (gotos (trace st) + S failed)%nat
    /\ sleeps (trace final.2) = sleeps (trace st) ++ replicate failed 2
    /\ exists tr c, trace final.2 = tr ++ [Called c].
Proof. apply navigate_attempts_pauses. lia. Qed.

(** *** Every worker reports once *)

Lemma emits_inv {A} (P : event -> Prop) (p : prog A) :
  emits P p ->
  match p with
  | Perform c k => forall r, emits P (k r)
  | Sleep _ k | Append _ k => emits P k
  | QueuePut item k => P (Enqueued item) /\ emits P k
  | _ => True
  end.
Proof. intros H. destruct H; auto. Qed.

Lemma create_project_worker_own_items (worker_id : nat) :
  emits (own_items worker_id) (create_project_worker worker_id).
Proof.
  assert (Hposts : forall e, of_kinds [KPost] e -> own_items worker_id e).
  { intros [c| | |item] He; try exact I. discriminate He. }
  unfold create_project_worker. apply emits_try_except.
  - apply emits_bind; [apply (emits_weaken _ _ _ Hposts), authenticate_effects|intros auth].
    cbv zeta.
    apply emits_bind; [apply (emits_weaken _ _ _ Hposts), create_project_effects|intros resp].
    apply emits_bind; [unfold dict_get; destruct resp; constructor|intros project_id].
    constructor; [reflexivity|constructor].
  - intros e. constructor; [reflexivity|constructor].
Qed.

Lemma reporting_step (wn : nat * nat) (t : prog unit) (st : state W) :
  reporting wn t ->
  exists n', reporting (wn.1, n') (step_thread respond elapse t st).1
    /\ (wn.2 <= n')%nat
    /\ worker_ids (results_queue (step_thread respond elapse t st).2)
       = worker_ids (results_queue st) ++ replicate (n' - wn.2) wn.1.
Proof.
  destruct wn as [w n]. intros [Hc He]. cbn [fst snd] in *.
  destruct Hc as [n a|n e|n c k Hk|n s k Hk|n x k Hk|n x k Hk]; apply emits_inv in He;
    cbn [step_thread].
  - exists n. rewrite Nat.sub_diag, app_nil_r.
    repeat split; [constructor; assumption|constructor|lia].
  - exists n. rewrite Nat.sub_diag, app_nil_r.
    repeat split; [constructor; assumption|constructor|lia].
  - unfold do_call. destruct (respond c (world st)) as [r w']. exists n.
    rewrite Nat.sub_diag, app_nil_r. cbn [fst snd results_queue].
    repeat split; [apply Hk|apply He|lia].
  - exists n. rewrite Nat.sub_diag, app_nil_r. cbn [fst snd do_sleep results_queue].
    repeat split; [exact Hk|exact He|lia].
  - exists n. rewrite Nat.sub_diag, app_nil_r. cbn [fst snd do_append results_queue].
    repeat split; [exact Hk|exact He|lia].
  - destruct He as [Hown He]. exists (S n). cbn [fst snd do_put results_queue].
    repeat split; [exact Hk|exact He|lia|].
    unfold worker_ids. rewrite fmap_app. replace (S n - n)%nat with 1%nat by lia.
    cbn. rewrite Hown. reflexivity.
Qed.

Lemma reporting_run (wn : nat * nat) (t : prog unit) (st : state W) :
  reporting wn t ->
  (wn.2 <= 1)%nat
  /\ worker_ids (results_queue (run t st).2)
     = worker_ids (results_queue st) ++ replicate (1 - wn.2) wn.1.
Proof.
  destruct wn as [w n]. intros [Hc He]. cbn [fst snd] in *. revert st He.
  induction Hc as [n a Hn|n e Hn|n c k Hk IH|n s k Hk IH|n x k Hk IH|n x k Hk IH];
    intros st He; apply emits_inv in He; cbn [run].
  - subst n. cbn. rewrite app_nil_r. auto.
  - subst n. cbn. rewrite app_nil_r. auto.
  - unfold do_call. destruct (respond c (world st)) as [r w'].
    destruct (IH r (mkState w' (trace st ++ [Called c]) (created_projects st)
                      (results_queue st)) (He r)) as [Hle Hq]. auto.
  - destruct (IH (do_sleep elapse s st) He) as [Hle Hq]. auto.
  - destruct (IH (do_append x st) He) as [Hle Hq]. auto.
  - destruct He as [Hown He]. destruct (IH (do_put x st) He) as [Hle Hq].
    split; [lia|]. rewrite Hq. cbn [do_put results_queue]. unfold worker_ids.
    rewrite fmap_app, <- app_assoc. f_equal.
    assert (n = 0%nat) as -> by lia. cbn. rewrite Hown. reflexivity.
Qed.

Lemma tally_insert (wns : list (nat * nat)) (i w n n' : nat) :
  wns !! i = Some (w, n) -> (n <= n')%nat ->
  tally (<[i := (w, n')]> wns) ≡ₚ tally wns ++ replicate (n' - n) w
  /\ (<[i := (w, n')]> wns).*1 = wns.*1.
Proof.
  intros Hi Hle. revert i Hi. induction wns as [|wn wns IH]; intros [|i] Hi; try discriminate Hi.
  - injection Hi as ->.
    change (<[0%nat := (w, n')]> ((w, n) :: wns)) with ((w, n') :: wns).
    split; [|reflexivity]. unfold tally. rewrite !bind_cons. cbn [fst snd].
    replace n' with (n + (n' - n))%nat at 1 by lia. rewrite replicate_add, <- !app_assoc.
    apply Permutation_app_head, Permutation_app_comm.
  - simpl in Hi. destruct (IH i Hi) as [Hperm Hfst].
    change (<[S i := (w, n')]> (wn :: wns)) with (wn :: <[i := (w, n')]> wns).
    split; [|rewrite !fmap_cons, Hfst; reflexivity].
    unfold tally in *. rewrite !bind_cons, <- app_assoc.
    apply Permutation_app_head, Hperm.
Qed.

Lemma run_schedule_reporting (schedule : list nat) (threads : list (prog unit))
    (wns : list (nat * nat)) (st : state W) :
  Forall2 reporting wns threads ->
  worker_ids (results_queue st) ≡ₚ tally wns ->
  exists wns',
    Forall2 reporting wns' (run_schedule respond elapse schedule threads st).1
    /\ wns'.*1 = wns.*1
    /\ worker_ids (results_queue (run_schedule respond elapse schedule threads st).2)
       ≡ₚ tally wns'.
Proof.
  revert threads wns st. induction schedule as [|i rest IH]; intros threads wns st Hall Hq.
  - exists wns. cbn. auto.
  - cbn [run_schedule]. destruct (threads !! i) as [t|] eqn:Hi; [|apply IH; assumption].
    destruct (Forall2_lookup_r _ _ _ _ _ Hall Hi) as ([w n] & Hn & Ht).
    destruct (reporting_step (w, n) t st Ht) as (n' & Ht' & Hle & Hstep).
    cbn [fst snd] in *.
    destruct (tally_insert wns i w n n' Hn Hle) as [Hperm Hfst].
    destruct (step_thread respond elapse t st) as [t' st']. cbn [fst snd] in *.
    destruct (IH (<[i := t']> threads) (<[i := (w, n')]> wns) st') as (wns' & Hall' & Hsame & Hq').
    { apply Forall2_insert; assumption. }
    { rewrite Hstep, Hperm, Hq. reflexivity. }
    exists wns'. split; [exact Hall'|]. split; [congruence|exact Hq'].
Qed.

Lemma join_reporting (threads : list (prog unit)) (wns : list (nat * nat)) (st : state W) :
  Forall2 reporting wns threads ->
  Forall (fun wn => (wn.2 <= 1)%nat) wns
  /\ worker_ids (results_queue (join respond elapse threads st))
     = worker_ids (results_queue st) ++ missing wns.
Proof.
  intros Hall. revert st. induction Hall as [|wn t wns threads Ht Hall IH]; intros st.
  - cbn. rewrite app_nil_r. auto.
  - cbn [join]. destruct (reporting_run wn t st Ht) as [Hle Hq].
    destruct (IH (run t st).2) as [Hles Hjoin].
    split; [constructor; assumption|]. unfold missing in *.
    rewrite Hjoin, Hq, bind_cons, <- app_assoc. reflexivity.
Qed.

Lemma tally_missing (wns : list (nat * nat)) :
  Forall (fun wn => (wn.2 <= 1)%nat) wns -> tally wns ++ missing wns ≡ₚ wns.*1.
Proof.
  induction 1 as [|[w n] wns Hle Hall IH]; [reflexivity|].
  unfold tally, missing in *. rewrite !bind_cons, fmap_cons. cbn [fst snd] in *.
  assert (Hn : n = 0%nat \/ n = 1%nat) by lia.
  destruct Hn as [-> | ->]; cbn [replicate Nat.sub app].
  - rewrite <- Permutation_middle. constructor. exact IH.
  - constructor. exact IH.
Qed.

(** X19. Whatever the interleaving of the five worker threads, when they
    have been joined the results queue holds exactly one item for each
    worker id 0..4: no worker is lost and none reports twice. *)
Theorem every_worker_reports_exactly_once (schedule : list nat) (st : state W) :
  worker_ids (results_queue (run_workers respond elapse schedule st)) ≡ₚ seq 0 num_threads.
Proof.
  unfold run_workers.
  set (st0 := mkState (world st) (trace st) (created_projects st) []).
  set (wns := (fun w => (w, 0%nat)) <$> seq 0 num_threads).
  assert (Hworkers : Forall2 reporting wns (create_project_worker <$> seq 0 num_threads)).
  { subst wns. apply Forall2_fmap, Forall_Forall2_diag, Forall_forall. intros w _.
    split; [apply create_project_worker_counts|apply create_project_worker_own_items]. }
  destruct (run_schedule_reporting schedule _ wns st0 Hworkers) as (wns' & Hall & Hsame & Hq).
  { reflexivity. }
  destruct (run_schedule respond elapse schedule _ st0) as [threads st1]. cbn [fst snd] in *.
  destruct (join_reporting threads wns' st1 Hall) as [Hle Hjoin].
  rewrite Hjoin, Hq, (tally_missing wns' Hle), Hsame. reflexivity.
Qed.

(** *** The two reads of the isolation verifier *)

(** X20. [verify_tenant_isolation] makes both of its reads with the same
    client: the read as the unauthorized tenant is the same GET as the read
    as the authorized tenant, with the same session headers (so the same
    bearer token), and differs from it in the [X-Tenant-ID] header only.
    The second read is sent exactly when the first one succeeded. *)
Theorem isolation_reads_differ_in_tenant_header_only (api_client : APIClient)
    (project_id : json) (authorized_tenant unauthorized_tenant : string) (st : state W) :
  let read := fun tenant =>
    SessionGet (Url (base_url api_client) (ProjectById project_id))
      (request_headers api_client (tenant_header tenant)) 30 in
  trace (run (verify_tenant_isolation api_client project_id authorized_tenant
                unauthorized_tenant) st).2
  = trace st ++ Called (read authorized_tenant)
      :: match (run (get_project api_client project_id authorized_tenant) st).1 with
         | Ok _ => [Called (read unauthorized_tenant)]
         | Raise _ => []
         end
  /\ forall key, key <> "X-Tenant-ID" ->
       request_headers api_client (tenant_header authorized_tenant) !! key
       = request_headers api_client (tenant_header unauthorized_tenant) !! key.
Proof.
  cbv zeta. split.
  - assert (Hget : forall tenant s,
              trace (run (get_project api_client project_id tenant) s).2
              = trace s ++ [Called (SessionGet (Url (base_url api_client) (ProjectById project_id))
                                      (request_headers api_client (tenant_header tenant)) 30)])
      by (intros; rewrite run_get_project; reflexivity).
    unfold verify_tenant_isolation. rewrite run_on_outcome.
    destruct (run (get_project api_client project_id authorized_tenant) st).1 as [v|e].
    + rewrite run_try_except, run_bind.
      pose proof (Hget unauthorized_tenant
                    (run (get_project api_client project_id authorized_tenant) st).2) as Hsecond.
      destruct (run (get_project api_client project_id unauthorized_tenant) _)
        as [[v'|e'] st2]; cbn [fst snd run] in *;
        rewrite Hsecond, Hget, <- app_assoc; reflexivity.
    + cbn [run snd]. rewrite Hget. reflexivity.
  - intros key Hkey. unfold request_headers, tenant_header.
    rewrite !lookup_union, !lookup_singleton_ne by congruence. reflexivity.
Qed.

(** *** The concurrent test when the success rate is rejected *)


(** *** The workflow on the browser library as it is *)

Lemma stays_emits {A} (P : event -> Prop) (p : prog A) (st : state W) :
  emits P p -> stays respond elapse P p st.
Proof. apply emits_run. Qed.

Lemma stays_on_outcome {A B} (P : event -> Prop) (p : prog A) (f : result A -> prog B)
    (st : state W) :
  stays respond elapse P p st ->
  stays respond elapse P (f (run p st).1) (run p st).2 ->
  stays respond elapse P (on_outcome p f) st.
Proof.
  intros (evs & Hp & Hall) (evs' & Hf & Hall'). exists (evs ++ evs').
  rewrite run_on_outcome, Hf, Hp, <- app_assoc. split; [reflexivity|].
  apply Forall_app. auto.
Qed.

Lemma stays_Throw {A} (P : event -> Prop) (e : exn) (st : state W) :
  stays respond elapse P (Throw e : prog A) st.
Proof. exists []. cbn. rewrite app_nil_r. auto. Qed.

Lemma stays_bind {A B} (P : event -> Prop) (p : prog A) (f : A -> prog B) (st : state W) :
  stays respond elapse P p st ->
  (forall a, (run p st).1 = Ok a -> stays respond elapse P (f a) (run p st).2) ->
  stays respond elapse P (bind p f) st.
Proof.
  intros Hp Hf. unfold bind. apply stays_on_outcome; [exact Hp|].
  destruct (run p st).1 as [a|e]; [apply Hf; reflexivity|apply stays_Throw].
Qed.

Lemma stays_try_finally {A} (P : event -> Prop) (p : prog A) (cleanup : prog unit)
    (st : state W) :
  stays respond elapse P p st -> stays respond elapse P cleanup (run p st).2 ->
  stays respond elapse P (try_finally p cleanup) st.
Proof.
  intros (evs & Hp & Hall) (evs' & Hc & Hall'). exists (evs ++ evs').
  rewrite run_try_finally. cbn [snd]. rewrite Hc, Hp, <- app_assoc. split; [reflexivity|].
  apply Forall_app. auto.
Qed.

Lemma raises_bind {A B} (p : prog A) (f : A -> prog B) (st : state W) :
  (forall a, (run p st).1 = Ok a -> raises respond elapse (f a) (run p st).2) ->
  raises respond elapse (bind p f) st.
Proof.
  intros Hf. unfold raises. rewrite run_bind.
  destruct (run p st).1 as [a|e]; [apply Hf; reflexivity|cbn; eauto].
Qed.

Lemma raises_try_finally {A} (p : prog A) (cleanup : prog unit) (st : state W) :
  raises respond elapse p st -> raises respond elapse (try_finally p cleanup) st.
Proof.
  intros [e He]. unfold raises. rewrite run_try_finally, He. cbn [fst].
  destruct (run cleanup (run p st).2).1; eauto.
Qed.

(** Programs that neither sleep nor touch the page are paced. *)
Lemma emits_paced {A} (ks : list kind) (p : prog A) :
  emits (of_kinds ks) p -> kind_mem KSleep ks = false -> kind_mem KPage ks = false ->
  emits (fun e => paced e = true) p.
Proof.
  intros Hp Hsleep Hpage. apply (emits_weaken (of_kinds ks)); [|exact Hp].
  intros e He. unfold of_kinds in He.
  destruct e as [[]| | |]; try reflexivity; cbn [kind_of] in He; congruence.
Qed.

Lemma login_paced (email password : string) :
  emits (fun e => paced e = true) (login email password).
Proof. unfold login. emits_tac. Qed.

Section BrowserLibrary.
Hypothesis to_have_url_pattern_missing : no_url_pattern_assertion respond.

(** [WebUITester.login] never returns: its check of the dashboard URL
    raises when the calls before it did not. *)
Lemma login_raises (email password : string) (st : state W) :
  raises respond elapse (login email password) st.
Proof.
  unfold login. do 5 (apply raises_bind; intros ? _).
  apply raises_bind. intros u Hu. exfalso.
  rewrite (run_perform (ExpectUrlPattern ".*\/dashboard.*")) in Hu. cbn [fst] in Hu.
  unfold do_call in Hu.
  match type of Hu with context [respond (ExpectUrlPattern ?pattern) ?w] =>
    destruct (to_have_url_pattern_missing pattern w) as [name Hname];
    destruct (respond (ExpectUrlPattern pattern) w) as [r w'] end.
  cbn [fst] in *. subst r. discriminate Hu.
Qed.

Lemma flow_web_ui_halts (test_project : TestProject) (st : state W) :
  stays respond elapse (fun e => paced e = true) (flow_web_ui test_project) st
  /\ raises respond elapse (flow_web_ui test_project) st.
Proof.
  unfold flow_web_ui, with_playwright. split.
  - apply stays_bind; [apply stays_emits; emits_tac|intros _ _].
    apply stays_try_finally; [|apply stays_emits; emits_tac].
    apply stays_bind; [apply stays_emits; emits_tac|intros _ _].
    apply stays_bind; [apply stays_emits; emits_tac|intros _ _].
    apply stays_try_finally; [|apply stays_emits; emits_tac].
    apply stays_bind; [apply stays_emits, login_paced|intros a Ha].
    destruct (login_raises ADMIN_EMAIL PASSWORD
                (run (perform NewPage)
                   (run (perform ChromiumLaunch) (run (perform PlaywrightStart) st).2).2).2)
      as [e He].
    rewrite He in Ha. discriminate Ha.
  - apply raises_bind; intros _ _. apply raises_try_finally.
    apply raises_bind; intros _ _. apply raises_bind; intros _ _. apply raises_try_finally.
    apply raises_bind; intros a Ha.
    destruct (login_raises ADMIN_EMAIL PASSWORD
                (run (perform NewPage)
                   (run (perform ChromiumLaunch) (run (perform PlaywrightStart) st).2).2).2)
      as [e He].
    rewrite He in Ha. discriminate Ha.
Qed.

Lemma flow_after_create_paced (test_project : TestProject) (api_client : APIClient)
    (project_response created_project_id : json) (st : state W) :
  stays respond elapse (fun e => paced e = true)
    (flow_after_create test_project api_client project_response created_project_id) st.
Proof.
  unfold flow_after_create. cbv zeta.
  match goal with |- stays _ _ _ (Append ?entry ?k) _ =>
    enough (Hk : stays respond elapse (fun e => paced e = true) k (do_append entry st)) end.
  { destruct Hk as (evs & Htr & Hall). exists (Appended (created_project_id, COMPANY1_ID) :: evs).
    cbn [run]. rewrite Htr. cbn [do_append trace]. rewrite <- app_assoc.
    split; [reflexivity|]. constructor; [reflexivity|exact Hall]. }
  do 5 (apply stays_bind; [apply stays_emits; emits_tac|intros ? _]).
  apply stays_bind; [apply flow_web_ui_halts|intros u Hu].
  match type of Hu with (run (flow_web_ui ?t) ?s).1 = _ =>
    destruct (proj2 (flow_web_ui_halts t s)) as [e He] end.
  rewrite He in Hu. discriminate Hu.
Qed.

Lemma test_project_creation_flow_paced (test_project : TestProject) (api_client : APIClient)
    (st : state W) :
  stays respond elapse (fun e => paced e = true)
    (test_project_creation_flow test_project api_client) st.
Proof.
  unfold test_project_creation_flow. apply stays_on_outcome.
  - apply stays_emits, (emits_paced [KPost]); [apply flow_create_effects|reflexivity..].
  - destruct (run (flow_create test_project api_client) st).1
      as [[[api_client' project_response] created_project_id]|e]; [|apply stays_Throw].
    apply stays_try_finally; [apply flow_after_create_paced|].
    apply stays_emits, (emits_paced [KGet]); [apply flow_finally_effects|reflexivity..].
Qed.


End BrowserLibrary.

End Properties.

(** ** Concrete runs *)

(** C1, as stated, fails: when the unauthorized read times out in transit
    the verdict is true although nothing was denied. *)
Lemma verdict_true_without_denial :
  ~ verdict_iff_denied (scripted unauthorized_read_times_out accepting) no_elapse
      new_APIClient (JNum 7) "company1" "company2" (init_state 0).
Proof.
  intros [Hdenied _].
  destruct Hdenied as [_ (status & body & Hread & _)]; [vm_compute; reflexivity|].
  vm_compute in Hread. discriminate Hread.
Qed.

(** C7, as stated, fails: when the project list does not load either, the
    check raises the driver's timeout instead of returning [False]. *)
Lemma invisible_card_raises :
  ~ invisible_is_false (scripted waits_time_out accepting) no_elapse "P1" 30000 (init_state 0).
Proof.
  intros H. unfold invisible_is_false in H.
  assert (Hnever : card_never_visible (scripted waits_time_out accepting) "P1" 30000).
  { intros w. exists "TimeoutError". reflexivity. }
  specialize (H Hnever). vm_compute in H. discriminate H.
Qed.

(** Were the login of STEP 2 to return, as on a browser library that had
    [to_have_url_pattern], the test would sleep two seconds between the
    login and the dashboard check. *)
Lemma passing_run_pauses :
  ~ no_fixed_pause (scripted nothing_fails isolating) no_elapse P1 (init_state 0).
Proof. unfold no_fixed_pause. vm_compute. discriminate. Qed.

(** C2, as stated, fails: when the login of the cleanup fixture fails, the
    created project is never deleted. *)
Lemma failed_cleanup_login_skips_deletion :
  ~ deletes_created_project (scripted (late_login_fails 1) isolating) no_elapse
      P1 (init_state 0).
Proof.
  intros H. unfold deletes_created_project in H.
  destruct (run (scripted (late_login_fails 1) isolating) no_elapse
              (flow_create P1 new_APIClient)
              (mkState (world (init_state 0)) (trace (init_state 0)) []
                 (results_queue (init_state 0))))
    as [[[[api_client project_response] created_project_id]|e] st_c] eqn:Hrun.
  - specialize (H _ _ _ _ eq_refl). vm_compute in H. discriminate H.
  - vm_compute in Hrun. discriminate Hrun.
Qed.

(** In the run in which every step passes, project 7 is deleted once. *)
Lemma passing_run_deletes_project_once :
  deletions (trace (run_test_project_creation_flow (scripted nothing_fails isolating)
                      no_elapse P1 (init_state 0)).2)
  = [(JNum 7, Some (HStr "company1"))].
Proof.
  destruct (run (scripted nothing_fails isolating) no_elapse
              (flow_create P1 new_APIClient)
              (mkState (world (init_state 0)) (trace (init_state 0)) []
                 (results_queue (init_state 0))))
    as [[[[api_client project_response] created_project_id]|e] st_c] eqn:Hrun;
    [|vm_compute in Hrun; discriminate Hrun].
  destruct (created_project_registered_and_deleted (scripted nothing_fails isolating)
              no_elapse P1 (init_state 0) api_client project_response created_project_id
              st_c Hrun) as (_ & _ & _ & Hdeleted & _).
  rewrite Hdeleted.
  - vm_compute in Hrun. injection Hrun as _ _ <- _. reflexivity.
  - destruct (run (scripted nothing_fails isolating) no_elapse
                (authenticate new_APIClient "admin@company1.com" "password123") _).1
      as [auth|e] eqn:Hlogin; [eauto|].
    vm_compute in Hlogin. discriminate Hlogin.
Defined.

(** All five workers succeed and the rate is accepted, but the cleanup
    login fails and nothing is deleted. *)
Lemma failed_login_skips_concurrent_cleanup :
  ~ deletes_every_success (scripted (late_login_fails 10) accepting) no_elapse
      [0; 1; 2; 3; 4; 0; 1; 2; 3; 4]%nat (init_state 0).
Proof. unfold deletes_every_success. vm_compute. discriminate. Qed.

(** With every request accepted, the five created projects are deleted. *)
Lemma accepted_batch_is_deleted :
  deletions (trace (test_concurrent_project_creation (scripted nothing_fails accepting)
                      no_elapse [0; 1; 2; 3; 4; 4; 3; 2; 1; 0]%nat (init_state 0)).2)
  = replicate 5 (JNum 7, Some (HStr "company1")).
Proof.
  assert (Hpass : (test_concurrent_project_creation (scripted nothing_fails accepting)
                     no_elapse [0; 1; 2; 3; 4; 4; 3; 2; 1; 0]%nat (init_state 0)).1 = Ok tt)
    by (vm_compute; reflexivity).
  destruct (concurrent_cleanup_after_acceptance (scripted nothing_fails accepting) no_elapse
              [0; 1; 2; 3; 4; 4; 3; 2; 1; 0]%nat (init_state 0) Hpass) as (_ & Hdeleted & _).
  rewrite Hdeleted.
  - vm_compute. reflexivity.
  - destruct (run (scripted nothing_fails accepting) no_elapse
                (authenticate new_APIClient "admin@company1.com" "password123") _).1
      as [auth|e] eqn:Hlogin; [eauto|].
    vm_compute in Hlogin. discriminate Hlogin.
Defined.

(** Two timeouts and then a success: [navigate_to_login] returns after
    three calls of [page.goto]; three timeouts: the third reaches the
    caller. *)
Lemma navigate_to_login_third_attempt :
  (let final := run (scripted (goto_times_out 2) accepting) no_elapse
                  LoginPage.navigate_to_login (init_state 0) in
   final.1 = Ok tt /\ gotos (trace final.2) = 3%nat)
  /\ (let final := run (scripted (goto_times_out 3) accepting) no_elapse
                     LoginPage.navigate_to_login (init_state 0) in
      final.1 = Raise (LibraryError "TimeoutError") /\ gotos (trace final.2) = 3%nat).
Proof.
  split.
  - apply (proj1 (proj2 (navigate_to_login_retries (scripted (goto_times_out 2) accepting)
                           no_elapse (init_state 0))) 2%nat); [lia|].
    vm_compute. repeat split; eauto.
  - apply (proj2 (proj2 (navigate_to_login_retries (scripted (goto_times_out 3) accepting)
                           no_elapse (init_state 0)))).
    vm_compute. repeat split; eauto.
Defined.

(** The list loads and the card does not show up: the check returns
    [False]. *)
Lemma invisible_card_in_loaded_list :
  (run (scripted card_wait_times_out accepting) no_elapse
     (verify_project_in_dashboard "P1" 30000) (init_state 0)).1 = Ok false.
Proof.
  apply (proj1 (proj2 (verify_project_in_dashboard_verdict
                         (scripted card_wait_times_out accepting) no_elapse
                         "P1" 30000 (init_state 0)) ltac:(vm_compute; reflexivity))
           "TimeoutError").
  vm_compute. reflexivity.
Defined.

(** Company1 reads project 7 and company2 gets 403: the verdict is true. *)
Lemma forbidden_read_passes :
  (run (scripted nothing_fails isolating) no_elapse
     (verify_tenant_isolation new_APIClient (JNum 7) "company1" "company2")
     (init_state 0)).1 = Ok true.
Proof.
  apply (proj1 (verify_tenant_isolation_verdict (scripted nothing_fails isolating) no_elapse
                  new_APIClient (JNum 7) "company1" "company2" (init_state 0))).
  split.
  - exists project_7. vm_compute. reflexivity.
  - exists (GetProjectFailed 403 "Forbidden"). vm_compute. reflexivity.
Defined.

(** A DELETE answered with 200 makes [delete_project] return [True]. *)
Lemma accepted_delete_returns_true :
  (run (scripted nothing_fails accepting) no_elapse
     (delete_project new_APIClient (JNum 7) "company1") (init_state 0)).1 = Ok true.
Proof.
  apply (proj1 (proj2 (delete_project_never_raises (scripted nothing_fails accepting)
                         no_elapse new_APIClient (JNum 7) "company1" (init_state 0)))).
  exists (accepting 0 PageUrl). split; [reflexivity|]. left. reflexivity.
Defined.

(** In the passing run the login of STEP 2 is followed by the pause and
    the dashboard check. *)
Lemma pause_follows_login :
  exists evs,
    trace (run (scripted nothing_fails isolating) no_elapse (flow_web_ui P1) (init_state 0)).2
    = trace (run (scripted nothing_fails isolating) no_elapse flow_web_ui_login
               (init_state 0)).2
      ++ Slept 2 :: Called PageUrl :: evs.
Proof.
  apply (proj2 (fixed_pause_before_dashboard_check (scripted nothing_fails isolating)
                  no_elapse P1 (init_state 0))).
  vm_compute. reflexivity.
Defined.

(** The first platform's browser does not launch: that platform is recorded
    as failed, and the next one is still checked and passes. *)
Lemma failed_platform_does_not_stop_the_others :
  let final := run (scripted first_launch_fails accepting) no_elapse
                 (test_cross_platform "P1" ADMIN_EMAIL PASSWORD) (init_state 0) in
  exists results : gmap string bool,
    final.1 = Ok results
    /\ results !! "chrome_windows" = Some false
    /\ results !! "safari_mac" = Some true.
Proof.
  intros final.
  pose proof (test_cross_platform_isolates_failures (scripted first_launch_fails accepting)
                no_elapse "P1" ADMIN_EMAIL PASSWORD (init_state 0))
    as (_ & _ & _ & results & Hresults & _ & Hrecorded).
  pose proof (Hrecorded [] "chrome_windows" ["safari_mac"; "chrome_android"; "safari_ios"]
                eq_refl) as Hfirst.
  pose proof (Hrecorded ["chrome_windows"] "safari_mac" ["chrome_android"; "safari_ios"]
                eq_refl) as Hsecond.
  exists results. split; [exact Hresults|]. split.
  - rewrite Hfirst. vm_compute. reflexivity.
  - rewrite Hsecond. vm_compute. reflexivity.
Defined.

(** The requests of the admin after its login on the accepting server carry
    the token of that login. *)
Lemma admin_requests_carry_token :
  request_headers admin_client (tenant_header "company1") !! "Authorization"
  = Some (HBearer (JStr "t0k3n")).
Proof.
  refine (proj1 (authenticated_requests_carry_token (scripted nothing_fails accepting)
                   no_elapse new_APIClient "admin@company1.com" "password123" (init_state 0)
                   (JStr "t0k3n") admin_client _ P1 (JNum 7) "company1" (init_state 0))).
  vm_compute. reflexivity.
Defined.

(** A second login on a server that rotates its tokens leaves the client
    with the second token. *)
Lemma second_login_replaces_first_token :
  request_headers
    {| base_url := base_url new_APIClient;
       session_headers :=
         <["Authorization" := HBearer (JStr "second")]> (session_headers new_APIClient) |}
    (tenant_header "company1") !! "Authorization"
  = Some (HBearer (JStr "second")).
Proof.
  refine (proj2 (reauthentication_replaces_token (scripted nothing_fails rotating_tokens)
                   no_elapse new_APIClient "admin@company1.com" "password123"
                   "admin@company1.com" "password123" (init_state 0) (init_state 1)
                   (JStr "first") (JStr "second")
                   {| base_url := base_url new_APIClient;
                      session_headers :=
                        <["Authorization" := HBearer (JStr "first")]>
                          (session_headers new_APIClient) |}
                   {| base_url := base_url new_APIClient;
                      session_headers :=
                        <["Authorization" := HBearer (JStr "second")]>
                          (session_headers new_APIClient) |} _ _) "company1");
    vm_compute; reflexivity.
Defined.

(** When the login of STEP 1 fails in transit, the test raises that error
    and nothing is registered. *)
Lemma refused_login_registers_nothing :
  (run_test_project_creation_flow (scripted (late_login_fails 0) accepting) no_elapse P1
     (init_state 0)).1 = Raise (LibraryError "ConnectionError")
  /\ registrations (trace (run_test_project_creation_flow
                             (scripted (late_login_fails 0) accepting) no_elapse P1
                             (init_state 0)).2) = [].
Proof.
  pose proof (failed_creation_registers_nothing (scripted (late_login_fails 0) accepting)
                no_elapse P1 (init_state 0) (LibraryError "ConnectionError")) as H.
  cbv zeta in H. destruct H as (_ & _ & Hraise & Hreg & _).
  - vm_compute. reflexivity.
  - split; [exact Hraise|exact Hreg].
Defined.

(** A creation response without an id fails the test on its first
    assertion. *)
Lemma response_without_id_fails_the_test :
  (run (scripted nothing_fails no_id) no_elapse (test_project_creation_flow P1 new_APIClient)
     (init_state 0)).1 = Raise (AssertionError NoProjectId).
Proof.
  destruct (run (scripted nothing_fails no_id) no_elapse (flow_create P1 new_APIClient)
              (init_state 0))
    as [[[[api_client project_response] created_project_id]|e] st_c] eqn:Hrun;
    [|vm_compute in Hrun; discriminate Hrun].
  rewrite (missing_id_fails_after_registration (scripted nothing_fails no_id) no_elapse P1
             new_APIClient api_client project_response created_project_id (init_state 0)
             st_c Hrun); [reflexivity|].
  vm_compute in Hrun. injection Hrun as _ _ <- _. reflexivity.
Defined.

(** In the passing run the test ends as its [try] body does. *)
Lemma passing_run_keeps_outcome_of_body :
  (run (scripted nothing_fails isolating) no_elapse (test_project_creation_flow P1 new_APIClient)
     (init_state 0)).1
  = (run (scripted nothing_fails isolating) no_elapse
       (flow_after_create P1 admin_client project_7 (JNum 7))
       (run (scripted nothing_fails isolating) no_elapse (flow_create P1 new_APIClient)
          (init_state 0)).2).1.
Proof.
  refine (proj1 (finally_block_keeps_outcome (scripted nothing_fails isolating) no_elapse P1
                   new_APIClient admin_client project_7 (JNum 7) (init_state 0) _ _)).
  vm_compute. reflexivity.
Defined.



(** C3. The logins of two of the five workers fail, the other three create
    projects 5, 6 and 7: the success rate 3/5 is below 0.8, the assertion
    on the rate raises before the cleanup block is reached, and no deletion
    is attempted for any of the three created projects. *)
Theorem rejected_batch_deletes_nothing :
  let respond := scripted (late_login_fails 3) numbering in
  let schedule := [0; 1; 2; 3; 4]%nat in
  let joined := run_workers respond no_elapse schedule (init_state 0) in
  let final := test_concurrent_project_creation respond no_elapse schedule (init_state 0) in
  results_queue joined
  = [(0%nat, true, JNum 5); (1%nat, true, JNum 6); (2%nat, true, JNum 7);
     (3%nat, false, JNull); (4%nat, false, JNull)]
  /\ successful_ids (results_queue joined) = [JNum 5; JNum 6; JNum 7]
  /\ (exists rate, final.1 = Raise (AssertionError (ConcurrentRateLow rate)))
  /\ deletions (trace final.2) = []
  /\ ~ deletes_every_success respond no_elapse schedule (init_state 0).
Proof.
  cbv zeta. split; [vm_compute; reflexivity|]. split; [vm_compute; reflexivity|].
  split; [eexists; vm_compute; reflexivity|]. split; [vm_compute; reflexivity|].
  unfold deletes_every_success. vm_compute. intros H. discriminate H.
Qed.


(** C10. Whenever the authorized tenant's read succeeds,
    [verify_tenant_isolation] returns true if the unauthorized tenant's
    read raises any exception at all; in particular there is a run in which
    the unauthorized read fails with a transport timeout, not a denial,
    and the verdict is true. *)
Theorem isolation_passes_on_any_exception :
  (forall (W : Type) (respond : forall c : call, W -> reply (ans c) * W)
          (elapse : Z -> W -> W) (api_client : APIClient) (project_id : json)
          (authorized_tenant unauthorized_tenant : string) (st : state W) (e : exn),
     read_succeeds respond elapse api_client project_id authorized_tenant st ->
     (run respond elapse (get_project api_client project_id unauthorized_tenant)
        (after_read respond elapse api_client project_id authorized_tenant st)).1 = Raise e ->
     (run respond elapse
        (verify_tenant_isolation api_client project_id authorized_tenant
           unauthorized_tenant) st).1 = Ok true)
  /\ (let respond := scripted unauthorized_read_times_out accepting in
      let st := init_state 0 in
      read_succeeds respond no_elapse new_APIClient (JNum 7) "company1" st
      /\ (run respond no_elapse (get_project new_APIClient (JNum 7) "company2")
            (after_read respond no_elapse new_APIClient (JNum 7) "company1" st)).1
         = Raise (LibraryError "ReadTimeout")
      /\ (run respond no_elapse
            (verify_tenant_isolation new_APIClient (JNum 7) "company1" "company2") st).1
         = Ok true).
Proof.
  split.
  - intros W respond elapse. apply verdict_true_on_any_exception.
  - simpl. split; [|split].
    + exists project_7. vm_compute. reflexivity.
    + vm_compute. reflexivity.
    + vm_compute. reflexivity.
Qed.
